(** * ScheduleTracking: carrier-normalization core

    A shallow embedding of the TypeScript sources of the schedule/tracking
    gateway (carrier routers, sub-API adapters, vendor mappers, credential
    manager, fan-out controllers) together with the properties the
    specification states about them.

    Conventions of the embedding
    - a JavaScript value of type [string | undefined] is an [option string];
      it is "truthy" when it is [Some s] with [s] non-empty;
    - JavaScript strings are modelled by [string] (one character per code
      unit, which is exact on ASCII payloads);
    - a [Record<string,string>] built by the code is a [gmap string string];
    - a JavaScript [Map] that is iterated is an association list in insertion
      order;
    - an [async] function that may throw or call the transport client is a
      tree [Prog]: it returns, throws, or performs one HTTP call and goes on
      with the outcome. *)

From Stdlib Require Import ZArith String Ascii List Bool Lia.
From stdpp Require Import base option list gmap strings pretty.
Import ListNotations.
Open Scope string_scope.
Open Scope Z_scope.

(* ===================================================================== *)
(** ** JavaScript primitives used by the sources *)
(* ===================================================================== *)

Module JS.

(** [!!v] for [v : string | undefined]. *)
Definition truthy (v : option string) : bool :=
  match v with
  | Some s => negb (String.eqb s "")
  | None => false
  end.

(** [a || b] on [string | undefined]. *)
Definition or (a b : option string) : option string :=
  if truthy a then a else b.

(** [a || 'literal']. *)
Definition orElse (a : option string) (d : string) : string :=
  match a with
  | Some s => if String.eqb s "" then d else s
  | None => d
  end.

(** [s.includes(t)]. *)
Definition includes (t s : string) : bool :=
  match String.index 0 t s with
  | Some _ => true
  | None => false
  end.

(** [s.endsWith(t)]. *)
Definition endsWith (t s : string) : bool :=
  let n := String.length s in
  let k := String.length t in
  (k <=? n)%nat && String.eqb (String.substring (n - k) k s) t.

(** [s.substring(a, b)] for [0 <= a <= b]. *)
Definition substring (a b : nat) (s : string) : string :=
  String.substring a (b - a) s.

(** [parts.join(sep)]. *)
Fixpoint join (sep : string) (parts : list string) : string :=
  match parts with
  | [] => ""
  | [p] => p
  | p :: rest => p ++ sep ++ join sep rest
  end.

(** [c.toUpperCase()] on one ASCII code unit. *)
Definition upperAscii (c : ascii) : ascii :=
  let n := nat_of_ascii c in
  if ((97 <=? n) && (n <=? 122))%nat then ascii_of_nat (n - 32) else c.

(** [s.toUpperCase()] (ASCII letters). *)
Fixpoint toUpperCase (s : string) : string :=
  match s with
  | EmptyString => EmptyString
  | String c r => String (upperAscii c) (toUpperCase r)
  end.

(** A value of type [string | string[] | undefined] as Express parses a
    repeated query parameter. *)
Inductive strOrArr :=
| Str (s : string)
| Arr (l : list string).

(** Truthiness of [string | string[] | undefined]: every array is truthy. *)
Definition truthyQ (v : option strOrArr) : bool :=
  match v with
  | Some (Str s) => negb (String.eqb s "")
  | Some (Arr _) => true
  | None => false
  end.

(** Truthiness of [number | undefined] (an integer here). *)
Definition truthyN (v : option Z) : bool :=
  match v with
  | Some n => negb (n =? 0)
  | None => false
  end.

(** A number a query field holds after [parseInt(text, 10)]: an integer or
    [NaN]; [toString] is the decimal notation (integers below 10^21 in
    absolute value). *)
Inductive num :=
| NaN
| Int (z : Z).

Definition numToString (n : num) : string :=
  match n with
  | NaN => "NaN"
  | Int z => pretty z
  end.

(** Truthiness of [number | undefined]: [0] and [NaN] are falsy. *)
Definition truthyNum (v : option num) : bool :=
  match v with
  | Some (Int z) => negb (z =? 0)
  | _ => false
  end.

(** [c.toLowerCase()] on one ASCII code unit, and [s.toLowerCase()]. *)
Definition lowerAscii (c : ascii) : ascii :=
  let n := nat_of_ascii c in
  if ((65 <=? n) && (n <=? 90))%nat then ascii_of_nat (n + 32) else c.

Fixpoint toLowerCase (s : string) : string :=
  match s with
  | EmptyString => EmptyString
  | String c r => String (lowerAscii c) (toLowerCase r)
  end.

(** The ASCII white space of ECMAScript: TAB, LF, VT, FF, CR and SP. *)
Definition isWhiteSpace (c : ascii) : bool :=
  let n := nat_of_ascii c in
  (((9 <=? n) && (n <=? 13)) || (n =? 32))%nat.

Fixpoint trimStart (s : string) : string :=
  match s with
  | EmptyString => EmptyString
  | String c r => if isWhiteSpace c then trimStart r else s
  end.

Fixpoint trimEnd (s : string) : string :=
  match s with
  | EmptyString => EmptyString
  | String c r =>
      let r' := trimEnd r in
      if isWhiteSpace c && String.eqb r' "" then EmptyString else String c r'
  end.

(** [s.trim()]. *)
Definition trim (s : string) : string := trimEnd (trimStart s).

(** [s.split(sep)] for a one-character separator. *)
Fixpoint split (sep : ascii) (s : string) : list string :=
  match s with
  | EmptyString => [EmptyString]
  | String c r =>
      if Ascii.eqb c sep then EmptyString :: split sep r
      else match split sep r with
           | p :: ps => String c p :: ps
           | [] => [String c EmptyString]
           end
  end.

Definition isDigit (c : ascii) : bool :=
  let n := nat_of_ascii c in ((48 <=? n) && (n <=? 57))%nat.

(** The value of the longest prefix of decimal digits, [None] when there is
    no digit. *)
Fixpoint digitsValue (acc : Z) (seen : bool) (s : string) : option Z :=
  match s with
  | String c r =>
      if isDigit c
      then digitsValue (10 * acc + Z.of_nat (nat_of_ascii c - 48)) true r
      else if seen then Some acc else None
  | EmptyString => if seen then Some acc else None
  end.

(** [parseInt(s, 10)]: leading white space, an optional sign, the longest
    prefix of digits; what follows is ignored. *)
Definition parseInt (s : string) : num :=
  let s' := trimStart s in
  let '(sign, rest) :=
    match s' with
    | String c r =>
        if Ascii.eqb c "-" then (-1, r)
        else if Ascii.eqb c "+" then (1, r)
        else (1, s')
    | EmptyString => (1, s')
    end in
  match digitsValue 0 false rest with
  | Some v => Int (sign * v)
  | None => NaN
  end.

End JS.

(* ===================================================================== *)
(** ** Effects: throwing and calling the transport client *)
(* ===================================================================== *)

(** The body of an error response as the adapters inspect it. *)
Record ErrorData := {
  ed_statusCode : option string;
  ed_statusCodeText : option string;
  ed_errors : option (option string * option string); (* reason, message *)
  ed_json : string                                    (* JSON.stringify(data) *)
}.

Record ErrorResponse := {
  er_status : Z;
  er_statusText : string;
  er_data : ErrorData
}.

Inductive HttpMethod := GET | POST.

Record HttpRequest := {
  rq_method : HttpMethod;
  rq_url : string;
  rq_params : gmap string string;
  rq_headers : gmap string string;
  rq_body : gmap string string
}.

(** What [await httpClient.get/post] produces: the response data, or a
  thrown error which carries a [response] when the vendor answered with an
  error status. *)
Inductive HttpOutcome (R : Type) :=
  | Response (data : R)
  | Failure (response : option ErrorResponse) (message : string).
Arguments Response {R} data.
Arguments Failure {R} response message.

(** An asynchronous computation of the adapters. [Throw m] is
  [throw new Error(m)]; a computation that is a [Throw] or a [Ret] at its
  root has performed no network call. *)
Inductive Prog (R A : Type) :=
  | Ret (a : A)
  | Throw (message : string)
  | Http (req : HttpRequest) (k : HttpOutcome R -> Prog R A).
Arguments Ret {R A} a.
Arguments Throw {R A} message.
Arguments Http {R A} req k.

(** The computation performs no network call at all. *)
Definition noNetworkCall {R A} (p : Prog R A) : bool :=
  match p with
  | Http _ _ => false
  | _ => true
  end.

(** The requests a computation issues when the network answers with
  [net]. *)
Fixpoint calls {R A} (net : HttpRequest -> HttpOutcome R) (p : Prog R A)
  : list HttpRequest :=
  match p with
  | Http req k => req :: calls net (k (net req))
  | _ => []
  end.

(** The settled value of a computation: [inl message] when it rejects. *)
Fixpoint settle {R A} (net : HttpRequest -> HttpOutcome R) (p : Prog R A)
  : string + A :=
  match p with
  | Ret a => inr a
  | Throw m => inl m
  | Http req k => settle net (k (net req))
  end.

(* ===================================================================== *)
(** ** domain/models/schedule.ts *)
(* ===================================================================== *)

Inductive EventTypeCode := ARRI | DEPA.
Inductive EventClassifierCode := ACT | EST | PLN.

Record Timestamp := {
  eventTypeCode : EventTypeCode;
  eventClassifierCode : EventClassifierCode;
  eventDateTime : string
}.

Record CutOffTime := {
  cutOffDateTimeCode : string;
  cutOffDateTime : string
}.

(** domain/models/common.ts: [Address]. *)
Record Address := {
  street : string;
  streetNumber : option string;
  floor : option string;
  postCode : option string;
  city : string;
  stateRegion : option string;
  addressCountryCode : string
}.

Record TransportCallLocation := {
  locationName : option string;
  UNLocationCode : option string;
  address : option Address;
  facilitySMDGCode : option string
}.

Record TransportCall := {
  transportCallReference : string;
  portVisitReference : option string;
  carrierImportVoyageNumber : string;
  carrierExportVoyageNumber : option string;
  universalImportVoyageReference : option string;
  universalExportVoyageReference : option string;
  location : TransportCallLocation;
  timestamps : list Timestamp;
  cutOffTimes : option (list CutOffTime)
}.

(** domain/models/common.ts: [Vessel]. *)
Record Vessel := {
  vesselIMONumber : string;
  name : option string;
  flag : option string;
  callSign : option string;
  MMSINumber : option string;
  operatorCarrierCode : option string;
  operatorCarrierCodeListProvider : option string
}.

Record VesselSchedule := {
  vessel : option Vessel;
  isDummyVessel : bool;
  transportCalls : option (list TransportCall)
}.

Record ServiceSchedule := {
  carrierServiceCode : string;
  carrierServiceName : string;
  universalServiceReference : option string;
  vesselSchedules : list VesselSchedule
}.

(** The flat parameter bag the schedule controller builds
  ([ScheduleQueryParams] and the carrier-specific extensions the routers
  read through [(params as any)]). *)
Record Params := {
  q_vesselIMONumber : option string;
  q_vesselName : option string;
  q_carrierServiceCode : option string;
  q_universalServiceReference : option string;
  q_carrierVoyageNumber : option string;
  q_universalVoyageReference : option string;
  q_UNLocationCode : option string;
  q_facilitySMDGCode : option string;
  q_vesselOperatorCarrierCode : option string;
  q_startDate : option string;
  q_endDate : option string;
  q_limit : option Z;
  q_cursor : option string;
(* HMM point-to-point *)
  fromLocationCode : option string;
  toLocationCode : option string;
  periodDate : option string;
(* CMA CGM route *)
  placeOfLoading : option string;
  placeOfDischarge : option string;
  unLocodePlaceOfLoading : option string;
  unLocodePlaceOfDischarge : option string;
(* CMA CGM voyage *)
  voyageCode : option string;
  vesselIMO : option string;
  from : option string;
  to : option string;
  portCode : option JS.strOrArr;
  countryCode : option JS.strOrArr;
(* CMA CGM proforma *)
  serviceCode : option string;
  lineCode : option string;
  zoneFromCode : option string;
  zoneToCode : option string;
(* Maersk *)
  placeOfReceipt : option string;
  placeOfDelivery : option string;
  date : option string
}.

(** The query with no parameter at all. *)
Definition noParams : Params :=
  {| q_vesselIMONumber := None; q_vesselName := None;
     q_carrierServiceCode := None; q_universalServiceReference := None;
     q_carrierVoyageNumber := None; q_universalVoyageReference := None;
     q_UNLocationCode := None; q_facilitySMDGCode := None;
     q_vesselOperatorCarrierCode := None; q_startDate := None;
     q_endDate := None; q_limit := None; q_cursor := None;
     fromLocationCode := None; toLocationCode := None; periodDate := None;
     placeOfLoading := None; placeOfDischarge := None;
     unLocodePlaceOfLoading := None; unLocodePlaceOfDischarge := None;
     voyageCode := None; vesselIMO := None; from := None; to := None;
     portCode := None; countryCode := None; serviceCode := None;
     lineCode := None; zoneFromCode := None; zoneToCode := None;
     placeOfReceipt := None; placeOfDelivery := None; date := None |}.

(* ===================================================================== *)
(** ** adapters/carriers/cma-cgm/CMACGMAdapter.ts *)
(* ===================================================================== *)

Module CMACGMAdapter.
Section Router.

(** The result type of the sub-API adapters, and the four adapters the
    constructor stores in the router. *)
Context {T : Type}.
Variables routeAdapter proformaAdapter voyageAdapter scheduleAdapter
  : Params -> T.

(** [CMACGMAdapter.getSchedule]. *)
Definition getSchedule (params : Params) : T :=
  let placeOfLoading := placeOfLoading params in
  let placeOfDischarge := placeOfDischarge params in
  let unLocodePlaceOfLoading := unLocodePlaceOfLoading params in
  let unLocodePlaceOfDischarge := unLocodePlaceOfDischarge params in
  let voyageCode := JS.or (voyageCode params) (q_carrierVoyageNumber params) in
  let vesselIMO := JS.or (vesselIMO params) (q_vesselIMONumber params) in
  let from := JS.or (from params) (q_startDate params) in
  let to := JS.or (to params) (q_endDate params) in
  let portCode := portCode params in
  let countryCode := countryCode params in
  let serviceCode := JS.or (serviceCode params) (q_carrierServiceCode params) in
  let lineCode := lineCode params in
  let zoneFromCode := zoneFromCode params in
  let zoneToCode := zoneToCode params in
  (* Priority 1: Route API *)
  if (JS.truthy placeOfLoading || JS.truthy unLocodePlaceOfLoading)
     && (JS.truthy placeOfDischarge || JS.truthy unLocodePlaceOfDischarge)
  then routeAdapter params
  (* Priority 2: Proforma API, checked before Voyage *)
  else if JS.truthy serviceCode || JS.truthy lineCode
          || (JS.truthy zoneFromCode && JS.truthy zoneToCode)
  then proformaAdapter params
  (* Priority 3: Voyage API *)
  else if JS.truthy voyageCode || JS.truthy vesselIMO
          || (JS.truthy from && JS.truthy to)
          || JS.truthyQ portCode || JS.truthyQ countryCode
  then voyageAdapter params
  (* Priority 4: Commercial Schedule API *)
  else scheduleAdapter params.

End Router.

(** The triggers as the specification words them; "present" is the
    JavaScript notion the router tests, a non-empty value. *)
Definition present (v : option string) : Prop :=
  exists s, v = Some s /\ s <> "".

Definition presentQ (v : option JS.strOrArr) : Prop :=
  (exists s, v = Some (JS.Str s) /\ s <> "") \/ (exists l, v = Some (JS.Arr l)).

Definition routeTrigger (p : Params) : Prop :=
  (present (placeOfLoading p) \/ present (unLocodePlaceOfLoading p))
  /\ (present (placeOfDischarge p) \/ present (unLocodePlaceOfDischarge p)).

Definition proformaTrigger (p : Params) : Prop :=
  present (serviceCode p) \/ present (q_carrierServiceCode p)
  \/ present (lineCode p)
  \/ (present (zoneFromCode p) /\ present (zoneToCode p)).

Definition voyageTrigger (p : Params) : Prop :=
  present (voyageCode p) \/ present (q_carrierVoyageNumber p)
  \/ present (vesselIMO p) \/ present (q_vesselIMONumber p)
  \/ ((present (from p) \/ present (q_startDate p))
      /\ (present (to p) \/ present (q_endDate p)))
  \/ presentQ (portCode p) \/ presentQ (countryCode p).

End CMACGMAdapter.

(* ===================================================================== *)
(** ** Mapper computations: errors and the wall clock *)
(* ===================================================================== *)

(** A mapper may throw and may read [Date.now()]. The clock is given as the
    sequence of values successive reads return; a computation threads the
    number of reads made so far. *)
Definition Clock := nat -> Z.

Definition Mapper (A : Type) : Type := Clock -> nat -> string + (A * nat).

Definition mret {A} (a : A) : Mapper A := fun _ n => inr (a, n).

Definition mthrow {A} (message : string) : Mapper A := fun _ _ => inl message.

Definition mbind {A B} (m : Mapper A) (f : A -> Mapper B) : Mapper B :=
  fun clk n =>
    match m clk n with
    | inl e => inl e
    | inr (a, n') => f a clk n'
    end.

(** [Date.now()]. *)
Definition Date_now : Mapper Z := fun clk n => inr (clk n, S n).

(** Lifting of a pure result-or-error. *)
Definition mlift {A} (r : string + A) : Mapper A :=
  match r with
  | inl e => mthrow e
  | inr a => mret a
  end.

Declare Scope mapper_scope.
Delimit Scope mapper_scope with mapper.
Notation "'do' x <- m ; k" := (mbind m (fun x => k))
  (at level 10, x name, m at level 100, k at level 200) : mapper_scope.

(** A [for ... of] loop that builds one value per element. *)
Fixpoint mfor {A B} (f : A -> Mapper B) (l : list A) : Mapper (list B) :=
  match l with
  | [] => mret []
  | a :: l' => mbind (f a) (fun b => mbind (mfor f l') (fun bs => mret (b :: bs)))
  end.

(** The value a mapper returns when run from a fresh call, [inl] when it
    throws. *)
Definition runMapper {A} (m : Mapper A) (clk : Clock) : string + A :=
  match m clk 0%nat with
  | inl e => inl e
  | inr (a, _) => inr a
  end.

(** A JavaScript [Map<string, V[]>] filled with
    [if (!m.has(k)) m.set(k, []); m.get(k).push(v)]: groups in first-insertion
    order, members in arrival order. *)
Fixpoint mapPush {V} (m : list (string * list V)) (k : string) (v : V)
  : list (string * list V) :=
  match m with
  | [] => [(k, [v])]
  | (k', vs) :: m' =>
      if String.eqb k' k then (k', (vs ++ [v])%list) :: m'
      else (k', vs) :: mapPush m' k v
  end.

Definition groupBy {V} (key : V -> string) (items : list V)
  : list (string * list V) :=
  fold_left (fun m item => mapPush m (key item) item) items [].

(** [[...items].sort(compare)]: the stable sort of ECMAScript, by insertion.
    [compare a b <= 0] keeps [a] before [b]. *)
Fixpoint sortInsert {V} (compare : V -> V -> Z) (x : V) (l : list V) : list V :=
  match l with
  | [] => [x]
  | y :: l' =>
      if compare x y <=? 0 then x :: y :: l'
      else y :: sortInsert compare x l'
  end.

Definition sort {V} (compare : V -> V -> Z) (l : list V) : list V :=
  fold_right (sortInsert compare) [] l.

(* ===================================================================== *)
(** ** adapters/carriers/hmm/mappers/scheduleMapper.ts *)
(* ===================================================================== *)

Module HMMScheduleMapper.

Record HMMArrival := {
  arrivalDate : option string;
  arrivalTime : option string;
  arrivalStatusCode : option string
}.

Record HMMDeparture := {
  departureDate : option string;
  departureTime : option string;
  departureStatusCode : option string
}.

(** The fields of an item the mapper reads ([scheduleDirectionCode],
    [longTermDeparture] and [berthing] are never read). *)
Record HMMScheduleItem := {
  vvdCode : option string;
  portCode : option string;
  portName : option string;
  tmnlCode : option string;
  tmnlName : option string;
  vesselName : option string;
  arrival : option HMMArrival;
  departure : option HMMDeparture
}.

(** [resultData] is [None] when absent or not an array. *)
Record HMMScheduleResponse := {
  resultData : option (list HMMScheduleItem);
  resultCode : option string;
  resultMessage : option string
}.

(** [convertHMMDateTime]: "20210817" + "2100" -> "2021-08-17T21:00:00Z". *)
Definition convertHMMDateTime (dateStr timeStr : string) : string + string :=
  if String.eqb dateStr "" || negb (String.length dateStr =? 8)%nat then
    inl ("Invalid date format: " ++ dateStr ++ ". Expected YYYYMMDD")
  else if String.eqb timeStr "" || negb (String.length timeStr =? 4)%nat then
    inl ("Invalid time format: " ++ timeStr ++ ". Expected HHMM")
  else
    let year := JS.substring 0 4 dateStr in
    let month := JS.substring 4 6 dateStr in
    let day := JS.substring 6 8 dateStr in
    let hour := JS.substring 0 2 timeStr in
    let minute := JS.substring 2 4 timeStr in
    inr (year ++ "-" ++ month ++ "-" ++ day ++ "T" ++ hour ++ ":" ++ minute
         ++ ":00Z").

(** [mapStatusCodeToClassifier]. *)
Definition mapStatusCodeToClassifier (statusCode : option string)
  : EventClassifierCode :=
  if negb (JS.truthy statusCode) then EST
  else
    let code := JS.toUpperCase (JS.orElse statusCode "") in
    if String.eqb code "A" || String.eqb code "ACTUAL" then ACT
    else if String.eqb code "E" || String.eqb code "ESTIMATED" then EST
    else if String.eqb code "L" || String.eqb code "LONG-TERM"
            || String.eqb code "PLANNED" then PLN
    else EST.

(** The longest prefix matched by [/^([A-Z]+)/]. *)
Fixpoint upperPrefix (s : string) : string :=
  match s with
  | EmptyString => EmptyString
  | String c r =>
      let n := nat_of_ascii c in
      if ((65 <=? n) && (n <=? 90))%nat then String c (upperPrefix r)
      else EmptyString
  end.

(** [extractServiceCodeFromVVD]. *)
Definition extractServiceCodeFromVVD (vvdCode : string) : string :=
  let m := upperPrefix vvdCode in
  if negb (String.eqb m "") then m
  else JS.substring 0 (Nat.min 11 (String.length vvdCode)) vvdCode.

(** [generateTransportCallReference]: the reference ends in the clock
    reading. *)
Definition generateTransportCallReference (vvdCode portCode : string)
  : Mapper string :=
  mbind Date_now (fun now =>
  mret ("HMM-" ++ vvdCode ++ "-" ++ portCode ++ "-" ++ pretty now)).

Section Mapper.

(** [String.prototype.localeCompare] of the host. *)
Variable localeCompare : string -> string -> Z.

Local Open Scope mapper_scope.

(** The sort key of an item:
    [a.arrival?.arrivalDate || a.departure?.departureDate || '']. *)
Definition sortKey (a : HMMScheduleItem) : string :=
  JS.orElse (JS.or (arrival a ≫= arrivalDate) (departure a ≫= departureDate)) "".

(** The body of the loop over the sorted items of one vessel: the timestamps
    of the item, and its transport call unless it has no timestamp. *)
Definition mapItem (vvdCode : string) (item : HMMScheduleItem)
  : Mapper (option TransportCall) :=
  let arr := arrival item in
  do arrTs <- (if JS.truthy (arr ≫= arrivalDate) && JS.truthy (arr ≫= arrivalTime)
            then
              do dt <- mlift (convertHMMDateTime
                             (JS.orElse (arr ≫= arrivalDate) "")
                             (JS.orElse (arr ≫= arrivalTime) "")) ;
              mret [ {| eventTypeCode := ARRI;
                        eventClassifierCode :=
                          mapStatusCodeToClassifier (arr ≫= arrivalStatusCode);
                        eventDateTime := dt |} ]
            else mret []) ;
  let dep := departure item in
  do depTs <- (if JS.truthy (dep ≫= departureDate)
               && JS.truthy (dep ≫= departureTime)
            then
              do dt <- mlift (convertHMMDateTime
                             (JS.orElse (dep ≫= departureDate) "")
                             (JS.orElse (dep ≫= departureTime) "")) ;
              mret [ {| eventTypeCode := DEPA;
                        eventClassifierCode :=
                          mapStatusCodeToClassifier (dep ≫= departureStatusCode);
                        eventDateTime := dt |} ]
            else mret []) ;
  let timestamps := (arrTs ++ depTs)%list in
  match timestamps with
  | [] => mret None
  | _ =>
      do ref <- generateTransportCallReference vvdCode
               (JS.orElse (portCode item) "") ;
      mret (Some {| transportCallReference := ref;
                    portVisitReference := None;
                    carrierImportVoyageNumber := vvdCode;
                    carrierExportVoyageNumber := Some vvdCode;
                    universalImportVoyageReference := None;
                    universalExportVoyageReference := None;
                    location := {| UNLocationCode := portCode item;
                                   locationName := portName item;
                                   address := None;
                                   facilitySMDGCode := tmnlCode item |};
                    timestamps := timestamps;
                    cutOffTimes := None |})
  end.

(** The body of the loop over the vessels of one voyage. *)
Definition mapVessel (vvdCode : string)
    (entry : string * list HMMScheduleItem) : Mapper VesselSchedule :=
  let '(vesselName, vesselItems) := entry in
  let sortedItems :=
    sort (fun a b => localeCompare (sortKey a) (sortKey b)) vesselItems in
  do calls <- mfor (mapItem vvdCode) sortedItems ;
  let transportCalls := omap id calls in
  mret {| isDummyVessel := String.eqb vesselName "UNKNOWN";
          vessel := if negb (String.eqb vesselName "UNKNOWN")
                    then Some {| vesselIMONumber := "0000000";
                                 name := Some vesselName;
                                 flag := None; callSign := None;
                                 MMSINumber := None;
                                 operatorCarrierCode := None;
                                 operatorCarrierCodeListProvider := None |}
                    else None;
          transportCalls := match transportCalls with
                            | [] => None
                            | _ => Some transportCalls
                            end |}.

(** The body of the loop over the voyages. *)
Definition mapVoyage (carrierServiceCode : option string)
    (entry : string * list HMMScheduleItem) : Mapper ServiceSchedule :=
  let '(vvdCode, items) := entry in
  let serviceCode :=
    JS.orElse carrierServiceCode (extractServiceCodeFromVVD vvdCode) in
  let vesselMap :=
    groupBy (fun item => JS.orElse (vesselName item) "UNKNOWN") items in
  do vesselSchedules <- mfor (mapVessel vvdCode) vesselMap ;
  mret {| carrierServiceCode := serviceCode;
          carrierServiceName := serviceCode;
          universalServiceReference := None;
          vesselSchedules := vesselSchedules |}.

(** [mapHMMScheduleToDCSA]. *)
Definition mapHMMScheduleToDCSA (hmmResponse : HMMScheduleResponse)
    (carrierServiceCode : option string) : Mapper (list ServiceSchedule) :=
  match resultData hmmResponse with
  | None | Some [] => mret []
  | Some items =>
      let voyageMap :=
        groupBy (fun item => JS.orElse (vvdCode item) "UNKNOWN") items in
      mfor (mapVoyage carrierServiceCode) voyageMap
  end.

End Mapper.

End HMMScheduleMapper.

(* ===================================================================== *)
(** ** adapters/carriers/hmm/mappers/ptpScheduleMapper.ts *)
(* ===================================================================== *)

Module HMMPTPScheduleMapper.

Section DateBuiltins.

(** [new Date(s).getTime()] of the host, [None] for [NaN], and
    [Date.prototype.toISOString]. *)
Variable Date_parse : string -> option Z.
Variable Date_toISOString : Z -> string.

(** [normalizeDateTime]. *)
Definition normalizeDateTime (dateTime : string) : string + string :=
  if String.eqb dateTime "" then inl "Invalid datetime string"
  else if JS.includes "T" dateTime then
    inr (if JS.endsWith "Z" dateTime then dateTime else dateTime ++ "Z")
  else
    match Date_parse dateTime with
    | None => inl ("Invalid datetime format: " ++ dateTime)
    | Some t => inr (Date_toISOString t)
    end.

End DateBuiltins.

(** [generateTransportCallReference] of the point-to-point mapper. *)
Definition generateTransportCallReference (routeMapNo portCode type : string)
  : Mapper string :=
  mbind Date_now (fun now =>
  mret ("HMM-PTP-" ++ routeMapNo ++ "-" ++ portCode ++ "-" ++ type ++ "-"
        ++ pretty now)).

(** The fields of a vessel of a point-to-point item the mapper reads. *)
Record HMMPTPVessel := {
  vesselName : option string;
  vesselCode : option string;
  voyageNumber : option string;
  vesselLoop : option string;
  dischargePort : option string;
  vesselDepartureDate : option string;
  vesselArrivalDate : option string
}.

(** The fields of an item the mapper reads; [item_vessel] is the array
    [vessel]. *)
Record HMMPTPScheduleItem := {
  globaRouteMapNo : option string;
  loadingPortName : option string;
  loadingPortCode : option string;
  loadingTerminalCode : option string;
  vesselOperatorName : option string;
  departureDate : option string;
  transshipPortName : option string;
  transshipPortCode : option string;
  transshipTerminalCode : option string;
  arrivalDate : option string;
  dischargePortName : option string;
  dischargePortCode : option string;
  dischargeTerminalCode : option string;
  item_vessel : option (list HMMPTPVessel)
}.

(** [resultData] is [None] when absent or not an array. *)
Record HMMPTPScheduleResponse := {
  resultData : option (list HMMPTPScheduleItem);
  resultCode : option string;
  resultMessage : option string
}.

(** [extractVoyageNumber(vessels, index)], [index] counted from 1. *)
Definition extractVoyageNumber (vessels : option (list HMMPTPVessel))
    (index : nat) : string :=
  match vessels with
  | None | Some [] => ""
  | Some vs =>
      let vessel := nth_error vs (index - 1) in
      JS.orElse (JS.or (vessel ≫= voyageNumber) (vessel ≫= vesselCode)) ""
  end.

Section PTPMapper.

Variable Date_parse : string -> option Z.
Variable Date_toISOString : Z -> string.

Local Open Scope mapper_scope.

Local Abbreviation normalize :=
  (fun dateTime : option string =>
     mlift (normalizeDateTime Date_parse Date_toISOString (JS.orElse dateTime ""))).

(** One timestamp of the transshipment call, when the vessel found carries
    the date. *)
Definition transshipTimestamp (code : EventTypeCode) (date : option string)
  : Mapper (list Timestamp) :=
  if JS.truthy date
  then do dt <- normalize date ;
       mret [ {| eventTypeCode := code; eventClassifierCode := EST;
                 eventDateTime := dt |} ]
  else mret [].

(** The transport call of a port of the item. *)
Definition portCall (item : HMMPTPScheduleItem) (portCode portName
    terminalCode : option string) (type : string) (index : nat)
    (timestamps : list Timestamp) : Mapper TransportCall :=
  do ref <- generateTransportCallReference
              (JS.orElse (globaRouteMapNo item) "") (JS.orElse portCode "") type ;
  mret {| transportCallReference := ref;
          portVisitReference := None;
          carrierImportVoyageNumber := extractVoyageNumber (item_vessel item) index;
          carrierExportVoyageNumber :=
            Some (extractVoyageNumber (item_vessel item) index);
          universalImportVoyageReference := None;
          universalExportVoyageReference := None;
          location := {| UNLocationCode := portCode;
                         locationName := portName;
                         address := None;
                         facilitySMDGCode := terminalCode |};
          timestamps := timestamps;
          cutOffTimes := None |}.

(** The transport calls of an item: loading port, transshipment port,
    discharge port. *)
Definition loadingCalls (item : HMMPTPScheduleItem) : Mapper (list TransportCall) :=
  if JS.truthy (loadingPortCode item) && JS.truthy (departureDate item) then
    do dt <- normalize (departureDate item) ;
    do call <- portCall item (loadingPortCode item) (loadingPortName item)
                 (loadingTerminalCode item) "LOADING" 1
                 [ {| eventTypeCode := DEPA; eventClassifierCode := EST;
                      eventDateTime := dt |} ] ;
    mret [call]
  else mret [].

Definition transshipCalls (item : HMMPTPScheduleItem)
  : Mapper (list TransportCall) :=
  if JS.truthy (transshipPortCode item)
     && negb (bool_decide (transshipPortCode item = loadingPortCode item))
     && negb (bool_decide (transshipPortCode item = dischargePortCode item))
  then
    let transshipVessel :=
      item_vessel item ≫=
        List.find (fun v => match dischargePort v with
                            | Some p => JS.includes
                                          (JS.orElse (transshipPortName item) "") p
                            | None => false
                            end) in
    do arr <- transshipTimestamp ARRI (transshipVessel ≫= vesselArrivalDate) ;
    do dep <- transshipTimestamp DEPA (transshipVessel ≫= vesselDepartureDate) ;
    match (arr ++ dep)%list with
    | [] => mret []
    | transshipTimestamps =>
        do call <- portCall item (transshipPortCode item) (transshipPortName item)
                     (transshipTerminalCode item) "TRANSSHIP" 2
                     transshipTimestamps ;
        mret [call]
    end
  else mret [].

Definition dischargeCalls (item : HMMPTPScheduleItem)
  : Mapper (list TransportCall) :=
  if JS.truthy (dischargePortCode item) && JS.truthy (arrivalDate item) then
    do dt <- normalize (arrivalDate item) ;
    do call <- portCall item (dischargePortCode item) (dischargePortName item)
                 (dischargeTerminalCode item) "DISCHARGE"
                 (match item_vessel item with
                  | Some (v :: vs) => length (v :: vs)
                  | _ => 1%nat
                  end)
                 [ {| eventTypeCode := ARRI; eventClassifierCode := EST;
                      eventDateTime := dt |} ] ;
    mret [call]
  else mret [].

(** The body of the loop over the items. The vessel map of an item holds
    one entry, so the item gives one vessel schedule. *)
Definition mapItem (item : HMMPTPScheduleItem) : Mapper ServiceSchedule :=
  do loading <- loadingCalls item ;
  do transship <- transshipCalls item ;
  do discharge <- dischargeCalls item ;
  let transportCalls := (loading ++ transship ++ discharge)%list in
  let firstLoop :=
    match item_vessel item with
    | Some (v :: _) => vesselLoop v
    | _ => None
    end in
  let serviceCode :=
    JS.orElse (JS.or firstLoop (vesselOperatorName item)) "UNKNOWN" in
  let vessels := default [] (item_vessel item) in
  let joined :=
    JS.join ", " (omap (fun v => if JS.truthy (vesselName v) then vesselName v
                                 else None) vessels) in
  let vesselNames := if String.eqb joined "" then "UNKNOWN" else joined in
  mret {| carrierServiceCode := serviceCode;
          carrierServiceName := JS.orElse (vesselOperatorName item) serviceCode;
          universalServiceReference := None;
          vesselSchedules :=
            [ Build_VesselSchedule
                (* vessel *)
                (if negb (String.eqb vesselNames "UNKNOWN")
                 then Some (Build_Vessel "0000000" (Some vesselNames)
                              None None None None None)
                 else None)
                (* isDummyVessel *)
                (String.eqb vesselNames "UNKNOWN")
                (* transportCalls *)
                (match transportCalls with
                 | [] => None
                 | _ => Some transportCalls
                 end) ] |}.

(** [mapHMMPTPScheduleToDCSA]; the two location codes are not used. *)
Definition mapHMMPTPScheduleToDCSA (hmmResponse : HMMPTPScheduleResponse)
    (_fromLocationCode _toLocationCode : string) : Mapper (list ServiceSchedule) :=
  match resultData hmmResponse with
  | None | Some [] => mret []
  | Some items => mfor mapItem items
  end.

End PTPMapper.

End HMMPTPScheduleMapper.

(* ===================================================================== *)
(** ** adapters/carriers/zim/mappers/scheduleMapper.ts *)
(* ===================================================================== *)

Module ZIMScheduleMapper.

(** The fields of a leg the mapper reads. *)
Record ZIMRouteLeg := {
  legOrder : option Z;
  line : option string;
  departurePort : option string;
  departurePortName : option string;
  arrivalPort : option string;
  arrivalPortName : option string;
  departureDate : option string;
  arrivalDate : option string;
  vesselName : option string;
  vesselCode : option string;
  lloydsCode : option string;
  callSign : option string;
  voyage : option string;
  consortSailingNumber : option string;
  docClosingDate : option string;
  containerClosingDate : option string;
  vgmClosingDate : option string
}.

(** A route, for the fields the mapper reads. [routeLegs] holds an array of
    its declared type, or [None] when absent: the mapper tests its
    truthiness and its length, not that it is an array, and a value of
    another type, on which its [for...of] throws, is not a value of this
    model. *)
Record ZIMRoute := {
  route_departurePort : option string;
  route_arrivalPort : option string;
  routeLegs : option (list ZIMRouteLeg)
}.

(** [response.routes], [None] when absent or not an array. *)
Record ZIMScheduleResponse := {
  routes : option (list ZIMRoute)
}.

(** [extractServiceCode]. *)
Definition extractServiceCode (route : ZIMRoute) : string :=
  let fallback :=
    "ZIM-" ++ JS.orElse (route_departurePort route) "UNKNOWN" ++ "-"
    ++ JS.orElse (route_arrivalPort route) "UNKNOWN" in
  match routeLegs route with
  | Some (leg0 :: _) =>
      if JS.truthy (line leg0) then JS.orElse (line leg0) "" else fallback
  | _ => fallback
  end.

(** [generateTransportCallReference]: the clock is read only when the joined
    parts are empty. *)
Definition generateTransportCallReference (leg : ZIMRouteLeg) : Mapper string :=
  let parts :=
    filter (fun p => p <> "")
      [ "ZIM";
        JS.orElse (departurePort leg) "";
        JS.orElse (arrivalPort leg) "";
        JS.orElse (JS.or (voyage leg) (consortSailingNumber leg)) "";
        JS.orElse (JS.or (lloydsCode leg) (vesselCode leg)) "" ] in
  let joined := JS.join "-" parts in
  if negb (String.eqb joined "") then mret joined
  else mbind Date_now (fun now => mret ("ZIM-" ++ pretty now)).

Local Open Scope mapper_scope.

(** A cut-off entry when the closing date is present. *)
Definition cutOff (code : string) (d : option string) : list CutOffTime :=
  if JS.truthy d
  then [ {| cutOffDateTimeCode := code; cutOffDateTime := JS.orElse d "" |} ]
  else [].

(** The body of the loop over the sorted legs of one vessel. *)
Definition mapLeg (leg : ZIMRouteLeg) : Mapper (option TransportCall) :=
  let arrTs :=
    if JS.truthy (arrivalDate leg)
    then [ {| eventTypeCode := ARRI; eventClassifierCode := EST;
              eventDateTime := JS.orElse (arrivalDate leg) "" |} ]
    else [] in
  let depTs :=
    if JS.truthy (departureDate leg)
    then [ {| eventTypeCode := DEPA; eventClassifierCode := EST;
              eventDateTime := JS.orElse (departureDate leg) "" |} ]
    else [] in
  let timestamps := (arrTs ++ depTs)%list in
  match timestamps with
  | [] => mret None
  | _ =>
      let cutOffTimes :=
        (cutOff "DCO" (docClosingDate leg)
         ++ cutOff "FCO" (containerClosingDate leg)
         ++ cutOff "VCO" (vgmClosingDate leg))%list in
      do ref <- generateTransportCallReference leg ;
      mret (Some {| transportCallReference := ref;
                    portVisitReference := None;
                    carrierImportVoyageNumber :=
                      JS.orElse (JS.or (voyage leg) (consortSailingNumber leg)) "";
                    carrierExportVoyageNumber :=
                      Some (JS.orElse (JS.or (voyage leg)
                                         (consortSailingNumber leg)) "");
                    universalImportVoyageReference := None;
                    universalExportVoyageReference := None;
                    location :=
                      {| UNLocationCode := JS.or (arrivalPort leg) (departurePort leg);
                         locationName :=
                           JS.or (arrivalPortName leg) (departurePortName leg);
                         address := None;
                         facilitySMDGCode := None |};
                    timestamps := timestamps;
                    cutOffTimes := match cutOffTimes with
                                   | [] => None
                                   | _ => Some cutOffTimes
                                   end |})
  end.

(** [a.legOrder || 0]. *)
Definition legOrderOr0 (leg : ZIMRouteLeg) : Z :=
  match legOrder leg with
  | Some n => n
  | None => 0
  end.

(** The body of the loop over the vessels of one route. *)
Definition mapVessel (entry : string * list ZIMRouteLeg) : Mapper VesselSchedule :=
  let '(_, legs) := entry in
  let sortedLegs := sort (fun a b => legOrderOr0 a - legOrderOr0 b) legs in
  do calls <- mfor mapLeg sortedLegs ;
  let transportCalls := omap id calls in
  match sortedLegs with
  | [] => mthrow "TypeError: Cannot read properties of undefined"
  | firstLeg :: _ =>
      let named :=
        JS.truthy (vesselName firstLeg)
        && negb (String.eqb (JS.orElse (vesselName firstLeg) "") "UNKNOWN") in
      mret {| isDummyVessel := negb named;
              vessel := if named
                        then Some (Build_Vessel
                                     (* vesselIMONumber *)
                                     (JS.orElse (lloydsCode firstLeg) "")
                                     (* name *)
                                     (vesselName firstLeg)
                                     (* flag *) None
                                     (* callSign *)
                                     (callSign firstLeg)
                                     (* MMSINumber, operatorCarrierCode,
                                        operatorCarrierCodeListProvider *)
                                     None None None)
                        else None;
              transportCalls := match transportCalls with
                                | [] => None
                                | _ => Some transportCalls
                                end |}
  end.

(** The vessel key of a leg. *)
Definition vesselKey (leg : ZIMRouteLeg) : string :=
  JS.orElse (vesselName leg) "UNKNOWN" ++ "-"
  ++ JS.orElse (JS.or (lloydsCode leg) (vesselCode leg)) "".

(** The body of the loop over the routes of one service: the vessel
    schedules the route contributes. *)
Definition mapRoute (route : ZIMRoute) : Mapper (list VesselSchedule) :=
  match routeLegs route with
  | None | Some [] => mret []
  | Some legs => mfor mapVessel (groupBy vesselKey legs)
  end.

(** The body of the loop over the services. *)
Definition mapService (entry : string * list ZIMRoute) : Mapper ServiceSchedule :=
  let '(serviceCode, routes) := entry in
  do perRoute <- mfor mapRoute routes ;
  mret {| carrierServiceCode := serviceCode;
          carrierServiceName := serviceCode;
          universalServiceReference := None;
          vesselSchedules := concat perRoute |}.

(** [mapZIMScheduleToDCSA]. *)
Definition mapZIMScheduleToDCSA (zimResponse : ZIMScheduleResponse)
  : Mapper (list ServiceSchedule) :=
  match routes zimResponse with
  | None | Some [] => mret []
  | Some rs => mfor mapService (groupBy extractServiceCode rs)
  end.

End ZIMScheduleMapper.

(* ===================================================================== *)
(** ** infrastructure/config/ConfigLoader.ts: CarrierConfig *)
(* ===================================================================== *)

Record ApiConfig := {
  endpoint : string;
  version : string
}.

Record Apis := {
  schedule : option ApiConfig;
  portSchedule : option ApiConfig;
  ptpSchedule : option ApiConfig;
  proforma : option ApiConfig;
  voyage : option ApiConfig;
  route : option ApiConfig;
  pointToPoint : option ApiConfig;
  tracking : option ApiConfig
}.

(** [auth.type] is ['oauth2' | 'apikey'] in the declaration; a JSON file may
    hold any other string. *)
Inductive AuthType := oauth2 | apikey | otherAuth.

(** The per-endpoint tables are objects indexed by the endpoint type. *)
Record AuthConfig := {
  type : AuthType;
  tokenUrl : option string;
  scopes : option (list string);
  headerName : option string;
  headerNames : option (gmap string string);
  apiKeys : option (gmap string string);
  primaryKeys : option (gmap string string);
  secondaryKeys : option (gmap string string)
}.

Record CarrierConfig := {
  apis : Apis;
  auth : AuthConfig
}.

(** [this.config.apis.X?.endpoint], with its truthiness test. *)
Definition endpointOf (api : option ApiConfig) : option string :=
  match api with
  | Some a => if String.eqb (endpoint a) "" then None else Some (endpoint a)
  | None => None
  end.

(** [s.split(sep)[0]] for a one-character separator. *)
Fixpoint splitHead (sep : ascii) (s : string) : string :=
  match s with
  | EmptyString => EmptyString
  | String c r => if Ascii.eqb c sep then EmptyString else String c (splitHead sep r)
  end.

(** [if (v) queryParams[k] = v]. *)
Definition setIf (k : string) (v : option string) (m : gmap string string)
  : gmap string string :=
  match v with
  | Some s => if String.eqb s "" then m else <[k := s]> m
  | None => m
  end.

(** The message of the error an adapter throws from its [catch] block. *)
Definition rethrow {R A} (api : string) (response : option ErrorResponse)
    (message : string) : Prog R A :=
  match response with
  | Some r =>
      Throw (api ++ " API error: " ++ pretty (er_status r) ++ " "
             ++ er_statusText r ++ " - " ++ ed_json (er_data r))
  | None => Throw message
  end.

(** The same for the HMM adapters, which first look for [data.errors]. *)
Definition rethrowHMM {R A} (api : string) (response : option ErrorResponse)
    (message : string) : Prog R A :=
  match response with
  | Some r =>
      match ed_errors (er_data r) with
      | Some (reason, msg) =>
          Throw (api ++ " API error: "
                 ++ JS.orElse (ed_statusCode (er_data r)) (pretty (er_status r))
                 ++ " "
                 ++ JS.orElse (ed_statusCodeText (er_data r)) (er_statusText r)
                 ++ " - " ++ JS.orElse reason "Unknown error" ++ ": "
                 ++ JS.orElse msg "")
      | None => rethrow api response message
      end
  | None => Throw message
  end.

(* ===================================================================== *)
(** ** adapters/carriers/hmm/HMMScheduleAdapter.ts *)
(* ===================================================================== *)

Module HMMScheduleAdapter.
Section Adapter.

Variable localeCompare : string -> string -> Z.
Variable clock : Clock.
Variable config : CarrierConfig.

(** [HMMScheduleAdapter.getSchedule]. *)
Definition getSchedule (params : Params)
  : Prog HMMScheduleMapper.HMMScheduleResponse (list ServiceSchedule) :=
  match endpointOf (schedule (apis config)) with
  | None => Throw "Schedule API endpoint not configured for HMM"
  | Some endpoint =>
      if negb (JS.truthy (q_carrierVoyageNumber params)) then
        Throw "HMM Schedule API requires carrierVoyageNumber (vvdCode) parameter"
      else
        let requestBody : gmap string string :=
          {[ "vvdCode" := JS.orElse (q_carrierVoyageNumber params) "" ]} in
        let queryParams : gmap string string :=
          setIf "vvdCode" (q_carrierVoyageNumber params) ∅ in
        Http {| rq_method := POST; rq_url := endpoint;
                rq_params := queryParams; rq_headers := ∅;
                rq_body := requestBody |}
          (fun outcome =>
             match outcome with
             | Response response =>
                 let resultCode := HMMScheduleMapper.resultCode response in
                 if JS.truthy resultCode
                    && negb (String.eqb (JS.orElse resultCode "") "Success")
                 then
                   Throw ("HMM Schedule API error: " ++ JS.orElse resultCode ""
                          ++ " - "
                          ++ JS.orElse (HMMScheduleMapper.resultMessage response)
                               "Unknown error")
                 else
                   match runMapper
                           (HMMScheduleMapper.mapHMMScheduleToDCSA localeCompare
                              response (q_carrierServiceCode params)) clock with
                   | inl e => Throw e
                   | inr schedules => Ret schedules
                   end
             | Failure response message =>
                 rethrowHMM "HMM Schedule" response message
             end)
  end.

End Adapter.
End HMMScheduleAdapter.

(* ===================================================================== *)
(** ** adapters/carriers/hmm/HMMAdapter.ts *)
(* ===================================================================== *)

Module HMMAdapter.
Section Router.

Context {T : Type}.
Variables scheduleAdapter portScheduleAdapter ptpScheduleAdapter : Params -> T.

(** [HMMAdapter.getSchedule]. *)
Definition getSchedule (params : Params) : T :=
  let fromLocationCode := fromLocationCode params in
  let toLocationCode := toLocationCode params in
  let periodDate := periodDate params in
  if JS.truthy (q_carrierVoyageNumber params) then
    scheduleAdapter params
  else if JS.truthy fromLocationCode && JS.truthy toLocationCode
          && JS.truthy periodDate then
    ptpScheduleAdapter params
  else if JS.truthy (q_UNLocationCode params) && JS.truthy (q_startDate params)
          && JS.truthy (q_endDate params) then
    portScheduleAdapter params
  else
    scheduleAdapter params.

End Router.
End HMMAdapter.

(* ===================================================================== *)
(** ** adapters/carriers/zim/ZIMScheduleAdapter.ts, ZIMAdapter.ts *)
(* ===================================================================== *)

Module ZIMScheduleAdapter.
Section Adapter.

Variable clock : Clock.
Variable config : CarrierConfig.

(** [ZIMScheduleAdapter.getSchedule]. Origin and destination are never
    read: the only guard is on [UNLocationCode]. *)
Definition getSchedule (params : Params)
  : Prog ZIMScheduleMapper.ZIMScheduleResponse (list ServiceSchedule) :=
  match endpointOf (schedule (apis config)) with
  | None => Throw "Schedule API endpoint not configured for ZIM"
  | Some endpoint =>
      if JS.truthy (q_UNLocationCode params) then
        Throw ("ZIM Schedule API requires both origin and destination locations. "
               ++ "Please provide originCode and destCode via extended query parameters.")
      else
        let queryParams : gmap string string :=
          <[ "sortByDepartureOrArrival" := "Departure" ]>
            (setIf "toDate" (q_endDate params)
               (setIf "fromDate" (q_startDate params) ∅)) in
        Http {| rq_method := GET; rq_url := endpoint;
                rq_params := queryParams; rq_headers := ∅; rq_body := ∅ |}
          (fun outcome =>
             match outcome with
             | Response response =>
                 match runMapper
                         (ZIMScheduleMapper.mapZIMScheduleToDCSA response)
                         clock with
                 | inl e => Throw e
                 | inr schedules => Ret schedules
                 end
             | Failure response message =>
                 rethrow "ZIM Schedule" response message
             end)
  end.

End Adapter.
End ZIMScheduleAdapter.

Module ZIMAdapter.

(** [ZIMAdapter.getSchedule]: the router has one schedule adapter. *)
Definition getSchedule {T} (scheduleAdapter : Params -> T) (params : Params) : T :=
  scheduleAdapter params.

End ZIMAdapter.

(* ===================================================================== *)
(** ** adapters/carriers/maersk/MaerskScheduleAdapter.ts *)
(* ===================================================================== *)

Module MaerskScheduleAdapter.

Definition msPerDay : Z := 86400000.

Section Adapter.

(** The [Date] built-ins of the host: [new Date(s).getTime()] ([None] for
    [NaN]), [toISOString], the current instant, and the offset of the host's
    local time from UTC in milliseconds (a zone without daylight saving).
    Instants are milliseconds since the epoch. *)
Variable Date_parse : string -> option Z.
Variable Date_toISOString : Z -> string.
Variable now : Z.
Variable tz : Z.

Variable config : CarrierConfig.

(** [d.setHours(0, 0, 0, 0)]: midnight of the local day of [d]. *)
Definition setHours0 (d : Z) : Z := (d + tz) / msPerDay * msPerDay - tz.

(** [d.setDate(d.getDate() + n)]. *)
Definition addDays (d n : Z) : Z := d + n * msPerDay.

(** [d.toISOString().split('T')[0]]. *)
Definition isoDay (d : Z) : string := splitHead "T"%char (Date_toISOString d).

(** The guard on one date parameter; [Some message] when it throws. An
    invalid date compares false with everything. *)
Definition dateGuard (label : string) (param : option string) : option string :=
  if JS.truthy param then
    let today := setHours0 now in
    let date := option_map setHours0 (Date_parse (JS.orElse param "")) in
    let minDate := addDays today (-90) in
    let maxDate := addDays today 180 in
    match date with
    | Some d =>
        if (d <? minDate) || (d >? maxDate) then
          Some ("Maersk Vessel Schedule API: " ++ label
                ++ " must be within 90 days past and 180 days future from today. "
                ++ "Received: " ++ JS.orElse param "" ++ ", Valid range: "
                ++ isoDay minDate ++ " to " ++ isoDay maxDate)
        else None
    | None => None
    end
  else None.

(** [MaerskScheduleAdapter.getSchedule]. *)
Definition getSchedule (params : Params)
  : Prog (list ServiceSchedule) (list ServiceSchedule) :=
  match endpointOf (schedule (apis config)) with
  | None => Throw "Schedule API endpoint not configured for Maersk"
  | Some endpoint =>
      match dateGuard "Start Date" (q_startDate params) with
      | Some message => Throw message
      | None =>
      match dateGuard "End Date" (q_endDate params) with
      | Some message => Throw message
      | None =>
          let queryParams : gmap string string :=
            setIf "cursor" (q_cursor params)
            (setIf "limit" (if JS.truthyN (q_limit params)
                            then option_map pretty (q_limit params) else None)
            (setIf "endDate" (q_endDate params)
            (setIf "startDate" (q_startDate params)
            (setIf "vesselOperatorCarrierCode" (q_vesselOperatorCarrierCode params)
            (setIf "facilitySMDGCode" (q_facilitySMDGCode params)
            (setIf "UNLocationCode" (q_UNLocationCode params)
            (setIf "universalVoyageReference" (q_universalVoyageReference params)
            (setIf "carrierVoyageNumber" (q_carrierVoyageNumber params)
            (setIf "universalServiceReference" (q_universalServiceReference params)
            (setIf "carrierServiceCode" (q_carrierServiceCode params)
            (setIf "vesselName" (q_vesselName params)
            (setIf "vesselIMONumber" (q_vesselIMONumber params) ∅)))))))))))) in
          let headers : gmap string string :=
            match schedule (apis config) with
            | Some a =>
                if String.eqb (version a) "" then ∅
                else {[ "API-Version" := splitHead "."%char (version a) ]}
            | None => ∅
            end in
          Http {| rq_method := GET; rq_url := endpoint;
                  rq_params := queryParams; rq_headers := headers;
                  rq_body := ∅ |}
            (fun outcome =>
               match outcome with
               | Response response => Ret response
               | Failure response message =>
                   rethrow "Maersk Schedule" response message
               end)
      end
      end
  end.

End Adapter.
End MaerskScheduleAdapter.

(* ===================================================================== *)
(** ** adapters/http/AuthManager.ts *)
(* ===================================================================== *)

(** Sequencing of asynchronous computations ([await]). *)
Fixpoint pbind {R A B} (p : Prog R A) (f : A -> Prog R B) : Prog R B :=
  match p with
  | Ret a => f a
  | Throw m => Throw m
  | Http req k => Http req (fun o => pbind (k o) f)
  end.

Module AuthManager.

Record OAuth2Token := {
  access_token : string;
  token_type : option string;
  expires_in : Z
}.

Record TokenCache := {
  token : string;
  expiresAt : Z;
  tokenType : string
}.

Section Manager.

(** [process.env], and the successive readings of [Date.now()]. *)
Variable env : gmap string string.
Variable clock : Clock.

(** [getEnvVar]. *)
Definition getEnvVar (key : string) : option string := env !! key.

(** [endpointType && table?.[endpointType]]: the entry when both are
    truthy. *)
Definition entryFor (table : option (gmap string string))
    (endpointType : option string) : option string :=
  match endpointType, table with
  | Some e, Some t =>
      if String.eqb e "" then None
      else match t !! e with
           | Some v => if String.eqb v "" then None else Some v
           | None => None
           end
  | _, _ => None
  end.

(** The value of an environment variable when it is set and non-empty. *)
Definition envValue (name : string) : option string :=
  match getEnvVar name with
  | Some v => if String.eqb v "" then None else Some v
  | None => None
  end.

(** [getApiKey]: the key, or the message of the error thrown. *)
Definition getApiKey (carrierCode : string) (config : CarrierConfig)
    (endpointType : option string) : string + string :=
  let a := auth config in
  let tryEnv (name : option string) : option string :=
    match name with
    | Some n => envValue n
    | None => None
    end in
  match tryEnv (entryFor (primaryKeys a) endpointType) with
  | Some primaryKey => inr primaryKey
  | None =>
  match tryEnv (entryFor (secondaryKeys a) endpointType) with
  | Some secondaryKey => inr secondaryKey
  | None =>
  match tryEnv (entryFor (apiKeys a) endpointType) with
  | Some apiKey => inr apiKey
  | None =>
  match envValue (carrierCode ++ "_API_KEY") with
  | Some defaultApiKey => inr defaultApiKey
  | None =>
      let errorMessages :=
        if JS.truthy endpointType then
          app (match entryFor (primaryKeys a) endpointType with
               | Some n => [n ++ " (Primary Key)"]
               | None => []
               end)
         (app (match entryFor (secondaryKeys a) endpointType with
               | Some n => [n ++ " (Secondary Key)"]
               | None => []
               end)
              (match entryFor (apiKeys a) endpointType with
               | Some n => [n]
               | None => []
               end))
        else [] in
      match errorMessages with
      | _ :: _ =>
          inl ("API Key not found for carrier: " ++ carrierCode ++ ", endpoint: "
               ++ JS.orElse endpointType "" ++ ". "
               ++ "Please set one of: " ++ JS.join ", " errorMessages)
      | [] =>
          inl ("API Key not found for carrier: " ++ carrierCode ++ ". "
               ++ "Please set " ++ carrierCode ++ "_API_KEY environment variable.")
      end
  end end end end.

(** [getOAuth2Token]: the token and the token cache after the call. The
    validity test reads the clock when an entry is cached; the clock is read
    once more when the grant is answered. *)
Definition getOAuth2Token (tokenCache : gmap string TokenCache)
    (carrierCode : string) (config : CarrierConfig)
  : Prog OAuth2Token (TokenCache * gmap string TokenCache) :=
  let cacheKey := carrierCode ++ "_oauth2" in
  let cached := tokenCache !! cacheKey in
  let valid :=
    match cached with
    | Some c => if expiresAt c >? clock 0%nat + 5 * 60 * 1000 then Some c else None
    | None => None
    end in
  let reads := match cached with Some _ => 1%nat | None => 0%nat end in
  match valid with
  | Some c => Ret (c, tokenCache)
  | None =>
      let clientId := JS.or (getEnvVar (carrierCode ++ "_CLIENT_ID"))
                            (getEnvVar (carrierCode ++ "_CONSUMER_KEY")) in
      let clientSecret := JS.or (getEnvVar (carrierCode ++ "_CLIENT_SECRET"))
                                (getEnvVar (carrierCode ++ "_SECRET_KEY")) in
      if negb (JS.truthy clientId) || negb (JS.truthy clientSecret) then
        Throw (if String.eqb carrierCode "MAERSK"
               then "OAuth2 credentials not found for carrier: " ++ carrierCode
                    ++ ". Please set " ++ carrierCode ++ "_CONSUMER_KEY and "
                    ++ carrierCode ++ "_SECRET_KEY (or " ++ carrierCode
                    ++ "_CLIENT_ID and " ++ carrierCode
                    ++ "_CLIENT_SECRET) environment variables."
               else "OAuth2 credentials not found for carrier: " ++ carrierCode
                    ++ ". Please set " ++ carrierCode ++ "_CLIENT_ID and "
                    ++ carrierCode ++ "_CLIENT_SECRET environment variables.")
      else if negb (JS.truthy (tokenUrl (auth config))) then
        Throw ("OAuth2 token URL not configured for carrier: " ++ carrierCode)
      else
        let scope := JS.join " " (default [] (scopes (auth config))) in
        Http {| rq_method := POST;
                rq_url := JS.orElse (tokenUrl (auth config)) "";
                rq_params := ∅;
                rq_headers :=
                  {[ "Content-Type" := "application/x-www-form-urlencoded" ]};
                rq_body :=
                  <[ "grant_type" := "client_credentials" ]>
                  (<[ "client_id" := JS.orElse clientId "" ]>
                  (<[ "client_secret" := JS.orElse clientSecret "" ]>
                  {[ "scope" := scope ]})) |}
          (fun outcome =>
             match outcome with
             | Response tokenData =>
                 let tc :=
                   {| token := access_token tokenData;
                      tokenType := JS.orElse (token_type tokenData) "Bearer";
                      expiresAt := clock reads + expires_in tokenData * 1000 |} in
                 Ret (tc, <[ cacheKey := tc ]> tokenCache)
             | Failure response _ =>
                 Throw ("Failed to obtain OAuth2 token for " ++ carrierCode ++ ": "
                        ++ match response with
                           | Some r => pretty (er_status r) ++ " " ++ er_statusText r
                                       ++ " - " ++ ed_json (er_data r)
                           | None => "undefined undefined - undefined"
                           end)
             end)
  end.

(** The environment variable of the supplementary API key of an OAuth2
    carrier:
    [endpointType && apiKeys[endpointType] ? apiKeys[endpointType]
     : apiKeys.schedule || apiKeys.tracking]. *)
Definition supplementaryEnvVar (keys : gmap string string)
    (endpointType : option string) : option string :=
  match entryFor (Some keys) endpointType with
  | Some v => Some v
  | None => JS.or (keys !! "schedule") (keys !! "tracking")
  end.

(** The headers of an OAuth2 carrier once the token is known. *)
Definition oauth2Headers (config : CarrierConfig) (endpointType : option string)
    (t : TokenCache) : gmap string string :=
  let headers : gmap string string :=
    {[ "Authorization" := tokenType t ++ " " ++ token t ]} in
  match JS.truthy (headerName (auth config)), apiKeys (auth config) with
  | true, Some keys =>
      let apiKeyEnvVar := supplementaryEnvVar keys endpointType in
      if JS.truthy apiKeyEnvVar then
        match envValue (JS.orElse apiKeyEnvVar "") with
        | Some apiKey => <[ JS.orElse (headerName (auth config)) "" := apiKey ]> headers
        | None => headers
        end
      else headers
  | _, _ => headers
  end.

(** [getAuthHeaders]: the headers and the token cache after the call. *)
Definition getAuthHeaders (tokenCache : gmap string TokenCache)
    (carrierCode : string) (config : CarrierConfig) (endpointType : option string)
  : Prog OAuth2Token (gmap string string * gmap string TokenCache) :=
  match type (auth config) with
  | oauth2 =>
      pbind (getOAuth2Token tokenCache carrierCode config)
        (fun '(t, tokenCache') =>
           Ret (oauth2Headers config endpointType t, tokenCache'))
  | apikey =>
      match getApiKey carrierCode config endpointType with
      | inl message => Throw message
      | inr apiKey =>
          let headerName :=
            match entryFor (headerNames (auth config)) endpointType with
            | Some h => h
            | None => JS.orElse (headerName (auth config)) "KeyId"
            end in
          Ret ({[ headerName := apiKey ]}, tokenCache)
      end
  | otherAuth => Ret (∅, tokenCache)
  end.

End Manager.
(** [clearTokenCache]. *)
Definition clearTokenCache (tokenCache : gmap string TokenCache)
    (carrierCode : string) : gmap string TokenCache :=
  delete (carrierCode ++ "_oauth2") tokenCache.

(** [clearAllTokenCaches]. *)
Definition clearAllTokenCaches (tokenCache : gmap string TokenCache)
  : gmap string TokenCache :=
  ∅.

End AuthManager.
(* ===================================================================== *)
(** ** api/controllers/ScheduleController.ts, TrackingController.ts *)
(* ===================================================================== *)

Module Controller.
Section FanOut.

(** The records of a carrier (service schedules or tracking events) and the
    canonical query. *)
Context {Rec Query : Type}.

(** A carrier adapter as the controller uses it: its name, and what its
    [getSchedule] (or [getTracking]) settles to for a query: the message of
    the error, or the value returned, an array or [undefined] ([None]). The
    adapters that return a value of another type, on which the two
    controllers differ, are those of [Controllers] below. *)
Record CarrierAdapter := {
  getCarrierName : string;
  getRecords : Query -> string + option (list Rec)
}.

(** The value an inner [async (carrierCode) => ...] resolves to. *)
Record CarrierResult := {
  carrier : string;
  carrierName : option string;
  success : bool;
  records : option (list Rec);
  error : option string
}.

Record CarrierError := {
  ce_carrier : string;
  ce_error : string
}.

(** A record with the carrier that produced it:
    [{...record, carrier, carrierName}]. *)
Record Annotated := {
  an_record : Rec;
  an_carrier : string;
  an_carrierName : option string
}.

Record Meta := {
  total : nat;
  carriersQueried : nat;
  carriersSucceeded : Z;
  carriersFailed : nat
}.

(** What the controller sends. *)
Inductive Reply :=
| Status400
| Status503 (errors : list CarrierError)
| Status200 (data : list Annotated) (meta : Meta)
            (errors : option (list CarrierError)).

(** The adapters registered in the factory, by carrier code. *)
Variable adapters : gmap string CarrierAdapter.

(** [CarrierAdapterFactory.getAdapter]. *)
Definition getAdapter (carrierCode : string) : string + CarrierAdapter :=
  match adapters !! JS.toUpperCase carrierCode with
  | Some adapter => inr adapter
  | None => inl ("Adapter not found or not available for carrier: " ++ carrierCode)
  end.

(** The body of [carrierCodes.map(async (carrierCode) => ...)]: every error
    is caught and becomes a result with [success: false]. *)
Definition queryCarrier (queryParams : Query) (carrierCode : string)
  : CarrierResult :=
  let failed (message : string) :=
    {| carrier := carrierCode; carrierName := None; success := false;
       records := None;
       error := Some (if String.eqb message "" then "Unknown error" else message) |} in
  match getAdapter carrierCode with
  | inl message => failed message
  | inr adapter =>
      match getRecords adapter queryParams with
      | inl message => failed message
      | inr rs =>
          {| carrier := carrierCode; carrierName := Some (getCarrierName adapter);
             success := true; records := rs; error := None |}
      end
  end.

(** One turn of the loop over the settled results. *)
Definition processResult (emptyMessage : string)
    (acc : list Annotated * list CarrierError) (data : CarrierResult)
  : list Annotated * list CarrierError :=
  let '(successfulResults, errors) := acc in
  match success data, records data with
  | true, Some rs =>
      let withCarrier :=
        map (fun r => {| an_record := r; an_carrier := carrier data;
                         an_carrierName := carrierName data |}) rs in
      ((successfulResults ++ withCarrier)%list, errors)
  | _, _ =>
      (successfulResults,
       (errors ++ [ {| ce_carrier := carrier data;
                       ce_error := JS.orElse (error data) emptyMessage |} ])%list)
  end.

(** The controller, from the carrier codes on. *)
Definition fanOut (emptyMessage : string) (carrierCodes : list string)
    (queryParams : Query) : Reply :=
  match carrierCodes with
  | [] => Status400
  | _ =>
      let results := map (queryCarrier queryParams) carrierCodes in
      let '(successfulResults, errors) :=
        fold_left (processResult emptyMessage) results ([], []) in
      if (length successfulResults =? 0)%nat && (0 <? length errors)%nat then
        Status503 errors
      else
        Status200 successfulResults
          {| total := length successfulResults;
             carriersQueried := length carrierCodes;
             carriersSucceeded :=
               Z.of_nat (length carrierCodes) - Z.of_nat (length errors);
             carriersFailed := length errors |}
          (match errors with
           | [] => None
           | _ => Some errors
           end)
  end.

(** [ScheduleController.getSchedules]. *)
Definition getSchedules := fanOut "No schedules returned".

(** [TrackingController.getTracking]. *)
Definition getTracking := fanOut "No events returned".

(** A carrier succeeded: its call returned without throwing. *)
Definition succeeded (queryParams : Query) (carrierCode : string) : bool :=
  success (queryCarrier queryParams carrierCode).

(** The records a settled result contributes, and the error record it
    contributes. *)
Definition contributed (data : CarrierResult)
  : list (Annotated) :=
  match success data, records data with
  | true, Some rs =>
      map (fun r => {| an_record := r;
                       an_carrier := carrier data;
                       an_carrierName := carrierName data |})
          rs
  | _, _ => []
  end.

Definition reported (emptyMessage : string) (data : CarrierResult)
  : list CarrierError :=
  match success data, records data with
  | true, Some _ => []
  | _, _ =>
      [ {| ce_carrier := carrier data;
           ce_error :=
             JS.orElse (error data) emptyMessage |} ]
  end.

End FanOut.
End Controller.

(* ===================================================================== *)
(** ** adapters/carriers/maersk/MaerskPointToPointAdapter.ts: the mapper *)
(* ===================================================================== *)

Module MaerskPointToPointAdapter.

(** The vendor payload ([MaerskPointToPoint]). *)
Module Payload.

Inductive ModeOfTransport :=
| VESSEL | BARGE | RAIL | TRUCK | RAIL_TRUCK | BARGE_TRUCK | BARGE_RAIL
| MULTIMODAL.

Record Facility := {
  facilityCode : string;
  facilityCodeListProvider : string
}.

Record Location := {
  locationName : option string;
  UNLocationCode : option string;
  address : option Address;
  facility : option Facility
}.

Record Place := {
  facilityTypeCode : string;
  location : Location;
  dateTime : string
}.

Record ServicePartner := {
  carrierCode : string;
  carrierServiceName : option string;
  carrierServiceCode : option string;
  carrierImportVoyageNumber : option string;
  carrierExportVoyageNumber : option string
}.

Record Transport := {
  modeOfTransport : ModeOfTransport;
  portVisitReference : option string;
  transportCallReference : option string;
  servicePartners : option (list ServicePartner);
  universalServiceReference : option string;
  universalExportVoyageReference : option string;
  universalImportVoyageReference : option string;
  vessel : option Vessel;
  barge : option Vessel
}.

Record Leg := {
  sequenceNumber : Z;
  transport : Transport;
  departure : Place;
  arrival : Place
}.

Record MaerskPointToPoint := {
  placeOfReceipt : Place;
  placeOfDelivery : Place;
  receiptTypeAtOrigin : option string;
  deliveryTypeAtDestination : option string;
  cutOffTimes : option (list CutOffTime);
  solutionNumber : option Z;
  routingReference : option string;
  transitTime : option Z;
  legs : option (list Leg)
}.

End Payload.

(** The route information kept beside a service schedule. *)
Record RouteInfo := {
  ri_placeOfReceipt : Payload.Place;
  ri_placeOfDelivery : Payload.Place;
  ri_receiptTypeAtOrigin : option string;
  ri_deliveryTypeAtDestination : option string;
  ri_cutOffTimes : option (list CutOffTime);
  ri_solutionNumber : option Z;
  ri_routingReference : option string;
  ri_transitTime : option Z
}.

(** A value of the service map:
    [ServiceSchedule & { pointToPointRoutes?: ... }]. *)
Record RoutedSchedule := {
  serviceSchedule : ServiceSchedule;
  pointToPointRoutes : option (list RouteInfo)
}.

(** [transport.servicePartners?.[0]]. *)
Definition firstPartner (t : Payload.Transport) : option Payload.ServicePartner :=
  match Payload.servicePartners t with
  | Some (sp :: _) => Some sp
  | _ => None
  end.

Definition isVesselOrBarge (t : Payload.Transport) : bool :=
  match Payload.modeOfTransport t with
  | Payload.VESSEL | Payload.BARGE => true
  | _ => false
  end.

(** The service code of the first VESSEL/BARGE leg that carries one, else
    'UNKNOWN_SERVICE'. *)
Fixpoint routeServiceCodeOf (legs : list Payload.Leg) : string :=
  match legs with
  | [] => "UNKNOWN_SERVICE"
  | leg :: rest =>
      let transport := Payload.transport leg in
      let code := firstPartner transport ≫= Payload.carrierServiceCode in
      if isVesselOrBarge transport && JS.truthy code then JS.orElse code ""
      else routeServiceCodeOf rest
  end.

(** [vs.transportCalls.push(call)] guarded by [if (vs.transportCalls)]. *)
Definition pushCall (call : TransportCall) (vs : VesselSchedule) : VesselSchedule :=
  {| vessel := vessel vs;
     isDummyVessel := isDummyVessel vs;
     transportCalls := match transportCalls vs with
                       | Some l => Some (l ++ [call])%list
                       | None => None
                       end |}.

(** [vs.vessel?.vesselIMONumber === vesselIMO]. *)
Definition hasIMO (vesselIMO : string) (vs : VesselSchedule) : bool :=
  match vessel vs with
  | Some v => String.eqb (vesselIMONumber v) vesselIMO
  | None => false
  end.

(** Find the vessel schedule of the IMO number, or create it from [fresh] at
    the end of the array; then push the call on it. The schedule found is the
    object held by the array, so the push is seen through the array. *)
Fixpoint findOrCreateAndPush (vesselIMO : string) (fresh : VesselSchedule)
    (call : TransportCall) (vss : list VesselSchedule) : list VesselSchedule :=
  match vss with
  | [] => [pushCall call fresh]
  | vs :: rest =>
      if hasIMO vesselIMO vs then pushCall call vs :: rest
      else vs :: findOrCreateAndPush vesselIMO fresh call rest
  end.

(** [serviceMap.has(k)] and the update of the object held under [k]. *)
Definition mapHas {V} (m : list (string * V)) (k : string) : bool :=
  existsb (fun e => String.eqb (fst e) k) m.

Fixpoint mapUpdate {V} (m : list (string * V)) (k : string) (f : V -> V)
  : list (string * V) :=
  match m with
  | [] => []
  | (k', v) :: m' =>
      if String.eqb k' k then (k', f v) :: m' else (k', v) :: mapUpdate m' k f
  end.

Fixpoint mapGet {V} (m : list (string * V)) (k : string) : option V :=
  match m with
  | [] => None
  | (k', v) :: m' => if String.eqb k' k then Some v else mapGet m' k
  end.

(** [facility?.facilityCodeListProvider === 'SMDG' ? facility.facilityCode]. *)
Definition smdgCode (l : Payload.Location) : option string :=
  match Payload.facility l with
  | Some f =>
      if String.eqb (Payload.facilityCodeListProvider f) "SMDG"
      then Some (Payload.facilityCode f) else None
  | None => None
  end.

(** The transport call of a leg. *)
Definition callOfLeg (route : Payload.MaerskPointToPoint) (leg : Payload.Leg)
  : TransportCall :=
  let transport := Payload.transport leg in
  let servicePartner := firstPartner transport in
  let dep := Payload.location (Payload.departure leg) in
  let arr := Payload.location (Payload.arrival leg) in
  {| transportCallReference :=
       JS.orElse (Payload.transportCallReference transport)
         ("ptp-"
          ++ (if JS.truthyN (Payload.solutionNumber route)
              then pretty (default 0 (Payload.solutionNumber route))
              else "unknown")
          ++ "-" ++ pretty (Payload.sequenceNumber leg));
     portVisitReference := Payload.portVisitReference transport;
     carrierImportVoyageNumber :=
       JS.orElse (servicePartner ≫= Payload.carrierImportVoyageNumber) "UNKNOWN";
     carrierExportVoyageNumber :=
       Some (JS.orElse (servicePartner ≫= Payload.carrierExportVoyageNumber)
               "UNKNOWN");
     universalImportVoyageReference :=
       Payload.universalImportVoyageReference transport;
     universalExportVoyageReference :=
       Payload.universalExportVoyageReference transport;
     location :=
       {| UNLocationCode :=
            JS.or (Payload.UNLocationCode dep) (Payload.UNLocationCode arr);
          locationName :=
            JS.or (Payload.locationName dep) (Payload.locationName arr);
          address := match Payload.address dep with
                     | Some a => Some a
                     | None => Payload.address arr
                     end;
          facilitySMDGCode := match smdgCode dep with
                              | Some c => Some c
                              | None => smdgCode arr
                              end |};
     timestamps :=
       [ {| eventTypeCode := DEPA; eventClassifierCode := EST;
            eventDateTime := Payload.dateTime (Payload.departure leg) |};
         {| eventTypeCode := ARRI; eventClassifierCode := EST;
            eventDateTime := Payload.dateTime (Payload.arrival leg) |} ];
     cutOffTimes := Payload.cutOffTimes route |}.

(** The body of the loop over the legs of a route. *)
Definition processLeg (route : Payload.MaerskPointToPoint)
    (serviceMap : list (string * RoutedSchedule)) (leg : Payload.Leg)
  : list (string * RoutedSchedule) :=
  let transport := Payload.transport leg in
  if negb (isVesselOrBarge transport) then serviceMap
  else
    let vesselOrBarge :=
      match Payload.vessel transport with
      | Some v => Some v
      | None => Payload.barge transport
      end in
    match vesselOrBarge with
    | None => serviceMap
    | Some v =>
        let servicePartner := firstPartner transport in
        let serviceCode :=
          JS.orElse (servicePartner ≫= Payload.carrierServiceCode)
            "UNKNOWN_SERVICE" in
        let serviceName :=
          JS.orElse (servicePartner ≫= Payload.carrierServiceName)
            "Unknown Service" in
        let serviceMap1 :=
          if mapHas serviceMap serviceCode then serviceMap
          else
            (serviceMap
             ++ [ (serviceCode,
                   {| serviceSchedule :=
                        {| carrierServiceCode := serviceCode;
                           carrierServiceName := serviceName;
                           universalServiceReference :=
                             Payload.universalServiceReference transport;
                           vesselSchedules := [] |};
                      pointToPointRoutes := Some [] |}) ])%list in
        let vesselIMO :=
          if String.eqb (vesselIMONumber v) "" then "0000000"
          else vesselIMONumber v in
        let fresh :=
          {| isDummyVessel := String.eqb vesselIMO "0000000";
             vessel := Some {| vesselIMONumber := vesselIMO;
                               name := name v;
                               MMSINumber := MMSINumber v;
                               flag := flag v;
                               callSign := callSign v;
                               operatorCarrierCode := operatorCarrierCode v;
                               operatorCarrierCodeListProvider :=
                                 operatorCarrierCodeListProvider v |};
             transportCalls := Some [] |} in
        mapUpdate serviceMap1 serviceCode
          (fun schedule =>
             {| serviceSchedule :=
                  {| carrierServiceCode :=
                       carrierServiceCode (serviceSchedule schedule);
                     carrierServiceName :=
                       carrierServiceName (serviceSchedule schedule);
                     universalServiceReference :=
                       universalServiceReference (serviceSchedule schedule);
                     vesselSchedules :=
                       findOrCreateAndPush vesselIMO fresh (callOfLeg route leg)
                         (vesselSchedules (serviceSchedule schedule)) |};
                pointToPointRoutes := pointToPointRoutes schedule |})
    end.

(** The route information added to the schedule of the route's primary
    service, once per solution number. *)
Definition addRouteInfo (route : Payload.MaerskPointToPoint)
    (schedule : RoutedSchedule) : RoutedSchedule :=
  match pointToPointRoutes schedule with
  | None => schedule
  | Some infos =>
      if existsb (fun r => bool_decide (ri_solutionNumber r
                                        = Payload.solutionNumber route)) infos
      then schedule
      else
        {| serviceSchedule := serviceSchedule schedule;
           pointToPointRoutes :=
             Some (infos
                   ++ [ {| ri_placeOfReceipt := Payload.placeOfReceipt route;
                           ri_placeOfDelivery := Payload.placeOfDelivery route;
                           ri_receiptTypeAtOrigin :=
                             Payload.receiptTypeAtOrigin route;
                           ri_deliveryTypeAtDestination :=
                             Payload.deliveryTypeAtDestination route;
                           ri_cutOffTimes := Payload.cutOffTimes route;
                           ri_solutionNumber := Payload.solutionNumber route;
                           ri_routingReference := Payload.routingReference route;
                           ri_transitTime := Payload.transitTime route |} ])%list |}
  end.

(** The body of the loop over the routes. *)
Definition processRoute (serviceMap : list (string * RoutedSchedule))
    (route : Payload.MaerskPointToPoint) : list (string * RoutedSchedule) :=
  match Payload.legs route with
  | None | Some [] => serviceMap
  | Some legs =>
      let routeServiceCode := routeServiceCodeOf legs in
      let serviceMap1 := fold_left (processLeg route) legs serviceMap in
      mapUpdate serviceMap1 routeServiceCode (addRouteInfo route)
  end.

(** [mapPointToPointToDCSA]; [routes] is [None] when the response is not an
    array. *)
Definition mapPointToPointToDCSA (routes : option (list Payload.MaerskPointToPoint))
  : list RoutedSchedule :=
  match routes with
  | None | Some [] => []
  | Some rs =>
      let serviceMap := fold_left processRoute rs [] in
      List.filter
        (fun schedule =>
           (0 <? length (vesselSchedules (serviceSchedule schedule)))%nat)
        (map snd serviceMap)
  end.

(** The fields of the query object that [ScheduleQueryParams] does not
    declare and only this adapter reads through [(params as any)]. *)
Record Extensions := {
  departureStartDate : option string;
  departureEndDate : option string;
  arrivalStartDate : option string;
  arrivalEndDate : option string;
  maxTranshipment : option JS.num;
  receiptTypeAtOrigin : option string;
  deliveryTypeAtDestination : option string;
  cargoType : option string;
  ISOEquipmentCode : option string;
  stuffingWeight : option JS.num;
  stuffingVolume : option JS.num
}.

Section Adapter.

Variable config : CarrierConfig.

(** [MaerskPointToPointAdapter.getSchedule]. The response is [None] when it
    is not an array. *)
Definition getSchedule (ext : Extensions) (params : Params)
  : Prog (option (list Payload.MaerskPointToPoint)) (list RoutedSchedule) :=
  match endpointOf (pointToPoint (apis config)) with
  | None => Throw "Point-to-Point API endpoint not configured for Maersk"
  | Some endpoint =>
      let placeOfReceipt := placeOfReceipt params in
      let placeOfDelivery := placeOfDelivery params in
      let departureStartDate :=
        JS.or (departureStartDate ext) (q_startDate params) in
      let receiptTypeAtOrigin := JS.orElse (receiptTypeAtOrigin ext) "CY" in
      let deliveryTypeAtDestination :=
        JS.orElse (deliveryTypeAtDestination ext) "CY" in
      if negb (JS.truthy placeOfReceipt) then
        Throw "Maersk Point-to-Point API requires placeOfReceipt (UNLocationCode) parameter"
      else if negb (JS.truthy placeOfDelivery) then
        Throw "Maersk Point-to-Point API requires placeOfDelivery (UNLocationCode) parameter"
      else
        let queryParams : gmap string string :=
          setIf "stuffingVolume"
            (if JS.truthyNum (stuffingVolume ext)
             then option_map JS.numToString (stuffingVolume ext) else None)
          (setIf "stuffingWeight"
            (if JS.truthyNum (stuffingWeight ext)
             then option_map JS.numToString (stuffingWeight ext) else None)
          (setIf "ISOEquipmentCode" (ISOEquipmentCode ext)
          (setIf "cargoType" (cargoType ext)
          (setIf "deliveryTypeAtDestination" (Some deliveryTypeAtDestination)
          (setIf "receiptTypeAtOrigin" (Some receiptTypeAtOrigin)
          (match maxTranshipment ext with
           | Some n => <[ "maxTranshipment" := JS.numToString n ]>
           | None => id
           end
          (setIf "arrivalEndDate" (arrivalEndDate ext)
          (setIf "arrivalStartDate" (arrivalStartDate ext)
          (setIf "departureEndDate" (departureEndDate ext)
          (setIf "departureStartDate" departureStartDate
          (<[ "placeOfDelivery" := JS.orElse placeOfDelivery "" ]>
           {[ "placeOfReceipt" := JS.orElse placeOfReceipt "" ]}))))))))))) in
        let versionHeader : gmap string string :=
          match pointToPoint (apis config) with
          | Some a =>
              if String.eqb (version a) "" then ∅
              else {[ "API-Version" := splitHead "."%char (version a) ]}
          | None => ∅
          end in
        let headers : gmap string string :=
          if JS.truthy (cargoType ext) || JS.truthy (ISOEquipmentCode ext)
             || JS.truthyNum (stuffingWeight ext)
             || JS.truthyNum (stuffingVolume ext)
          then <[ "Carrier-Extensions-Version" := "1" ]> versionHeader
          else versionHeader in
        Http {| rq_method := GET; rq_url := endpoint;
                rq_params := queryParams; rq_headers := headers;
                rq_body := ∅ |}
          (fun outcome =>
             match outcome with
             | Response response => Ret (mapPointToPointToDCSA response)
             | Failure response message =>
                 rethrow "Maersk Point-to-Point" response message
             end)
  end.

End Adapter.

End MaerskPointToPointAdapter.

(** A vessel schedule that carries at least one transport call. *)
Definition hasCalls (vs : VesselSchedule) : bool :=
  match transportCalls vs with
  | Some (_ :: _) => true
  | _ => false
  end.

(** The invariant of the specification on a mapper's output: some vessel
    schedule of the service schedule carries at least one transport call,
    [vesselSchedules.some(vs => vs.transportCalls?.length)]. *)
Definition hasTransportCall (s : ServiceSchedule) : bool :=
  existsb hasCalls (vesselSchedules s).

(** The stronger property the Maersk point-to-point mapper keeps at every
    turn of its loops: the service schedule has vessel schedules and each of
    them carries a transport call. *)
Definition everyVesselHasCalls (s : ServiceSchedule) : Prop :=
  vesselSchedules s <> [] /\ forallb hasCalls (vesselSchedules s) = true.

(** The same, on every value of the service map of the Maersk mapper. *)
Definition goodMap (m : list (string * MaerskPointToPointAdapter.RoutedSchedule))
  : Prop :=
  Forall (fun e => everyVesselHasCalls
                     (MaerskPointToPointAdapter.serviceSchedule (snd e))) m.

(* ===================================================================== *)
(** ** Concrete inputs *)
(* ===================================================================== *)

(** The tie-break of the specification: loading and discharge locations
    together with a service code and a voyage code go to Route. *)
Definition tieBreakParams : Params :=
  {| q_vesselIMONumber := None; q_vesselName := None;
     q_carrierServiceCode := None; q_universalServiceReference := None;
     q_carrierVoyageNumber := None; q_universalVoyageReference := None;
     q_UNLocationCode := None; q_facilitySMDGCode := None;
     q_vesselOperatorCarrierCode := None; q_startDate := None;
     q_endDate := None; q_limit := None; q_cursor := None;
     fromLocationCode := None; toLocationCode := None; periodDate := None;
     placeOfLoading := Some "FRLEH"; placeOfDischarge := Some "USNYC";
     unLocodePlaceOfLoading := None; unLocodePlaceOfDischarge := None;
     voyageCode := Some "0MX1QE1MA"; vesselIMO := None; from := None; to := None;
     portCode := None; countryCode := None; serviceCode := Some "FAL1";
     lineCode := None; zoneFromCode := None; zoneToCode := None;
     placeOfReceipt := None; placeOfDelivery := None; date := None |}.

(** An HMM schedule item with a voyage code and no arrival or departure. *)
Definition hmmItemNoDates : HMMScheduleMapper.HMMScheduleItem :=
  {| HMMScheduleMapper.vvdCode := Some "HDM0012W";
     HMMScheduleMapper.portCode := Some "KRPUS";
     HMMScheduleMapper.portName := Some "BUSAN";
     HMMScheduleMapper.tmnlCode := None;
     HMMScheduleMapper.tmnlName := None;
     HMMScheduleMapper.vesselName := None;
     HMMScheduleMapper.arrival := None;
     HMMScheduleMapper.departure := None |}.

(** The HMM schedule item of the specification: an arrival on "20210817" at
    "2100". *)
Definition hmmItemArrival : HMMScheduleMapper.HMMScheduleItem :=
  {| HMMScheduleMapper.vvdCode := Some "HDM0012W";
     HMMScheduleMapper.portCode := Some "KRPUS";
     HMMScheduleMapper.portName := Some "BUSAN";
     HMMScheduleMapper.tmnlCode := None;
     HMMScheduleMapper.tmnlName := None;
     HMMScheduleMapper.vesselName := Some "HMM OSLO";
     HMMScheduleMapper.arrival :=
       Some {| HMMScheduleMapper.arrivalDate := Some "20210817";
               HMMScheduleMapper.arrivalTime := Some "2100";
               HMMScheduleMapper.arrivalStatusCode := None |};
     HMMScheduleMapper.departure := None |}.

Definition hmmResponseOf (items : list HMMScheduleMapper.HMMScheduleItem)
  : HMMScheduleMapper.HMMScheduleResponse :=
  {| HMMScheduleMapper.resultData := Some items;
     HMMScheduleMapper.resultCode := None;
     HMMScheduleMapper.resultMessage := None |}.

(** [transportCallReference] blanked in a whole mapper output, to compare two
    outputs on every other field. *)
Definition eraseCall (c : TransportCall) : TransportCall :=
  {| transportCallReference := "";
     portVisitReference := portVisitReference c;
     carrierImportVoyageNumber := carrierImportVoyageNumber c;
     carrierExportVoyageNumber := carrierExportVoyageNumber c;
     universalImportVoyageReference := universalImportVoyageReference c;
     universalExportVoyageReference := universalExportVoyageReference c;
     location := location c;
     timestamps := timestamps c;
     cutOffTimes := cutOffTimes c |}.

Definition eraseVessel (v : VesselSchedule) : VesselSchedule :=
  {| vessel := vessel v;
     isDummyVessel := isDummyVessel v;
     transportCalls := option_map (map eraseCall) (transportCalls v) |}.

Definition eraseService (s : ServiceSchedule) : ServiceSchedule :=
  {| carrierServiceCode := carrierServiceCode s;
     carrierServiceName := carrierServiceName s;
     universalServiceReference := universalServiceReference s;
     vesselSchedules := map eraseVessel (vesselSchedules s) |}.

(** Two runs of a mapper are related by [R]: both throw the same error, or
    both return and the values are related. *)
Definition related {A} (R : A -> A -> Prop) (r1 r2 : string + (A * nat)) : Prop :=
  match r1, r2 with
  | inl e1, inl e2 => e1 = e2
  | inr (a1, _), inr (a2, _) => R a1 a2
  | _, _ => False
  end.

(** Whatever the clocks and the reads made before, two mappers end in
    related results. *)
Definition sim {A} (R : A -> A -> Prop) (m1 m2 : Mapper A) : Prop :=
  forall clk1 n1 clk2 n2, related R (m1 clk1 n1) (m2 clk2 n2).

(** A carrier configuration with the vessel-schedule endpoint set. *)
Definition configWithSchedule (endpoint : string) (authType : AuthType)
  : CarrierConfig :=
  {| apis := {| schedule := Some {| endpoint := endpoint; version := "1.0" |};
                portSchedule := None; ptpSchedule := None; proforma := None;
                voyage := None; route := None; pointToPoint := None;
                tracking := None |};
     auth := {| type := authType; tokenUrl := None; scopes := None;
                headerName := None; headerNames := None; apiKeys := None;
                primaryKeys := None; secondaryKeys := None |} |}.

Definition hmmConfig : CarrierConfig :=
  configWithSchedule "/gateway/vesselSchedule/v1/vessel-schedule" apikey.

Definition zimConfig : CarrierConfig :=
  configWithSchedule "/vessel-schedule/v1/schedules" apikey.

Definition maerskConfig : CarrierConfig :=
  configWithSchedule "/schedules/vessel-schedules" oauth2.

(** The query whose only parameter is [startDate]. *)
Definition startDateOnly (d : string) : Params :=
  {| q_vesselIMONumber := None; q_vesselName := None;
     q_carrierServiceCode := None; q_universalServiceReference := None;
     q_carrierVoyageNumber := None; q_universalVoyageReference := None;
     q_UNLocationCode := None; q_facilitySMDGCode := None;
     q_vesselOperatorCarrierCode := None; q_startDate := Some d;
     q_endDate := None; q_limit := None; q_cursor := None;
     fromLocationCode := None; toLocationCode := None; periodDate := None;
     placeOfLoading := None; placeOfDischarge := None;
     unLocodePlaceOfLoading := None; unLocodePlaceOfDischarge := None;
     voyageCode := None; vesselIMO := None; from := None; to := None;
     portCode := None; countryCode := None; serviceCode := None;
     lineCode := None; zoneFromCode := None; zoneToCode := None;
     placeOfReceipt := None; placeOfDelivery := None; date := None |}.

(** The host parses a date-only ISO string as midnight UTC of that day
    (ECMA-262): the two strings used below, as milliseconds since the
    epoch. *)
Definition parseDateOnly (s : string) : option Z :=
  if String.eqb s "2024-04-01" then Some 1711929600000
  else if String.eqb s "2024-12-28" then Some 1735344000000
  else None.

(** A host five hours west of UTC, on 2024-06-30 at noon local time
    (17:00 UTC). *)
Definition westOffset : Z := -18000000.
Definition westNow : Z := 1719766800000.

(** The local day number of an instant in a zone at offset [tz]. *)
Definition localDay (t tz : Z) : Z := (t + tz) / MaerskScheduleAdapter.msPerDay.





(** A Maersk configuration: OAuth2 with a supplementary key header. *)
Definition maerskAuthConfig : CarrierConfig :=
  {| apis := apis maerskConfig;
     auth := {| type := oauth2;
                tokenUrl := Some "https://api.maersk.com/customer-identity/oauth/v2/access_token";
                scopes := None;
                headerName := Some "Consumer-Key";
                headerNames := None;
                apiKeys := Some {[ "schedule" := "MAERSK_SCHEDULE_API_KEY" ]};
                primaryKeys := None; secondaryKeys := None |} |}.

(** An environment with the Maersk OAuth2 credentials and no supplementary
    key. *)
Definition maerskEnv : gmap string string :=
  <[ "MAERSK_CONSUMER_KEY" := "ck" ]> {[ "MAERSK_SECRET_KEY" := "sk" ]}.

(** A token endpoint that grants a token. *)
Definition grantingNet (req : HttpRequest) : HttpOutcome AuthManager.OAuth2Token :=
  Response {| AuthManager.access_token := "tok";
              AuthManager.token_type := None;
              AuthManager.expires_in := 3600 |}.

(** The cache entry made from that grant when the clock reads 0. *)
Definition grantedToken : AuthManager.TokenCache :=
  {| AuthManager.token := "tok";
     AuthManager.expiresAt := 3600000;
     AuthManager.tokenType := "Bearer" |}.

(** Two carriers for the fan-out: HMM answers with zero schedules, ZIM throws
    its missing-location error. *)
Definition twoCarriers {Rec Query : Type}
  : gmap string (@Controller.CarrierAdapter Rec Query) :=
  <[ "HMM" := {| Controller.getCarrierName := "HMM";
                 Controller.getRecords := fun _ => inr (Some []) |} ]>
  {[ "ZIM" := {| Controller.getCarrierName := "ZIM";
                 Controller.getRecords := fun _ =>
                   inl "ZIM Schedule API requires both origin and destination locations. Please provide originCode and destCode via extended query parameters." |} ]}.

(* ===================================================================== *)
(** ** Measures on payloads and on mapper output *)
(* ===================================================================== *)

(** A computation threw. *)
Definition throws {A} (r : string + A) : bool :=
  match r with
  | inl _ => true
  | inr _ => false
  end.

(** The transport calls of a vessel schedule, of a service schedule and of a
    mapper's output, in order. *)
Definition callsOfVessel (vs : VesselSchedule) : list TransportCall :=
  default [] (transportCalls vs).

Definition callsOfService (s : ServiceSchedule) : list TransportCall :=
  flat_map callsOfVessel (vesselSchedules s).

Definition callsOf (out : list ServiceSchedule) : list TransportCall :=
  flat_map callsOfService out.

(** An HMM item carries a complete arrival (departure) pair: its date and
    its time are both non-empty. *)
Definition hmmHasArrival (item : HMMScheduleMapper.HMMScheduleItem) : bool :=
  JS.truthy (HMMScheduleMapper.arrival item ≫= HMMScheduleMapper.arrivalDate)
  && JS.truthy (HMMScheduleMapper.arrival item ≫= HMMScheduleMapper.arrivalTime).

Definition hmmHasDeparture (item : HMMScheduleMapper.HMMScheduleItem) : bool :=
  JS.truthy (HMMScheduleMapper.departure item ≫= HMMScheduleMapper.departureDate)
  && JS.truthy (HMMScheduleMapper.departure item ≫= HMMScheduleMapper.departureTime).

Definition hmmHasTimestamp (item : HMMScheduleMapper.HMMScheduleItem) : bool :=
  hmmHasArrival item || hmmHasDeparture item.



(** The items of an HMM response. *)
Definition hmmItems (resp : HMMScheduleMapper.HMMScheduleResponse)
  : list HMMScheduleMapper.HMMScheduleItem :=
  default [] (HMMScheduleMapper.resultData resp).

(** The legs of a ZIM response, and the legs that carry a date. *)
Definition zimLegs (resp : ZIMScheduleMapper.ZIMScheduleResponse)
  : list ZIMScheduleMapper.ZIMRouteLeg :=
  flat_map (fun r => default [] (ZIMScheduleMapper.routeLegs r))
           (default [] (ZIMScheduleMapper.routes resp)).

Definition zimHasDate (leg : ZIMScheduleMapper.ZIMRouteLeg) : bool :=
  JS.truthy (ZIMScheduleMapper.arrivalDate leg)
  || JS.truthy (ZIMScheduleMapper.departureDate leg).

(* ===================================================================== *)
(** ** api/controllers: the two controllers on every value an adapter can
       give *)
(* ===================================================================== *)

Module Controllers.

(** What [await adapter.getSchedule(queryParams)] (or [getTracking]) gives.
    An adapter can hand on the carrier's response unchecked, so the value
    returned need not be an array. *)
Inductive Returned (Rec : Type) : Type :=
| Falsy                       (* undefined, null, false, 0 or the empty string *)
| NotArray                    (* any other value that is not an array *)
| Array (records : list Rec).

Inductive Outcome (Rec : Type) : Type :=
| Throws (message : string)   (* an error: its [message], empty when it has none *)
| ThrowsNullish               (* [null] or [undefined] is thrown *)
| Returns (value : Returned Rec).

Arguments Falsy {Rec}.
Arguments NotArray {Rec}.
Arguments Array {Rec} records.
Arguments Throws {Rec} message.
Arguments ThrowsNullish {Rec}.
Arguments Returns {Rec} value.

Section FanOut.

Context {Rec Query : Type}.

Record CarrierAdapter := {
  getCarrierName : string;
  call : Query -> Outcome Rec
}.

(** The value an inner [async (carrierCode) => ...] resolves to; the field
    [schedules] (or [events]) of a failed result is absent. *)
Record CarrierResult := {
  carrier : string;
  carrierName : option string;
  success : bool;
  value : Returned Rec;
  error : option string
}.

(** A result of [Promise.allSettled]: fulfilled with a value, or rejected
    with a reason, of which [reason?.message] is read. *)
Inductive Settled :=
| Fulfilled (data : CarrierResult)
| Rejected (message : string).

(** What a controller sends. *)
Inductive Reply :=
| Status400
| Status500 (message : string)
| Status503 (errors : list Controller.CarrierError)
| Status200 (data : list (@Controller.Annotated Rec)) (meta : Controller.Meta)
            (errors : option (list Controller.CarrierError)).

(** The adapters registered in the factory, by carrier code. *)
Variable adapters : gmap string CarrierAdapter.

(** The messages of the two [TypeError]s of the host: for the read of
    [error.message] on [null] or [undefined], and for the call of
    [data.schedules.map] on a value that has no such function. *)
Variable nullMessage : string.
Variable notAFunction : string.

(** [CarrierAdapterFactory.getAdapter]. *)
Definition getAdapter (carrierCode : string) : string + CarrierAdapter :=
  match adapters !! JS.toUpperCase carrierCode with
  | Some adapter => inr adapter
  | None => inl ("Adapter not found or not available for carrier: " ++ carrierCode)
  end.

(** The body of [carrierCodes.map(async (carrierCode) => ...)]. The [catch]
    reads [error.message]: on a thrown [null] or [undefined] that read throws
    in its turn and the promise is rejected. *)
Definition queryCarrier (queryParams : Query) (carrierCode : string) : Settled :=
  let failed (message : string) :=
    Fulfilled
      {| carrier := carrierCode; carrierName := None; success := false;
         value := Falsy;
         error := Some (if String.eqb message "" then "Unknown error"
                        else message) |} in
  match getAdapter carrierCode with
  | inl message => failed message
  | inr adapter =>
      match call adapter queryParams with
      | Throws message => failed message
      | ThrowsNullish => Rejected nullMessage
      | Returns v =>
          Fulfilled
            {| carrier := carrierCode;
               carrierName := Some (getCarrierName adapter);
               success := true; value := v; error := None |}
      end
  end.

Definition annotate (data : CarrierResult) (r : Rec) : @Controller.Annotated Rec :=
  {| Controller.an_record := r;
     Controller.an_carrier := carrier data;
     Controller.an_carrierName := carrierName data |}.

(** One turn of the loop over the settled results; [inl] when the turn
    throws. [guarded] is the test [Array.isArray(data.events) ? data.events
    : []], which the tracking controller has and the schedule controller has
    not. *)
Definition processResult (guarded : bool) (emptyMessage : string)
    (acc : string + (list (@Controller.Annotated Rec) * list Controller.CarrierError))
    (result : Settled)
  : string + (list (@Controller.Annotated Rec) * list Controller.CarrierError) :=
  match acc with
  | inl thrown => inl thrown
  | inr (successfulResults, errors) =>
      match result with
      | Fulfilled data =>
          match success data, value data with
          | true, Array rs =>
              inr ((successfulResults ++ map (annotate data) rs)%list, errors)
          | true, NotArray =>
              if guarded then inr (successfulResults, errors)
              else inl notAFunction
          | _, _ =>
              inr (successfulResults,
                   (errors ++ [ {| Controller.ce_carrier := carrier data;
                                   Controller.ce_error :=
                                     JS.orElse (error data) emptyMessage |} ])%list)
          end
      | Rejected message =>
          inr (successfulResults,
               (errors ++ [ {| Controller.ce_carrier := "unknown";
                               Controller.ce_error :=
                                 JS.orElse (Some message) "Unknown error" |} ])%list)
      end
  end.

(** A controller, from the carrier codes on: the outer [try] answers 500
    when the loop throws. *)
Definition respond (guarded : bool) (emptyMessage : string)
    (carrierCodes : list string) (queryParams : Query) : Reply :=
  match carrierCodes with
  | [] => Status400
  | _ =>
      let results := map (queryCarrier queryParams) carrierCodes in
      match fold_left (processResult guarded emptyMessage) results
                      (inr ([], [])) with
      | inl thrown =>
          Status500 (JS.orElse (Some thrown) "An unexpected error occurred")
      | inr (successfulResults, errors) =>
          if (length successfulResults =? 0)%nat && (0 <? length errors)%nat then
            Status503 errors
          else
            Status200 successfulResults
              {| Controller.total := length successfulResults;
                 Controller.carriersQueried := length carrierCodes;
                 Controller.carriersSucceeded :=
                   Z.of_nat (length carrierCodes) - Z.of_nat (length errors);
                 Controller.carriersFailed := length errors |}
              (match errors with
               | [] => None
               | _ => Some errors
               end)
      end
  end.

(** [ScheduleController.getSchedules]. *)
Definition getSchedules := respond false "No schedules returned".

(** [TrackingController.getTracking]. *)
Definition getTracking := respond true "No events returned".

End FanOut.
End Controllers.

(** What one carrier adds to the reply of a controller: what its call gives
    (a missing adapter is an error thrown), the records of the array it
    returned, each with the carrier's code and name, and the error record it
    is listed with. *)
Section Contribution.

Context {Rec Query : Type}.
Variable adapters : gmap string (@Controllers.CarrierAdapter Rec Query).
Variable nullMessage : string.
Variable emptyMessage : string.
Variable queryParams : Query.

Definition outcomeOf (carrierCode : string) : Controllers.Outcome Rec :=
  match Controllers.getAdapter adapters carrierCode with
  | inl message => Controllers.Throws message
  | inr adapter => Controllers.call adapter queryParams
  end.

Definition recordsOf (carrierCode : string) : list (@Controller.Annotated Rec) :=
  match Controllers.getAdapter adapters carrierCode with
  | inl _ => []
  | inr adapter =>
      match Controllers.call adapter queryParams with
      | Controllers.Returns (Controllers.Array rs) =>
          map (fun r =>
                 {| Controller.an_record := r;
                    Controller.an_carrier := carrierCode;
                    Controller.an_carrierName :=
                      Some (Controllers.getCarrierName adapter) |}) rs
      | _ => []
      end
  end.

Definition errorsOf (carrierCode : string) : list Controller.CarrierError :=
  match outcomeOf carrierCode with
  | Controllers.Throws message =>
      [ {| Controller.ce_carrier := carrierCode;
           Controller.ce_error :=
             if String.eqb message "" then "Unknown error" else message |} ]
  | Controllers.ThrowsNullish =>
      [ {| Controller.ce_carrier := "unknown";
           Controller.ce_error :=
             if String.eqb nullMessage "" then "Unknown error" else nullMessage |} ]
  | Controllers.Returns Controllers.Falsy =>
      [ {| Controller.ce_carrier := carrierCode;
           Controller.ce_error := emptyMessage |} ]
  | Controllers.Returns _ => []
  end.

(** The carrier returned a value that is neither falsy nor an array. *)
Definition returnsNotArray (carrierCode : string) : bool :=
  match outcomeOf carrierCode with
  | Controllers.Returns Controllers.NotArray => true
  | _ => false
  end.

End Contribution.

(** The adapters and the replies of the model of the controllers used for
    arrays, taken into the model above. *)
Definition liftAdapter {Rec Query : Type}
    (adapter : @Controller.CarrierAdapter Rec Query)
  : @Controllers.CarrierAdapter Rec Query :=
  {| Controllers.getCarrierName := Controller.getCarrierName adapter;
     Controllers.call := fun queryParams =>
       match Controller.getRecords adapter queryParams with
       | inl message => Controllers.Throws message
       | inr None => Controllers.Returns Controllers.Falsy
       | inr (Some rs) => Controllers.Returns (Controllers.Array rs)
       end |}.

Definition liftReply {Rec : Type} (reply : @Controller.Reply Rec)
  : @Controllers.Reply Rec :=
  match reply with
  | Controller.Status400 => Controllers.Status400
  | Controller.Status503 errors => Controllers.Status503 errors
  | Controller.Status200 data meta errors =>
      Controllers.Status200 data meta errors
  end.

(** The legs of a Maersk point-to-point payload, and the legs sailed by a
    vessel or a barge that the payload describes. *)
Definition p2pLegs
    (routes : option (list MaerskPointToPointAdapter.Payload.MaerskPointToPoint))
  : list MaerskPointToPointAdapter.Payload.Leg :=
  flat_map (fun r => default [] (MaerskPointToPointAdapter.Payload.legs r))
           (default [] routes).

Definition carriesVessel (leg : MaerskPointToPointAdapter.Payload.Leg) : bool :=
  let transport := MaerskPointToPointAdapter.Payload.transport leg in
  MaerskPointToPointAdapter.isVesselOrBarge transport
  && match MaerskPointToPointAdapter.Payload.vessel transport,
           MaerskPointToPointAdapter.Payload.barge transport with
     | None, None => false
     | _, _ => true
     end.

(** The IMO number a vessel schedule is filed under. *)
Definition imoOf (vs : VesselSchedule) : option string :=
  option_map vesselIMONumber (vessel vs).

(** The vessel schedules of one service are filed under distinct IMO
    numbers; each has a vessel with a non-empty IMO number and is flagged as
    a dummy exactly when that number is '0000000'. *)
Definition distinctVessels (vss : list VesselSchedule) : Prop :=
  List.NoDup (map imoOf vss)
  /\ Forall (fun vs => exists v,
                 vessel vs = Some v
                 /\ vesselIMONumber v <> ""
                 /\ isDummyVessel vs = String.eqb (vesselIMONumber v) "0000000")
            vss.

(* ===================================================================== *)
(** ** adapters/carriers/hmm/HMMPTPScheduleAdapter.ts,
       HMMPortScheduleAdapter.ts *)
(* ===================================================================== *)

(** The character class [[-T:]]. *)
Definition isDateSeparator (c : ascii) : bool :=
  Ascii.eqb c "-" || Ascii.eqb c "T" || Ascii.eqb c ":".

(** [s.replace(/[-T:]/g, '')]. *)
Fixpoint removeDateSeparators (s : string) : string :=
  match s with
  | EmptyString => EmptyString
  | String c r =>
      if isDateSeparator c then removeDateSeparators r
      else String c (removeDateSeparators r)
  end.

(** [convertToHMMDateFormat] (both files define it):
    "2021-08-17" -> "20210817". *)
Definition convertToHMMDateFormat (dateStr : string) : string :=
  JS.substring 0 8 (removeDateSeparators dateStr).

Module HMMPortScheduleAdapter.
Section Adapter.

Variable localeCompare : string -> string -> Z.
Variable clock : Clock.
Variable config : CarrierConfig.

(** [HMMPortScheduleAdapter.getSchedule]. The response is mapped by the
    mapper of the vessel schedule. *)
Definition getSchedule (params : Params)
  : Prog HMMScheduleMapper.HMMScheduleResponse (list ServiceSchedule) :=
  match endpointOf (portSchedule (apis config)) with
  | None => Throw "Port Schedule API endpoint not configured for HMM"
  | Some endpoint =>
      if negb (JS.truthy (q_UNLocationCode params)) then
        Throw "HMM Port Schedule API requires UNLocationCode (portCode) parameter"
      else if negb (JS.truthy (q_startDate params)) then
        Throw "HMM Port Schedule API requires startDate (durationFrom) parameter"
      else if negb (JS.truthy (q_endDate params)) then
        Throw "HMM Port Schedule API requires endDate (durationTo) parameter"
      else
        let durationFrom :=
          convertToHMMDateFormat (JS.orElse (q_startDate params) "") in
        let durationTo :=
          convertToHMMDateFormat (JS.orElse (q_endDate params) "") in
        let queryParams : gmap string string :=
          setIf "optionVessel" (q_vesselOperatorCarrierCode params)
            (<[ "durationTo" := durationTo ]>
            (<[ "durationFrom" := durationFrom ]>
            {[ "portCode" := JS.orElse (q_UNLocationCode params) "" ]})) in
        let requestBody : gmap string string :=
          setIf "optionVessel" (q_vesselOperatorCarrierCode params)
            (<[ "durationTo" := durationTo ]>
            (<[ "durationFrom" := durationFrom ]>
            {[ "portCode" := JS.orElse (q_UNLocationCode params) "" ]})) in
        Http {| rq_method := POST; rq_url := endpoint;
                rq_params := queryParams; rq_headers := ∅;
                rq_body := requestBody |}
          (fun outcome =>
             match outcome with
             | Response response =>
                 let resultCode := HMMScheduleMapper.resultCode response in
                 if JS.truthy resultCode
                    && negb (String.eqb (JS.orElse resultCode "") "Success")
                 then
                   Throw ("HMM Port Schedule API error: "
                          ++ JS.orElse resultCode "" ++ " - "
                          ++ JS.orElse (HMMScheduleMapper.resultMessage response)
                               "Unknown error")
                 else
                   match runMapper
                           (HMMScheduleMapper.mapHMMScheduleToDCSA localeCompare
                              response (q_carrierServiceCode params)) clock with
                   | inl e => Throw e
                   | inr schedules => Ret schedules
                   end
             | Failure response message =>
                 rethrowHMM "HMM Port Schedule" response message
             end)
  end.

End Adapter.
End HMMPortScheduleAdapter.

Module HMMPTPScheduleAdapter.

(** The fields of the query object that [ScheduleQueryParams] does not
    declare and only this adapter reads through [(params as any)]. *)
Record Extensions := {
  weekTerm : option string;
  receiveTermCode : option string;
  deliveryTermCode : option string;
  webSort : option string;
  webPriority : option string
}.

Section Adapter.

Variable Date_parse : string -> option Z.
Variable Date_toISOString : Z -> string.
Variable clock : Clock.
Variable config : CarrierConfig.

(** [HMMPTPScheduleAdapter.getSchedule]. *)
Definition getSchedule (ext : Extensions) (params : Params)
  : Prog HMMPTPScheduleMapper.HMMPTPScheduleResponse (list ServiceSchedule) :=
  match endpointOf (ptpSchedule (apis config)) with
  | None => Throw "PTP Schedule API endpoint not configured for HMM"
  | Some endpoint =>
      let fromLocationCode :=
        JS.or (fromLocationCode params) (q_UNLocationCode params) in
      let toLocationCode := toLocationCode params in
      let periodDate := JS.or (periodDate params) (q_startDate params) in
      let weekTerm := JS.orElse (weekTerm ext) "2" in
      let receiveTermCode := JS.orElse (receiveTermCode ext) "CY" in
      let deliveryTermCode := JS.orElse (deliveryTermCode ext) "CY" in
      let webSort := JS.orElse (webSort ext) "D" in
      let webPriority := JS.orElse (webPriority ext) "A" in
      if negb (JS.truthy fromLocationCode) then
        Throw "HMM PTP Schedule API requires fromLocationCode parameter"
      else if negb (JS.truthy toLocationCode) then
        Throw "HMM PTP Schedule API requires toLocationCode parameter"
      else if negb (JS.truthy periodDate) then
        Throw "HMM PTP Schedule API requires periodDate parameter"
      else
        let hmmPeriodDate := convertToHMMDateFormat (JS.orElse periodDate "") in
        let queryParams : gmap string string :=
          setIf "webPriority" (Some webPriority)
            (setIf "webSort" (Some webSort)
            (<[ "weekTerm" := weekTerm ]>
            (<[ "periodDate" := hmmPeriodDate ]>
            (<[ "deliveryTermCode" := deliveryTermCode ]>
            (<[ "toLocationCode" := JS.orElse toLocationCode "" ]>
            (<[ "receiveTermCode" := receiveTermCode ]>
            {[ "fromLocationCode" := JS.orElse fromLocationCode "" ]})))))) in
        let requestBody : gmap string string :=
          setIf "webPriority" (Some webPriority)
            (setIf "webSort" (Some webSort)
            (<[ "weekTerm" := weekTerm ]>
            (<[ "periodDate" := hmmPeriodDate ]>
            (<[ "deliveryTermCode" := deliveryTermCode ]>
            (<[ "toLocationCode" := JS.orElse toLocationCode "" ]>
            (<[ "receiveTermCode" := receiveTermCode ]>
            {[ "fromLocationCode" := JS.orElse fromLocationCode "" ]})))))) in
        Http {| rq_method := POST; rq_url := endpoint;
                rq_params := queryParams; rq_headers := ∅;
                rq_body := requestBody |}
          (fun outcome =>
             match outcome with
             | Response response =>
                 let resultCode := HMMPTPScheduleMapper.resultCode response in
                 if JS.truthy resultCode
                    && negb (String.eqb (JS.orElse resultCode "") "Success")
                 then
                   Throw ("HMM PTP Schedule API error: "
                          ++ JS.orElse resultCode "" ++ " - "
                          ++ JS.orElse (HMMPTPScheduleMapper.resultMessage response)
                               "Unknown error")
                 else
                   match runMapper
                           (HMMPTPScheduleMapper.mapHMMPTPScheduleToDCSA
                              Date_parse Date_toISOString response
                              (JS.orElse fromLocationCode "")
                              (JS.orElse toLocationCode "")) clock with
                   | inl e => Throw e
                   | inr schedules => Ret schedules
                   end
             | Failure response message =>
                 rethrowHMM "HMM PTP Schedule" response message
             end)
  end.

End Adapter.
End HMMPTPScheduleAdapter.


(* ===================================================================== *)
(** ** adapters/carriers/maersk/MaerskPortScheduleAdapter.ts *)
(* ===================================================================== *)

Module MaerskPortScheduleAdapter.

(** The vendor payload ([MaerskPortSchedule]). *)
Module Payload.

Record Location := {
  locationName : option string;
  UNLocationCode : option string;
  facilitySMDGCode : option string
}.

Record ServicePartner := {
  carrierServiceName : string;
  carrierServiceCode : string;
  carrierImportVoyageNumber : string;
  carrierExportVoyageNumber : string
}.

Record PortVesselSchedule := {
  universalServiceReference : option string;
  servicePartners : list ServicePartner;
  vessel : option Vessel;
  isDummyVessel : bool;
  universalImportVoyageReference : option string;
  universalExportVoyageReference : option string;
  timestamps : list Timestamp;
  cutOffTimes : option (list CutOffTime)
}.

Record MaerskPortSchedule := {
  location : Location;
  vesselSchedules : list PortVesselSchedule
}.

End Payload.

(** A template literal prints an absent value as 'undefined'. *)
Definition orUndefined (v : option string) : string :=
  match v with
  | Some s => s
  | None => "undefined"
  end.

(** The transport call of a vessel schedule of the payload. *)
Definition callOf (portSchedule : Payload.MaerskPortSchedule)
    (vesselSchedule : Payload.PortVesselSchedule)
    (servicePartner : Payload.ServicePartner) : TransportCall :=
  Build_TransportCall
    (* transportCallReference *)
    ("port-"
     ++ orUndefined (Payload.UNLocationCode (Payload.location portSchedule))
     ++ "-" ++ Payload.carrierExportVoyageNumber servicePartner)
    (* portVisitReference *) None
    (* carrierImportVoyageNumber *)
    (Payload.carrierImportVoyageNumber servicePartner)
    (* carrierExportVoyageNumber *)
    (Some (Payload.carrierExportVoyageNumber servicePartner))
    (* universalImportVoyageReference *)
    (Payload.universalImportVoyageReference vesselSchedule)
    (* universalExportVoyageReference *)
    (Payload.universalExportVoyageReference vesselSchedule)
    (* location *)
    (Build_TransportCallLocation
       (Payload.locationName (Payload.location portSchedule))
       (Payload.UNLocationCode (Payload.location portSchedule))
       None
       (Payload.facilitySMDGCode (Payload.location portSchedule)))
    (* timestamps *) (Payload.timestamps vesselSchedule)
    (* cutOffTimes *) (Payload.cutOffTimes vesselSchedule).

(** The body of the inner loop, over the vessel schedules of a port
    schedule. *)
Definition processVesselSchedule (portSchedule : Payload.MaerskPortSchedule)
    (serviceMap : list (string * ServiceSchedule))
    (vesselSchedule : Payload.PortVesselSchedule)
  : list (string * ServiceSchedule) :=
  match Payload.servicePartners vesselSchedule with
  | [] => serviceMap
  | servicePartner :: _ =>
      let serviceCode := Payload.carrierServiceCode servicePartner in
      let serviceName := Payload.carrierServiceName servicePartner in
      let serviceMap1 :=
        if MaerskPointToPointAdapter.mapHas serviceMap serviceCode then serviceMap
        else
          (serviceMap
           ++ [ (serviceCode,
                 Build_ServiceSchedule serviceCode serviceName
                   (Payload.universalServiceReference vesselSchedule) []) ])%list in
      let vesselIMO :=
        JS.orElse (option_map vesselIMONumber (Payload.vessel vesselSchedule))
          "0000000" in
      let fresh :=
        Build_VesselSchedule (Payload.vessel vesselSchedule)
          (Payload.isDummyVessel vesselSchedule) (Some []) in
      MaerskPointToPointAdapter.mapUpdate serviceMap1 serviceCode
        (fun schedule =>
           Build_ServiceSchedule
             (carrierServiceCode schedule) (carrierServiceName schedule)
             (universalServiceReference schedule)
             (MaerskPointToPointAdapter.findOrCreateAndPush vesselIMO fresh
                (callOf portSchedule vesselSchedule servicePartner)
                (vesselSchedules schedule)))
  end.

(** [mapPortScheduleToDCSA]. *)
Definition mapPortScheduleToDCSA (portSchedules : list Payload.MaerskPortSchedule)
  : list ServiceSchedule :=
  let serviceMap :=
    fold_left
      (fun m portSchedule =>
         fold_left (processVesselSchedule portSchedule)
                   (Payload.vesselSchedules portSchedule) m)
      portSchedules [] in
  List.filter (fun schedule => (0 <? length (vesselSchedules schedule))%nat)
              (map snd serviceMap).

Section Adapter.

(** [toISOString] and the current instant of the host. *)
Variable Date_toISOString : Z -> string.
Variable now : Z.
Variable config : CarrierConfig.

(** [MaerskPortScheduleAdapter.getSchedule]. *)
Definition getSchedule (params : Params)
  : Prog (list Payload.MaerskPortSchedule) (list ServiceSchedule) :=
  match endpointOf (portSchedule (apis config)) with
  | None => Throw "Port Schedule API endpoint not configured for Maersk"
  | Some endpoint =>
      if negb (JS.truthy (q_UNLocationCode params)) then
        Throw "Maersk Port Schedule API requires UNLocationCode parameter"
      else
        let date :=
          JS.orElse (JS.or (date params) (q_startDate params))
            (splitHead "T"%char (Date_toISOString now)) in
        let queryParams : gmap string string :=
          setIf "cursor" (q_cursor params)
          (setIf "limit" (if JS.truthyN (q_limit params)
                          then option_map pretty (q_limit params) else None)
          (<[ "date" := date ]>
           {[ "UNLocationCode" := JS.orElse (q_UNLocationCode params) "" ]})) in
        let headers : gmap string string :=
          match portSchedule (apis config) with
          | Some a =>
              if String.eqb (version a) "" then ∅
              else {[ "API-Version" := splitHead "."%char (version a) ]}
          | None => ∅
          end in
        Http {| rq_method := GET; rq_url := endpoint;
                rq_params := queryParams; rq_headers := headers;
                rq_body := ∅ |}
          (fun outcome =>
             match outcome with
             | Response response => Ret (mapPortScheduleToDCSA response)
             | Failure response message =>
                 rethrow "Maersk Port Schedule" response message
             end)
  end.

End Adapter.
End MaerskPortScheduleAdapter.

(* ===================================================================== *)
(** ** adapters/carriers/maersk/MaerskAdapter.ts *)
(* ===================================================================== *)

Module MaerskAdapter.
Section Router.

Context {T : Type}.
Variables scheduleAdapter pointToPointAdapter portScheduleAdapter : Params -> T.

(** [MaerskAdapter.getSchedule]. *)
Definition getSchedule (params : Params) : T :=
  let placeOfReceipt := placeOfReceipt params in
  let placeOfDelivery := placeOfDelivery params in
  let date := date params in
  let vesselIMONumber := q_vesselIMONumber params in
  let carrierVoyageNumber := q_carrierVoyageNumber params in
  let carrierServiceCode := q_carrierServiceCode params in
  (* Priority 1: Point-to-Point Routes API *)
  if JS.truthy placeOfReceipt && JS.truthy placeOfDelivery then
    pointToPointAdapter params
  (* Priority 2: Port Schedule API *)
  else if JS.truthy (q_UNLocationCode params)
          && (JS.truthy date || JS.truthy (q_startDate params))
          && negb (JS.truthy vesselIMONumber)
          && negb (JS.truthy carrierVoyageNumber)
          && negb (JS.truthy carrierServiceCode) then
    portScheduleAdapter params
  (* Priority 3: Vessel Schedule API *)
  else
    scheduleAdapter params.

End Router.
End MaerskAdapter.

(** A vessel schedule of a Maersk port-schedule payload names a service
    partner. *)
Definition hasServicePartner
    (vs : MaerskPortScheduleAdapter.Payload.PortVesselSchedule) : bool :=
  match MaerskPortScheduleAdapter.Payload.servicePartners vs with
  | [] => false
  | _ :: _ => true
  end.

(* ===================================================================== *)
(** ** domain/models/tracking.ts *)
(* ===================================================================== *)

Module Tracking.

(** domain/models/common.ts: [Facility], [Location]. *)
Record Facility := {
  facilityCode : string;
  facilityCodeListProvider : string
}.

Record Location := {
  locationName : option string;
  UNLocationCode : option string;
  address : option Address;
  facility : option Facility;
  latitude : option string;
  longitude : option string
}.

(** The transport call of a tracking event. *)
Module TransportCall.
Record t := {
  transportCallID : string;
  carrierServiceCode : option string;
  carrierVoyageNumber : option string;
  exportVoyageNumber : option string;
  importVoyageNumber : option string;
  transportCallSequenceNumber : option Z;
  UNLocationCode : option string;
  facilityCode : option string;
  facilityCodeListProvider : option string;
  facilityTypeCode : option string;
  otherFacility : option string;
  modeOfTransport : string;
  location : option Location;
  vessel : option Vessel
}.
End TransportCall.

Record DocumentReference := {
  documentReferenceType : string;
  documentReferenceValue : string
}.

Record Reference := {
  referenceType : string;
  referenceValue : string
}.

Record Seal := {
  sealNumber : string;
  sealType : string;
  sealSource : option string
}.

Module ShipmentEvent.
Record t := {
  eventID : option string;
  eventCreatedDateTime : string;
  eventClassifierCode : string;
  eventDateTime : string;
  shipmentEventTypeCode : string;
  documentID : string;
  documentTypeCode : string;
  shipmentID : option string;
  reason : option string;
  references : option (list Reference)
}.
End ShipmentEvent.

Module TransportEvent.
Record t := {
  eventID : option string;
  eventCreatedDateTime : string;
  eventClassifierCode : string;
  eventDateTime : string;
  transportEventTypeCode : string;
  transportCall : TransportCall.t;
  delayReasonCode : option string;
  changeRemark : option string;
  documentReferences : option (list DocumentReference);
  references : option (list Reference)
}.
End TransportEvent.

Module EquipmentEvent.
Record t := {
  eventID : option string;
  eventCreatedDateTime : string;
  eventClassifierCode : string;
  eventDateTime : string;
  equipmentEventTypeCode : string;
  equipmentReference : option string;
  ISOEquipmentCode : option string;
  emptyIndicatorCode : string;
  eventLocation : option Location;
  transportCall : option TransportCall.t;
  documentReferences : option (list DocumentReference);
  references : option (list Reference);
  seals : option (list Seal)
}.
End EquipmentEvent.

(** [TrackingEvent]; the constructor is the [eventType]. *)
Inductive TrackingEvent :=
| SHIPMENT (e : ShipmentEvent.t)
| TRANSPORT (e : TransportEvent.t)
| EQUIPMENT (e : EquipmentEvent.t).

(** [TrackingQueryParams]. *)
Record TrackingQueryParams := {
  eventType : option (list string);
  shipmentEventTypeCode : option (list string);
  transportEventTypeCode : option (list string);
  equipmentEventTypeCode : option (list string);
  documentTypeCode : option (list string);
  carrierBookingReference : option string;
  transportDocumentReference : option string;
  equipmentReference : option string;
  transportCallID : option string;
  vesselIMONumber : option string;
  exportVoyageNumber : option string;
  carrierServiceCode : option string;
  q_UNLocationCode : option string;
  eventCreatedDateTime : option string;
  eventDateTime : option string;
  limit : option JS.num;
  cursor : option string;
  behalfOf : option string
}.

End Tracking.

(* ===================================================================== *)
(** ** adapters/carriers/hmm/mappers/trackingMapper.ts *)
(* ===================================================================== *)

Module HMMTrackingMapper.

Record HMMReference := {
  referenceType : option string;
  referenceValue : option string
}.

Record HMMDocumentReference := {
  documentReferenceType : option string;
  documentReferenceValue : option string
}.

Record HMMSeal := {
  sealNumber : option string;
  sealType : option string;
  sealSource : option string
}.

Record HMMVessel := {
  vesselIMONumber : option string;
  vesselName : option string;
  vesselFlag : option string;
  vesselCallSignNumber : option string;
  vesselOperatorCarrierCode : option string
}.

Record HMMTransportCall := {
  transportCallID : option string;
  carrierServiceCode : option string;
  exportVoyageNumber : option string;
  importVoyageNumber : option string;
  transportCallSequenceNumber : option Z;
  UNLocationCode : option string;
  facilityCode : option string;
  facilityTypeCode : option string;
  otherFacility : option string;
  modeOfTransport : option string;
  location : option string;
  vessel : option HMMVessel
}.

Module HMMShipmentEvent.
Record t := {
  eventID : option string;
  eventCreatedDateTime : option string;
  eventClassifierCode : option string;
  eventDateTime : option string;
  shipmentEventTypeCode : option string;
  documentId : option string;
  documentTypeCode : option string;
  shipmentID : option string;
  reason : option string;
  references : option (list HMMReference)
}.
End HMMShipmentEvent.

Module HMMTransportEvent.
Record t := {
  eventID : option string;
  eventCreatedDateTime : option string;
  eventClassifierCode : option string;
  eventDateTime : option string;
  transportEventTypeCode : option string;
  transportCall : option HMMTransportCall;
  delayReasonCode : option string;
  changeRemark : option string;
  documentReferences : option (list HMMDocumentReference);
  references : option (list HMMReference)
}.
End HMMTransportEvent.

Module HMMEquipmentEvent.
Record t := {
  eventID : option string;
  eventCreatedDateTime : option string;
  eventClassifierCode : option string;
  eventDateTime : option string;
  equipmentEventTypeCode : option string;
  equipmentReference : option string;
  ISOEquipmentCode : option string;
  emptyIndicatorCode : option string;
  eventLocation : option string;
  transportCall : option HMMTransportCall;
  documentReferences : option (list HMMDocumentReference);
  references : option (list HMMReference);
  seals : option (list HMMSeal)
}.
End HMMEquipmentEvent.

(** The fields of the response the mapper reads: [equipment_ISOEquipmentCode]
    is [equipment?.ISOEquipmentCode]; each of the three event lists is [None]
    when absent or not an array, which the mapper tests. The other array
    fields ([transportCall] here; [references], [documentReferences] and
    [seals] of the events) hold an array of their declared type, or [None]
    when absent: the mapper does not test them with [Array.isArray], and a
    value of another type, on which its [for...of] or [?.map] throws, is not
    a value of this model. *)
Record HMMTrackingResponse := {
  equipment_ISOEquipmentCode : option string;
  shipmentEvent : option (list HMMShipmentEvent.t);
  transportEvent : option (list HMMTransportEvent.t);
  equipmentEvent : option (list HMMEquipmentEvent.t);
  transportCall : option (list HMMTransportCall)
}.

(** [m.set(k, v)] on a JavaScript [Map]: the value is replaced in place, a
    new key goes last. *)
Fixpoint mapSet {V} (m : list (string * V)) (k : string) (v : V)
  : list (string * V) :=
  match m with
  | [] => [(k, v)]
  | (k', v') :: m' =>
      if String.eqb k' k then (k', v) :: m' else (k', v') :: mapSet m' k v
  end.

Section Mapper.

(** [Date.prototype.toISOString] of the host. *)
Variable Date_toISOString : Z -> string.

Local Open Scope mapper_scope.

(** [new Date().toISOString()]. *)
Definition nowISO : Mapper string :=
  do t <- Date_now ; mret (Date_toISOString t).

(** [v || new Date().toISOString()]. *)
Definition orNowISO (v : option string) : Mapper string :=
  if JS.truthy v then mret (JS.orElse v "") else nowISO.

(** [id || `temp-${Date.now()}`]. *)
Definition orTempID (id : option string) : Mapper string :=
  if JS.truthy id then mret (JS.orElse id "")
  else do t <- Date_now ; mret ("temp-" ++ pretty t).

(** [mapHMMTransportCallToDCSA]. *)
Definition mapHMMTransportCallToDCSA (hmmTc : HMMTransportCall)
  : Mapper Tracking.TransportCall.t :=
  do id <- orTempID (transportCallID hmmTc) ;
  let place := JS.or (UNLocationCode hmmTc) (location hmmTc) in
  mret (Tracking.TransportCall.Build_t
          (* transportCallID *) id
          (* carrierServiceCode *) (carrierServiceCode hmmTc)
          (* carrierVoyageNumber *) None
          (* exportVoyageNumber *) (exportVoyageNumber hmmTc)
          (* importVoyageNumber *) (importVoyageNumber hmmTc)
          (* transportCallSequenceNumber *) (transportCallSequenceNumber hmmTc)
          (* UNLocationCode *) place
          (* facilityCode *) (facilityCode hmmTc)
          (* facilityCodeListProvider *)
          (if JS.truthy (facilityCode hmmTc) then Some "SMDG" else None)
          (* facilityTypeCode *) (facilityTypeCode hmmTc)
          (* otherFacility *) (otherFacility hmmTc)
          (* modeOfTransport *)
          (JS.orElse (option_map JS.toUpperCase (modeOfTransport hmmTc)) "VESSEL")
          (* location *)
          (if JS.truthy place
           then Some (Tracking.Build_Location None place None None None None)
           else None)
          (* vessel *)
          (option_map
             (fun v => Build_Vessel
                         (JS.orElse (vesselIMONumber v) "")
                         (* name *) (vesselName v)
                         (* flag *) (vesselFlag v)
                         (* callSign *) (vesselCallSignNumber v)
                         (* MMSINumber *) None
                         (* operatorCarrierCode *) (vesselOperatorCarrierCode v)
                         (* operatorCarrierCodeListProvider *) None)
             (vessel hmmTc))).

Definition mapReferences (refs : option (list HMMReference))
  : option (list Tracking.Reference) :=
  option_map
    (map (fun ref => Tracking.Build_Reference
                       (JS.orElse (referenceType ref) "FF")
                       (JS.orElse (referenceValue ref) "")))
    refs.

Definition mapDocumentReferences (refs : option (list HMMDocumentReference))
  : option (list Tracking.DocumentReference) :=
  option_map
    (map (fun ref => Tracking.Build_DocumentReference
                       (JS.orElse (documentReferenceType ref) "BKG")
                       (JS.orElse (documentReferenceValue ref) "")))
    refs.

(** The map from [transportCallID] to transport call built from the
    [transportCall] array of the response. *)
Definition buildTransportCallMap (calls : option (list HMMTransportCall))
  : Mapper (list (string * Tracking.TransportCall.t)) :=
  do sets <- mfor (fun tc =>
                     if JS.truthy (transportCallID tc)
                     then do call <- mapHMMTransportCallToDCSA tc ;
                          mret (Some (JS.orElse (transportCallID tc) "", call))
                     else mret None)
                  (default [] calls) ;
  mret (fold_left (fun m kv => mapSet m (fst kv) (snd kv)) (omap id sets) []).

(** The transport call of a transport or equipment event: the call of the
    event itself, else the call the map holds for its identifier, else a
    minimal call. *)
Definition eventTransportCall
    (transportCallMap : list (string * Tracking.TransportCall.t))
    (eventCall : option HMMTransportCall) : Mapper Tracking.TransportCall.t :=
  do own <- match eventCall with
            | Some tc => do c <- mapHMMTransportCallToDCSA tc ; mret (Some c)
            | None => mret None
            end ;
  let found :=
    match own with
    | Some c => Some c
    | None =>
        if JS.truthy (eventCall ≫= transportCallID)
        then MaerskPointToPointAdapter.mapGet transportCallMap
               (JS.orElse (eventCall ≫= transportCallID) "")
        else None
    end in
  match found with
  | Some c => mret c
  | None =>
      do id <- orTempID (eventCall ≫= transportCallID) ;
      mret (Tracking.TransportCall.Build_t
              id None None None None None None None None None None
              (JS.orElse (eventCall ≫= modeOfTransport) "VESSEL")
              None None)
  end.

Definition mapShipmentEvent (hmmEvent : HMMShipmentEvent.t)
  : Mapper Tracking.TrackingEvent :=
  do created <- orNowISO (HMMShipmentEvent.eventCreatedDateTime hmmEvent) ;
  do dateTime <- orNowISO (JS.or (HMMShipmentEvent.eventDateTime hmmEvent)
                             (HMMShipmentEvent.eventCreatedDateTime hmmEvent)) ;
  mret (Tracking.SHIPMENT
          (Tracking.ShipmentEvent.Build_t
             (* eventID *) (HMMShipmentEvent.eventID hmmEvent)
             (* eventCreatedDateTime *) created
             (* eventClassifierCode *)
             (JS.orElse (HMMShipmentEvent.eventClassifierCode hmmEvent) "EST")
             (* eventDateTime *) dateTime
             (* shipmentEventTypeCode *)
             (JS.orElse (HMMShipmentEvent.shipmentEventTypeCode hmmEvent) "RECE")
             (* documentID *)
             (JS.orElse (HMMShipmentEvent.documentId hmmEvent) "")
             (* documentTypeCode *)
             (JS.orElse (HMMShipmentEvent.documentTypeCode hmmEvent) "BKG")
             (* shipmentID *) (HMMShipmentEvent.shipmentID hmmEvent)
             (* reason *) (HMMShipmentEvent.reason hmmEvent)
             (* references *)
             (mapReferences (HMMShipmentEvent.references hmmEvent)))).

Definition mapTransportEvent
    (transportCallMap : list (string * Tracking.TransportCall.t))
    (hmmEvent : HMMTransportEvent.t) : Mapper Tracking.TrackingEvent :=
  do call <- eventTransportCall transportCallMap
               (HMMTransportEvent.transportCall hmmEvent) ;
  do created <- orNowISO (HMMTransportEvent.eventCreatedDateTime hmmEvent) ;
  do dateTime <- orNowISO (JS.or (HMMTransportEvent.eventDateTime hmmEvent)
                             (HMMTransportEvent.eventCreatedDateTime hmmEvent)) ;
  mret (Tracking.TRANSPORT
          (Tracking.TransportEvent.Build_t
             (* eventID *) (HMMTransportEvent.eventID hmmEvent)
             (* eventCreatedDateTime *) created
             (* eventClassifierCode *)
             (JS.orElse (HMMTransportEvent.eventClassifierCode hmmEvent) "EST")
             (* eventDateTime *) dateTime
             (* transportEventTypeCode *)
             (JS.orElse (HMMTransportEvent.transportEventTypeCode hmmEvent) "ARRI")
             (* transportCall *) call
             (* delayReasonCode *) (HMMTransportEvent.delayReasonCode hmmEvent)
             (* changeRemark *) (HMMTransportEvent.changeRemark hmmEvent)
             (* documentReferences *)
             (mapDocumentReferences
                (HMMTransportEvent.documentReferences hmmEvent))
             (* references *)
             (mapReferences (HMMTransportEvent.references hmmEvent)))).

Definition mapEquipmentEvent (hmmResponse : HMMTrackingResponse)
    (transportCallMap : list (string * Tracking.TransportCall.t))
    (hmmEvent : HMMEquipmentEvent.t) : Mapper Tracking.TrackingEvent :=
  do call <- eventTransportCall transportCallMap
               (HMMEquipmentEvent.transportCall hmmEvent) ;
  do created <- orNowISO (HMMEquipmentEvent.eventCreatedDateTime hmmEvent) ;
  do dateTime <- orNowISO (JS.or (HMMEquipmentEvent.eventDateTime hmmEvent)
                             (HMMEquipmentEvent.eventCreatedDateTime hmmEvent)) ;
  mret (Tracking.EQUIPMENT
          (Tracking.EquipmentEvent.Build_t
             (* eventID *) (HMMEquipmentEvent.eventID hmmEvent)
             (* eventCreatedDateTime *) created
             (* eventClassifierCode *)
             (JS.orElse (HMMEquipmentEvent.eventClassifierCode hmmEvent) "EST")
             (* eventDateTime *) dateTime
             (* equipmentEventTypeCode *)
             (JS.orElse (HMMEquipmentEvent.equipmentEventTypeCode hmmEvent) "GTIN")
             (* equipmentReference *)
             (HMMEquipmentEvent.equipmentReference hmmEvent)
             (* ISOEquipmentCode *)
             (if JS.truthy (HMMEquipmentEvent.ISOEquipmentCode hmmEvent)
              then HMMEquipmentEvent.ISOEquipmentCode hmmEvent
              else equipment_ISOEquipmentCode hmmResponse)
             (* emptyIndicatorCode *)
             (JS.orElse (option_map JS.toUpperCase
                           (HMMEquipmentEvent.emptyIndicatorCode hmmEvent))
                "LADEN")
             (* eventLocation *)
             (if JS.truthy (HMMEquipmentEvent.eventLocation hmmEvent)
              then Some (Tracking.Build_Location None
                           (HMMEquipmentEvent.eventLocation hmmEvent)
                           None None None None)
              else None)
             (* transportCall *) (Some call)
             (* documentReferences *)
             (mapDocumentReferences
                (HMMEquipmentEvent.documentReferences hmmEvent))
             (* references *)
             (mapReferences (HMMEquipmentEvent.references hmmEvent))
             (* seals *)
             (option_map
                (map (fun seal => Tracking.Build_Seal
                                    (JS.orElse (sealNumber seal) "")
                                    (JS.orElse (sealType seal) "WIR")
                                    (sealSource seal)))
                (HMMEquipmentEvent.seals hmmEvent)))).

(** [mapHMMTrackingToDCSA]. *)
Definition mapHMMTrackingToDCSA (hmmResponse : HMMTrackingResponse)
  : Mapper (list Tracking.TrackingEvent) :=
  do transportCallMap <- buildTransportCallMap (transportCall hmmResponse) ;
  do shipments <- mfor mapShipmentEvent (default [] (shipmentEvent hmmResponse)) ;
  do transports <- mfor (mapTransportEvent transportCallMap)
                     (default [] (transportEvent hmmResponse)) ;
  do equipments <- mfor (mapEquipmentEvent hmmResponse transportCallMap)
                     (default [] (equipmentEvent hmmResponse)) ;
  mret (shipments ++ transports ++ equipments)%list.

End Mapper.

End HMMTrackingMapper.

(* ===================================================================== *)
(** ** Tracking adapters: HMMTrackingAdapter.ts, ZIMTrackingAdapter.ts,
       MaerskTrackingAdapter.ts *)
(* ===================================================================== *)

(** [if (list && list.length > 0) queryParams[k] = list.join(',')]. *)
Definition setIfList (k : string) (v : option (list string))
    (m : gmap string string) : gmap string string :=
  match v with
  | Some (x :: l) => <[ k := JS.join "," (x :: l) ]> m
  | _ => m
  end.

(** [if (params.limit) queryParams.limit = params.limit.toString()]. *)
Definition setIfNum (k : string) (v : option JS.num)
    (m : gmap string string) : gmap string string :=
  if JS.truthyNum v then
    match v with
    | Some n => <[ k := JS.numToString n ]> m
    | None => m
    end
  else m.

Module HMMTrackingAdapter.
Section Adapter.

Variable Date_toISOString : Z -> string.
Variable clock : Clock.
Variable config : CarrierConfig.

(** [HMMTrackingAdapter.getTracking]. *)
Definition getTracking (params : Tracking.TrackingQueryParams)
  : Prog HMMTrackingMapper.HMMTrackingResponse (list Tracking.TrackingEvent) :=
  match endpointOf (tracking (apis config)) with
  | None => Throw "Tracking API endpoint not configured for HMM"
  | Some endpoint =>
      if negb (JS.truthy (Tracking.carrierBookingReference params))
         || negb (JS.truthy (Tracking.equipmentReference params)) then
        Throw "HMM Tracking API requires both carrierBookingReference and equipmentReference parameters"
      else
        let queryParams : gmap string string :=
          <[ "equipmentReference" :=
               JS.orElse (Tracking.equipmentReference params) "" ]>
          {[ "carrierBookingReference" :=
               JS.orElse (Tracking.carrierBookingReference params) "" ]} in
        Http {| rq_method := GET; rq_url := endpoint;
                rq_params := queryParams; rq_headers := ∅; rq_body := ∅ |}
          (fun outcome =>
             match outcome with
             | Response response =>
                 match runMapper
                         (HMMTrackingMapper.mapHMMTrackingToDCSA Date_toISOString
                            response) clock with
                 | inl e => Throw e
                 | inr events => Ret events
                 end
             | Failure response message =>
                 rethrowHMM "HMM Tracking" response message
             end)
  end.

End Adapter.
End HMMTrackingAdapter.

Module ZIMTrackingAdapter.
Section Adapter.

Variable config : CarrierConfig.

(** [ZIMTrackingAdapter.getTracking]: the response is returned as it is. *)
Definition getTracking (params : Tracking.TrackingQueryParams)
  : Prog (list Tracking.TrackingEvent) (list Tracking.TrackingEvent) :=
  match endpointOf (tracking (apis config)) with
  | None => Throw "Tracking API endpoint not configured for ZIM"
  | Some endpoint =>
      if negb (JS.truthy (Tracking.carrierBookingReference params))
         && negb (JS.truthy (Tracking.transportDocumentReference params))
         && negb (JS.truthy (Tracking.equipmentReference params)) then
        Throw ("ZIM Tracking API requires at least one of: carrierBookingReference, "
               ++ "transportDocumentReference, or equipmentReference")
      else
        let queryParams : gmap string string :=
          setIf "cursor" (Tracking.cursor params)
          (setIfNum "limit" (Tracking.limit params)
          (setIf "eventCreatedDateTime" (Tracking.eventCreatedDateTime params)
          (setIf "UNLocationCode" (Tracking.q_UNLocationCode params)
          (setIf "carrierServiceCode" (Tracking.carrierServiceCode params)
          (setIf "exportVoyageNumber" (Tracking.exportVoyageNumber params)
          (setIf "vesselIMONumber" (Tracking.vesselIMONumber params)
          (setIfList "equipmentEventTypeCode"
             (Tracking.equipmentEventTypeCode params)
          (setIfList "transportEventTypeCode"
             (Tracking.transportEventTypeCode params)
          (setIfList "eventType" (Tracking.eventType params)
          (setIf "equipmentReference" (Tracking.equipmentReference params)
          (setIf "transportDocumentReference"
             (Tracking.transportDocumentReference params)
          (setIf "carrierBookingReference"
             (Tracking.carrierBookingReference params) ∅)))))))))))) in
        Http {| rq_method := GET; rq_url := endpoint;
                rq_params := queryParams; rq_headers := ∅; rq_body := ∅ |}
          (fun outcome =>
             match outcome with
             | Response response => Ret response
             | Failure response message =>
                 rethrow "ZIM Tracking" response message
             end)
  end.

End Adapter.
End ZIMTrackingAdapter.

Module MaerskTrackingAdapter.
Section Adapter.

Variable config : CarrierConfig.

(** [MaerskTrackingAdapter.getTracking]. The response is the [events]
    property of the wrapper Maersk answers with, [None] when it is absent. *)
Definition getTracking (params : Tracking.TrackingQueryParams)
  : Prog (option (list Tracking.TrackingEvent)) (list Tracking.TrackingEvent) :=
  match endpointOf (tracking (apis config)) with
  | None => Throw "Tracking API endpoint not configured for Maersk"
  | Some endpoint =>
      if negb (JS.truthy (Tracking.carrierBookingReference params))
         && negb (JS.truthy (Tracking.transportDocumentReference params))
         && negb (JS.truthy (Tracking.equipmentReference params)) then
        Throw ("Maersk Tracking API requires at least one of: carrierBookingReference, "
               ++ "transportDocumentReference, or equipmentReference")
      else
        let queryParams : gmap string string :=
          setIf "cursor" (Tracking.cursor params)
          (setIfNum "limit" (Tracking.limit params)
          (setIf "eventCreatedDateTime" (Tracking.eventCreatedDateTime params)
          (setIf "UNLocationCode" (Tracking.q_UNLocationCode params)
          (setIf "carrierServiceCode" (Tracking.carrierServiceCode params)
          (setIf "exportVoyageNumber" (Tracking.exportVoyageNumber params)
          (setIf "vesselIMONumber" (Tracking.vesselIMONumber params)
          (setIfList "documentTypeCode" (Tracking.documentTypeCode params)
          (setIfList "equipmentEventTypeCode"
             (Tracking.equipmentEventTypeCode params)
          (setIfList "transportEventTypeCode"
             (Tracking.transportEventTypeCode params)
          (setIfList "shipmentEventTypeCode"
             (Tracking.shipmentEventTypeCode params)
          (setIfList "eventType" (Tracking.eventType params)
          (setIf "equipmentReference" (Tracking.equipmentReference params)
          (setIf "transportDocumentReference"
             (Tracking.transportDocumentReference params)
          (setIf "carrierBookingReference"
             (Tracking.carrierBookingReference params) ∅)))))))))))))) in
        let headers : gmap string string :=
          match tracking (apis config) with
          | Some a =>
              if String.eqb (version a) "" then ∅
              else {[ "API-Version" := splitHead "."%char (version a) ]}
          | None => ∅
          end in
        Http {| rq_method := GET; rq_url := endpoint;
                rq_params := queryParams; rq_headers := headers;
                rq_body := ∅ |}
          (fun outcome =>
             match outcome with
             | Response response => Ret (default [] response)
             | Failure response message =>
                 rethrow "Maersk Tracking" response message
             end)
  end.

End Adapter.
End MaerskTrackingAdapter.

(* ===================================================================== *)
(** ** api/middleware/validation.ts, and the parameters the controllers
       build from the query string *)
(* ===================================================================== *)

Module Validation.

Record ValidationError := {
  field : string;
  message : string
}.

(** [/^\d{7}$/.test(imo)]. *)
Definition isValidIMONumber (imo : string) : bool :=
  (String.length imo =? 7)%nat && forallb JS.isDigit (list_ascii_of_string imo).

Definition isUpper (c : ascii) : bool :=
  let n := nat_of_ascii c in ((65 <=? n) && (n <=? 90))%nat.

(** [/^[A-Z]{2}[A-Z0-9]{3}$/.test(code.toUpperCase())]. *)
Definition isValidUNLocationCode (code : string) : bool :=
  match list_ascii_of_string (JS.toUpperCase code) with
  | [a; b; c; d; e] =>
      isUpper a && isUpper b
      && (isUpper c || JS.isDigit c) && (isUpper d || JS.isDigit d)
      && (isUpper e || JS.isDigit e)
  | _ => false
  end.

(** [isValidLimit] on the number [parseInt] returned. *)
Definition isValidLimit (limit : JS.num) : bool :=
  if negb (JS.truthyNum (Some limit)) then true
  else match limit with
       | JS.Int z => (0 <? z) && (z <=? 1000)
       | JS.NaN => false
       end.

(** The test of the limit parameter:
    [isNaN(limit) || !isValidLimit(limit)] raises the error. *)
Definition limitError (text : string) : bool :=
  let limit := JS.parseInt text in
  match limit with
  | JS.NaN => true
  | _ => negb (isValidLimit limit)
  end.

Section Validators.

(** [new Date(s).getTime()] of the host, [None] for [NaN]. *)
Variable Date_parse : string -> option Z.

Definition isValidDate (dateString : string) : bool :=
  match Date_parse dateString with
  | Some _ => true
  | None => false
  end.

(** [new Date(startDate) <= new Date(endDate)]: false when either is
    invalid. *)
Definition isValidDateRange (startDate endDate : option string) : bool :=
  if negb (JS.truthy startDate) || negb (JS.truthy endDate) then true
  else match Date_parse (JS.orElse startDate ""),
             Date_parse (JS.orElse endDate "") with
       | Some a, Some b => a <=? b
       | _, _ => false
       end.

(** One check of a validator: the error is raised when the parameter is
    present and the test fails. *)
Definition check (v : option string) (valid : string -> bool)
    (error : ValidationError) : list ValidationError :=
  if JS.truthy v && negb (valid (JS.orElse v "")) then [error] else [].

(** [validateScheduleQuery] on a query string in which no parameter is
    repeated: the errors collected; the request goes on to the controller
    when there is none, and is answered with status 400 otherwise. *)
Definition validateScheduleQuery (query : gmap string string)
  : list ValidationError :=
  (check (query !! "vesselIMONumber") isValidIMONumber
     {| field := "vesselIMONumber"; message := "IMO number must be 7 digits" |}
   ++ check (query !! "UNLocationCode") isValidUNLocationCode
        {| field := "UNLocationCode";
           message := "UN Location Code must be 5 characters (2 letters + 3 alphanumeric)" |}
   ++ check (query !! "startDate") isValidDate
        {| field := "startDate";
           message := "startDate must be in ISO 8601 format (YYYY-MM-DD or YYYY-MM-DDTHH:mm:ssZ)" |}
   ++ check (query !! "endDate") isValidDate
        {| field := "endDate";
           message := "endDate must be in ISO 8601 format (YYYY-MM-DD or YYYY-MM-DDTHH:mm:ssZ)" |}
   ++ (if JS.truthy (query !! "startDate") && JS.truthy (query !! "endDate")
          && negb (isValidDateRange (query !! "startDate") (query !! "endDate"))
       then [ {| field := "dateRange";
                 message := "startDate must be before or equal to endDate" |} ]
       else [])
   ++ check (query !! "limit") (fun text => negb (limitError text))
        {| field := "limit";
           message := "limit must be a number between 1 and 1000" |})%list.

(** [validateTrackingQuery]. *)
Definition validateTrackingQuery (query : gmap string string)
  : list ValidationError :=
  let hasReference :=
    JS.truthy (query !! "carrierBookingReference")
    || JS.truthy (query !! "transportDocumentReference")
    || JS.truthy (query !! "equipmentReference")
    || JS.truthy (query !! "transportCallID") in
  ((if negb hasReference
    then [ {| field := "reference";
              message := "At least one of the following must be provided: carrierBookingReference, transportDocumentReference, equipmentReference, or transportCallID" |} ]
    else [])
   ++ check (query !! "vesselIMONumber") isValidIMONumber
        {| field := "vesselIMONumber"; message := "IMO number must be 7 digits" |}
   ++ check (query !! "UNLocationCode") isValidUNLocationCode
        {| field := "UNLocationCode";
           message := "UN Location Code must be 5 characters (2 letters + 3 alphanumeric)" |}
   ++ check (query !! "eventCreatedDateTime") isValidDate
        {| field := "eventCreatedDateTime";
           message := "eventCreatedDateTime must be in ISO 8601 format" |}
   ++ check (query !! "eventDateTime") isValidDate
        {| field := "eventDateTime";
           message := "eventDateTime must be in ISO 8601 format" |}
   ++ check (query !! "limit") (fun text => negb (limitError text))
        {| field := "limit";
           message := "limit must be a number between 1 and 1000" |})%list.

End Validators.
End Validation.

(** [req.query.X ? req.query.X.split(',').map(e => e.trim().toUpperCase())
     : undefined] of [TrackingController.getTracking]. *)
Definition codeList (v : option string) : option (list string) :=
  if JS.truthy v
  then Some (map (fun e => JS.toUpperCase (JS.trim e))
                 (JS.split "," (JS.orElse v "")))
  else None.

(** The [TrackingQueryParams] that [TrackingController.getTracking] builds
    from the query string. *)
Definition trackingQueryParams (query : gmap string string)
  : Tracking.TrackingQueryParams :=
  {| Tracking.eventType := codeList (query !! "eventType");
     Tracking.shipmentEventTypeCode := codeList (query !! "shipmentEventTypeCode");
     Tracking.transportEventTypeCode :=
       codeList (query !! "transportEventTypeCode");
     Tracking.equipmentEventTypeCode :=
       codeList (query !! "equipmentEventTypeCode");
     Tracking.documentTypeCode := codeList (query !! "documentTypeCode");
     Tracking.carrierBookingReference := query !! "carrierBookingReference";
     Tracking.transportDocumentReference :=
       query !! "transportDocumentReference";
     Tracking.equipmentReference := query !! "equipmentReference";
     Tracking.transportCallID := query !! "transportCallID";
     Tracking.vesselIMONumber := query !! "vesselIMONumber";
     Tracking.exportVoyageNumber := query !! "exportVoyageNumber";
     Tracking.carrierServiceCode := query !! "carrierServiceCode";
     Tracking.q_UNLocationCode := query !! "UNLocationCode";
     Tracking.eventCreatedDateTime := query !! "eventCreatedDateTime";
     Tracking.eventDateTime := query !! "eventDateTime";
     Tracking.limit := if JS.truthy (query !! "limit")
                       then Some (JS.parseInt (JS.orElse (query !! "limit") ""))
                       else None;
     Tracking.cursor := query !! "cursor";
     Tracking.behalfOf := query !! "behalfOf" |}.

(** The [ScheduleQueryParams] that [ScheduleController.getSchedules] builds
    from the query string, for the fields the routers and adapters modelled
    here read. A [limit] that [parseInt] cannot read is [NaN], which every
    adapter treats as an absent limit. *)
Definition scheduleQueryParams (query : gmap string string) : Params :=
  {| q_vesselIMONumber := query !! "vesselIMONumber";
     q_vesselName := query !! "vesselName";
     q_carrierServiceCode := query !! "carrierServiceCode";
     q_universalServiceReference := query !! "universalServiceReference";
     q_carrierVoyageNumber := query !! "carrierVoyageNumber";
     q_universalVoyageReference := query !! "universalVoyageReference";
     q_UNLocationCode := query !! "UNLocationCode";
     q_facilitySMDGCode := query !! "facilitySMDGCode";
     q_vesselOperatorCarrierCode := query !! "vesselOperatorCarrierCode";
     q_startDate := query !! "startDate";
     q_endDate := query !! "endDate";
     q_limit := if JS.truthy (query !! "limit")
                then match JS.parseInt (JS.orElse (query !! "limit") "") with
                     | JS.Int z => Some z
                     | JS.NaN => None
                     end
                else None;
     q_cursor := query !! "cursor";
     fromLocationCode := query !! "fromLocationCode";
     toLocationCode := query !! "toLocationCode";
     periodDate := query !! "periodDate";
     placeOfLoading := query !! "placeOfLoading";
     placeOfDischarge := query !! "placeOfDischarge";
     unLocodePlaceOfLoading := query !! "unLocodePlaceOfLoading";
     unLocodePlaceOfDischarge := query !! "unLocodePlaceOfDischarge";
     voyageCode := query !! "voyageCode";
     vesselIMO := query !! "vesselIMO";
     from := query !! "from";
     to := query !! "to";
     portCode := option_map JS.Str (query !! "portCode");
     countryCode := option_map JS.Str (query !! "countryCode");
     serviceCode := query !! "serviceCode";
     lineCode := query !! "lineCode";
     zoneFromCode := query !! "zoneFromCode";
     zoneToCode := query !! "zoneToCode";
     placeOfReceipt := query !! "placeOfReceipt";
     placeOfDelivery := query !! "placeOfDelivery";
     date := query !! "date" |}.

(** The [eventType] of a tracking event. *)
Definition eventTypeOf (e : Tracking.TrackingEvent) : string :=
  match e with
  | Tracking.SHIPMENT _ => "SHIPMENT"
  | Tracking.TRANSPORT _ => "TRANSPORT"
  | Tracking.EQUIPMENT _ => "EQUIPMENT"
  end.

(** The [eventID] of a tracking event. *)
Definition eventIDOf (e : Tracking.TrackingEvent) : option string :=
  match e with
  | Tracking.SHIPMENT e => Tracking.ShipmentEvent.eventID e
  | Tracking.TRANSPORT e => Tracking.TransportEvent.eventID e
  | Tracking.EQUIPMENT e => Tracking.EquipmentEvent.eventID e
  end.



(* ===================================================================== *)
(** ** adapters/factory/CarrierAdapterFactory.ts,
       api/middleware/carrierFilter.ts *)
(* ===================================================================== *)

Module CarrierAdapterFactory.
Section Factory.

Context {Adapter : Type}.

(** [new AdapterClass()] for each of the four registered classes: [None]
    when the constructor throws. *)
Variables CMACGMAdapter HMMAdapter ZIMAdapter MaerskAdapter : option Adapter.

(** [adapter.isAvailable()]. *)
Variable isAvailable : Adapter -> bool.

Definition adapterClasses : list (string * option Adapter) :=
  [ ("CMCG", CMACGMAdapter); ("HMM", HMMAdapter); ("ZIM", ZIMAdapter);
    ("MAERSK", MaerskAdapter) ].

(** One turn of the loop of [initializeAdapters] over the configurations
    loaded, each with its test [config.enabled === false]; [adapters] is the
    [Map] of the factory, in insertion order. *)
Definition initializeAdapter (adapters : list (string * Adapter))
    (entry : string * bool) : list (string * Adapter) :=
  let '(carrierCode, disabled) := entry in
  if disabled then adapters
  else match MaerskPointToPointAdapter.mapGet adapterClasses carrierCode with
       | Some (Some adapter) =>
           if isAvailable adapter
           then HMMTrackingMapper.mapSet adapters carrierCode adapter
           else adapters
       | Some None => adapters
       | None => adapters
       end.

Definition initializeAdapters (configs : list (string * bool))
  : list (string * Adapter) :=
  fold_left initializeAdapter configs [].

End Factory.

Definition getAdapter {Adapter} (adapters : list (string * Adapter))
    (carrierCode : string) : string + Adapter :=
  match MaerskPointToPointAdapter.mapGet adapters (JS.toUpperCase carrierCode) with
  | Some adapter => inr adapter
  | None => inl ("Adapter not found or not available for carrier: " ++ carrierCode)
  end.

Definition getAvailableCarrierCodes {Adapter} (adapters : list (string * Adapter))
  : list string :=
  map fst adapters.

Definition isCarrierAvailable {Adapter} (adapters : list (string * Adapter))
    (carrierCode : string) : bool :=
  MaerskPointToPointAdapter.mapHas adapters (JS.toUpperCase carrierCode).

End CarrierAdapterFactory.

Module CarrierFilter.

Definition SUPPORTED_CARRIERS : list string :=
  ["cma-cgm"; "hmm"; "zim"; "maersk"; "all"].

(** The entries of [CARRIER_CODE_MAP]. (The properties an object literal
    inherits, such as [constructor], are not entries; the middleware lets
    none of them through.) *)
Definition CARRIER_CODE_MAP : list (string * string) :=
  [ ("cma-cgm", "CMCG"); ("hmm", "HMM"); ("zim", "ZIM"); ("maersk", "MAERSK") ].

(** What the middleware does: it answers with a status, or calls [next()]
    with [req.query.carrier] set; [Uncaught] is a [TypeError] on an
    undefined carrier code. *)
Inductive Outcome :=
| Status400 (received : string)
| Status503 (carrier : string)
| Uncaught
| Next (carrier : string).

Definition carrierFilter {Adapter} (adapters : list (string * Adapter))
    (carrier : option string) : Outcome :=
  if negb (JS.truthy carrier) then Next "all"
  else
    let carrier := JS.orElse carrier "" in
    let normalizedCarrier := JS.toLowerCase carrier in
    if negb (existsb (String.eqb normalizedCarrier) SUPPORTED_CARRIERS)
    then Status400 carrier
    else if negb (String.eqb normalizedCarrier "all") then
      match MaerskPointToPointAdapter.mapGet CARRIER_CODE_MAP normalizedCarrier with
      | Some carrierCode =>
          if negb (CarrierAdapterFactory.isCarrierAvailable adapters carrierCode)
          then Status503 carrier
          else Next normalizedCarrier
      | None => Uncaught
      end
    else Next normalizedCarrier.

Definition getCarrierCodes {Adapter} (adapters : list (string * Adapter))
    (carrierIdentifier : string) : list string :=
  if String.eqb (JS.toLowerCase carrierIdentifier) "all"
  then CarrierAdapterFactory.getAvailableCarrierCodes adapters
  else match MaerskPointToPointAdapter.mapGet CARRIER_CODE_MAP
               (JS.toLowerCase carrierIdentifier) with
       | Some carrierCode => [carrierCode]
       | None => []
       end.

(** The carrier codes a controller queries after the middleware:
    [getCarrierCodes(req.query.carrier || 'all')]. *)
Definition carrierCodesOf {Adapter} (adapters : list (string * Adapter))
    (carrier : string) : list string :=
  getCarrierCodes adapters (JS.orElse (Some carrier) "all").

End CarrierFilter.

(** The carrier codes with a registered adapter class, and what the factory
    keeps of its map: the keys are registered codes, no key occurs twice, and
    every adapter kept said it was available. *)
Definition registeredCodes : list string := ["CMCG"; "HMM"; "ZIM"; "MAERSK"].

Definition factoryInvariant {Adapter} (isAvailable : Adapter -> bool)
    (adapters : list (string * Adapter)) : Prop :=
  List.Forall (fun e => In (fst e) registeredCodes
                        /\ isAvailable (snd e) = true) adapters
  /\ List.NoDup (map fst adapters).

(* ===================================================================== *)
(** ** adapters/carriers/cma-cgm/CMACGMVoyageAdapter.ts: [mapCallsToDCSA] *)
(* ===================================================================== *)

Module CMACGMVoyageAdapter.

(** The commercial calls of the Voyage API, for the fields the mapper
    reads. *)
Module Payload.

Record Codification := {
  codificationType : string;
  codification : string
}.

Record CallLocation := {
  name : string;
  internalCode : string;
  locationCodifications : option (list Codification)
}.

Record CallVessel := {
  vessel_name : string;
  imo : string
}.

Record CallService := {
  code : string;
  service_name : string
}.

Record CallDate := {
  utc : string
}.

Record CMACGMCommercialCall := {
  id : string;
  voyageCode : string;
  location : CallLocation;
  vessel : CallVessel;
  service : CallService;
  berthDate : option CallDate;
  unberthDate : option CallDate
}.

End Payload.

(** [`${call.vessel.imo}-${call.voyageCode}`]. *)
Definition vesselKeyOf (call : Payload.CMACGMCommercialCall) : string :=
  Payload.imo (Payload.vessel call) ++ "-" ++ Payload.voyageCode call.

(** [locationCodifications?.find(loc => loc.codificationType === 'UN/Locode')
     ?.codification || internalCode]. *)
Definition unLocodeOf (l : Payload.CallLocation) : string :=
  JS.orElse
    (option_map Payload.codification
       (find (fun loc => String.eqb (Payload.codificationType loc) "UN/Locode")
             (default [] (Payload.locationCodifications l))))
    (Payload.internalCode l).

(** The [transportCall] built for one commercial call. *)
Definition transportCallOf (call : Payload.CMACGMCommercialCall) : TransportCall :=
  {| transportCallReference := Payload.id call;
     portVisitReference := None;
     carrierImportVoyageNumber := Payload.voyageCode call;
     carrierExportVoyageNumber := Some (Payload.voyageCode call);
     universalImportVoyageReference := None;
     universalExportVoyageReference := None;
     location :=
       {| locationName := Some (Payload.name (Payload.location call));
          UNLocationCode := Some (unLocodeOf (Payload.location call));
          address := None;
          facilitySMDGCode := None |};
     timestamps :=
       (match Payload.berthDate call with
        | Some d => [ {| eventTypeCode := ARRI; eventClassifierCode := EST;
                         eventDateTime := Payload.utc d |} ]
        | None => []
        end
        ++ match Payload.unberthDate call with
           | Some d => [ {| eventTypeCode := DEPA; eventClassifierCode := EST;
                            eventDateTime := Payload.utc d |} ]
           | None => []
           end)%list;
     cutOffTimes := None |}.

(** A service of [serviceMap]: its [vesselSchedules] array holds references
    to the objects of [vesselMap], kept here as their keys. *)
Record ServiceEntry := {
  se_name : string;
  se_vesselSchedules : list string
}.

(** The two maps of the mapper, in insertion order. *)
Definition Store : Type :=
  list (string * ServiceEntry) * list (string * VesselSchedule).

(** One turn of the loop over the calls. The vessel object of a key is
    created, and pushed onto the service of the current call, when the key is
    seen for the first time; the transport call is pushed onto the vessel
    object of its key, whatever service holds that object. *)
Definition fileCall (store : Store) (call : Payload.CMACGMCommercialCall)
  : Store :=
  let '(serviceMap, vesselMap) := store in
  let serviceCode := Payload.code (Payload.service call) in
  let vesselKey := vesselKeyOf call in
  let serviceMap :=
    if negb (MaerskPointToPointAdapter.mapHas serviceMap serviceCode)
    then HMMTrackingMapper.mapSet serviceMap serviceCode
           {| se_name := Payload.service_name (Payload.service call);
              se_vesselSchedules := [] |}
    else serviceMap in
  let '(serviceMap, vesselMap) :=
    if negb (MaerskPointToPointAdapter.mapHas vesselMap vesselKey)
    then (MaerskPointToPointAdapter.mapUpdate serviceMap serviceCode
            (fun e => {| se_name := se_name e;
                         se_vesselSchedules :=
                           (se_vesselSchedules e ++ [vesselKey])%list |}),
          HMMTrackingMapper.mapSet vesselMap vesselKey
            {| vessel :=
                 Some {| vesselIMONumber := Payload.imo (Payload.vessel call);
                         name := Some (Payload.vessel_name (Payload.vessel call));
                         flag := None; callSign := None; MMSINumber := None;
                         operatorCarrierCode := None;
                         operatorCarrierCodeListProvider := None |};
               isDummyVessel := false;
               transportCalls := Some [] |})
    else (serviceMap, vesselMap) in
  (serviceMap,
   MaerskPointToPointAdapter.mapUpdate vesselMap vesselKey
     (fun vs => {| vessel := vessel vs;
                   isDummyVessel := isDummyVessel vs;
                   transportCalls :=
                     Some (default [] (transportCalls vs)
                           ++ [transportCallOf call])%list |})).

(** [Array.from(serviceMap.values())], each reference read in the final
    state of the vessel object it points to. *)
Definition servicesOf (store : Store) : list ServiceSchedule :=
  let '(serviceMap, vesselMap) := store in
  map (fun '(serviceCode, e) =>
         {| carrierServiceCode := serviceCode;
            carrierServiceName := se_name e;
            universalServiceReference := None;
            vesselSchedules :=
              omap (MaerskPointToPointAdapter.mapGet vesselMap)
                   (se_vesselSchedules e) |})
      serviceMap.

Definition mapCallsToDCSA (calls : list Payload.CMACGMCommercialCall)
  : list ServiceSchedule :=
  servicesOf (fold_left fileCall calls ([], [])).

End CMACGMVoyageAdapter.

(** The first call of a list that has a given vessel key. *)
Definition firstCallOfKey (calls : list CMACGMVoyageAdapter.Payload.CMACGMCommercialCall)
    (key : string) : option CMACGMVoyageAdapter.Payload.CMACGMCommercialCall :=
  find (fun c => String.eqb (CMACGMVoyageAdapter.vesselKeyOf c) key) calls.

(** The transport calls of the calls of a list that have a given vessel key,
    in their order. *)
Definition callsOfKey (calls : list CMACGMVoyageAdapter.Payload.CMACGMCommercialCall)
    (key : string) : list TransportCall :=
  map CMACGMVoyageAdapter.transportCallOf
    (List.filter (fun c => String.eqb (CMACGMVoyageAdapter.vesselKeyOf c) key)
       calls).

(** The references to vessel objects held by the services of a store, and
    what the loop of [mapCallsToDCSA] keeps true of its two maps after the
    calls [seen]. *)
Definition vesselReferences
    (serviceMap : list (string * CMACGMVoyageAdapter.ServiceEntry)) : list string :=
  concat (map (fun e => CMACGMVoyageAdapter.se_vesselSchedules (snd e)) serviceMap).

Definition vesselObjectOf
    (seen : list CMACGMVoyageAdapter.Payload.CMACGMCommercialCall)
    (e : string * VesselSchedule) : Prop :=
  transportCalls (snd e) = Some (callsOfKey seen (fst e))
  /\ callsOfKey seen (fst e) <> []
  /\ option_map vesselIMONumber (vessel (snd e))
     = option_map (fun c => CMACGMVoyageAdapter.Payload.imo
                              (CMACGMVoyageAdapter.Payload.vessel c))
                  (firstCallOfKey seen (fst e)).

Definition referencesOf
    (seen : list CMACGMVoyageAdapter.Payload.CMACGMCommercialCall)
    (e : string * CMACGMVoyageAdapter.ServiceEntry) : Prop :=
  Forall (fun key =>
            exists first,
              firstCallOfKey seen key = Some first
              /\ CMACGMVoyageAdapter.Payload.code
                   (CMACGMVoyageAdapter.Payload.service first) = fst e)
         (CMACGMVoyageAdapter.se_vesselSchedules (snd e)).

Definition storeInvariant
    (seen : list CMACGMVoyageAdapter.Payload.CMACGMCommercialCall)
    (store : CMACGMVoyageAdapter.Store) : Prop :=
  List.NoDup (map fst (snd store))
  /\ Forall (vesselObjectOf seen) (snd store)
  /\ (forall c, In c seen ->
        In (CMACGMVoyageAdapter.vesselKeyOf c) (map fst (snd store)))
  /\ List.NoDup (map fst (fst store))
  /\ (forall c, In c seen ->
        In (CMACGMVoyageAdapter.Payload.code
              (CMACGMVoyageAdapter.Payload.service c)) (map fst (fst store)))
  /\ Permutation (vesselReferences (fst store)) (map fst (snd store))
  /\ Forall (referencesOf seen) (fst store).

(* ===================================================================== *)
(** ** Concrete inputs of the further properties *)
(* ===================================================================== *)

(** An HMM configuration with its three schedule endpoints. *)
Definition hmmFullConfig : CarrierConfig :=
  {| apis := {| schedule := Some {| endpoint := "/gateway/vesselSchedule/v1/vessel-schedule"; version := "1.0" |};
                portSchedule := Some {| endpoint := "/gateway/portSchedule/v1/port-schedule"; version := "1.0" |};
                ptpSchedule := Some {| endpoint := "/gateway/ptpSchedule/v1/port-to-port-schedule"; version := "1.0" |};
                proforma := None;
                voyage := None;
                route := None;
                pointToPoint := None;
                tracking := None |};
     auth := {| type := apikey; tokenUrl := None; scopes := None;
                headerName := None; headerNames := None; apiKeys := None;
                primaryKeys := None; secondaryKeys := None |} |}.

(** A point-to-point query for HMM. *)
Definition hmmPtpQuery : Params :=
  {| q_vesselIMONumber := None; q_vesselName := None;
     q_carrierServiceCode := None; q_universalServiceReference := None;
     q_carrierVoyageNumber := None; q_universalVoyageReference := None;
     q_UNLocationCode := None; q_facilitySMDGCode := None;
     q_vesselOperatorCarrierCode := None; q_startDate := None;
     q_endDate := None; q_limit := None; q_cursor := None;
     fromLocationCode := Some "KRPUS"; toLocationCode := Some "USLAX";
     periodDate := Some "2021-12-03"; placeOfLoading := None;
     placeOfDischarge := None; unLocodePlaceOfLoading := None;
     unLocodePlaceOfDischarge := None; voyageCode := None; vesselIMO := None;
     from := None; to := None; portCode := None; countryCode := None;
     serviceCode := None; lineCode := None; zoneFromCode := None;
     zoneToCode := None; placeOfReceipt := None; placeOfDelivery := None;
     date := None |}.

(** No extension field of the HMM point-to-point adapter is given. *)
Definition hmmNoExtensions : HMMPTPScheduleAdapter.Extensions :=
  {| HMMPTPScheduleAdapter.weekTerm := None;
     HMMPTPScheduleAdapter.receiveTermCode := None;
     HMMPTPScheduleAdapter.deliveryTermCode := None;
     HMMPTPScheduleAdapter.webSort := None;
     HMMPTPScheduleAdapter.webPriority := None |}.

(** A Maersk configuration with its three schedule endpoints. *)
Definition maerskFullConfig : CarrierConfig :=
  {| apis := {| schedule := Some {| endpoint := "/schedules/vessel-schedules"; version := "1.0" |};
                portSchedule := Some {| endpoint := "/schedules/port-schedules"; version := "1.0" |};
                ptpSchedule := None;
                proforma := None;
                voyage := None;
                route := None;
                pointToPoint := Some {| endpoint := "/schedules/point-to-point-routes"; version := "1.0" |};
                tracking := None |};
     auth := {| type := oauth2; tokenUrl := None; scopes := None;
                headerName := None; headerNames := None; apiKeys := None;
                primaryKeys := None; secondaryKeys := None |} |}.

(** A point-to-point query for Maersk. *)
Definition maerskP2PQuery : Params :=
  {| q_vesselIMONumber := None; q_vesselName := None;
     q_carrierServiceCode := None; q_universalServiceReference := None;
     q_carrierVoyageNumber := None; q_universalVoyageReference := None;
     q_UNLocationCode := None; q_facilitySMDGCode := None;
     q_vesselOperatorCarrierCode := None; q_startDate := None;
     q_endDate := None; q_limit := None; q_cursor := None;
     fromLocationCode := None; toLocationCode := None; periodDate := None;
     placeOfLoading := None; placeOfDischarge := None;
     unLocodePlaceOfLoading := None; unLocodePlaceOfDischarge := None;
     voyageCode := None; vesselIMO := None; from := None; to := None;
     portCode := None; countryCode := None; serviceCode := None;
     lineCode := None; zoneFromCode := None; zoneToCode := None;
     placeOfReceipt := Some "KRPUS"; placeOfDelivery := Some "NLRTM";
     date := None |}.

(** No extension field of the Maersk point-to-point adapter is given. *)
Definition maerskNoExtensions : MaerskPointToPointAdapter.Extensions :=
  {| MaerskPointToPointAdapter.departureStartDate := None;
     MaerskPointToPointAdapter.departureEndDate := None;
     MaerskPointToPointAdapter.arrivalStartDate := None;
     MaerskPointToPointAdapter.arrivalEndDate := None;
     MaerskPointToPointAdapter.maxTranshipment := None;
     MaerskPointToPointAdapter.receiptTypeAtOrigin := None;
     MaerskPointToPointAdapter.deliveryTypeAtDestination := None;
     MaerskPointToPointAdapter.cargoType := None;
     MaerskPointToPointAdapter.ISOEquipmentCode := None;
     MaerskPointToPointAdapter.stuffingWeight := None;
     MaerskPointToPointAdapter.stuffingVolume := None |}.

(** A tracking query identified by a transport call only, and a schedule
    query that asks for a limit of zero. *)
Definition trackingByTransportCall : gmap string string :=
  {[ "transportCallID" := "TC-0001" ]}.

Definition scheduleWithLimitZero : gmap string string :=
  <[ "limit" := "0" ]> {[ "carrierVoyageNumber" := "0001W" ]}.


(** A configuration with a tracking endpoint. *)
Definition trackingConfig : CarrierConfig :=
  {| apis := {| schedule := None;
                portSchedule := None;
                ptpSchedule := None;
                proforma := None;
                voyage := None;
                route := None;
                pointToPoint := None;
                tracking := Some {| endpoint := "/track/v1/events"; version := "1.0" |} |};
     auth := {| type := apikey; tokenUrl := None; scopes := None;
                headerName := None; headerNames := None; apiKeys := None;
                primaryKeys := None; secondaryKeys := None |} |}.

(** A factory in which the HMM and the ZIM adapters were built, from the
    configurations of HMM, of ZIM and of a carrier with no adapter class. *)
Definition namedAdapter (name : string)
  : @Controller.CarrierAdapter unit unit :=
  {| Controller.getCarrierName := name;
     Controller.getRecords := fun _ => inr (Some []) |}.

Definition twoAdapters : list (string * @Controller.CarrierAdapter unit unit) :=
  CarrierAdapterFactory.initializeAdapters
    None (Some (namedAdapter "HMM")) (Some (namedAdapter "ZIM")) None
    (fun _ => true)
    [("HMM", false); ("ONE", false); ("ZIM", false)].

(** Two commercial calls of one vessel and voyage that name two services. *)
Definition commercialCall (id port service : string)
  : CMACGMVoyageAdapter.Payload.CMACGMCommercialCall :=
  {| CMACGMVoyageAdapter.Payload.id := id;
     CMACGMVoyageAdapter.Payload.voyageCode := "0FL7XW1MA";
     CMACGMVoyageAdapter.Payload.location :=
       {| CMACGMVoyageAdapter.Payload.name := port;
          CMACGMVoyageAdapter.Payload.internalCode := port;
          CMACGMVoyageAdapter.Payload.locationCodifications := None |};
     CMACGMVoyageAdapter.Payload.vessel :=
       {| CMACGMVoyageAdapter.Payload.vessel_name := "CMA CGM ANTOINE";
          CMACGMVoyageAdapter.Payload.imo := "9454436" |};
     CMACGMVoyageAdapter.Payload.service :=
       {| CMACGMVoyageAdapter.Payload.code := service;
          CMACGMVoyageAdapter.Payload.service_name := service |};
     CMACGMVoyageAdapter.Payload.berthDate :=
       Some {| CMACGMVoyageAdapter.Payload.utc := "2024-06-01T08:00:00Z" |};
     CMACGMVoyageAdapter.Payload.unberthDate := None |}.

Definition oneVoyageTwoServices
  : list CMACGMVoyageAdapter.Payload.CMACGMCommercialCall :=
  [ commercialCall "C1" "CNSHA" "FAL1"; commercialCall "C2" "SGSIN" "FAL3" ].

(** An HMM schedule item whose arrival has a date and no time. *)
Definition hmmItemDateWithoutTime : HMMScheduleMapper.HMMScheduleItem :=
  {| HMMScheduleMapper.vvdCode := Some "HDM0012W";
     HMMScheduleMapper.portCode := Some "KRPUS";
     HMMScheduleMapper.portName := Some "BUSAN";
     HMMScheduleMapper.tmnlCode := None;
     HMMScheduleMapper.tmnlName := None;
     HMMScheduleMapper.vesselName := Some "HMM OSLO";
     HMMScheduleMapper.arrival :=
       Some {| HMMScheduleMapper.arrivalDate := Some "20210817";
               HMMScheduleMapper.arrivalTime := None;
               HMMScheduleMapper.arrivalStatusCode := None |};
     HMMScheduleMapper.departure := None |}.

(** Two carriers: HMM returns an array of one record, Maersk hands on an
    object. *)
Definition arrayAndObject : gmap string (@Controllers.CarrierAdapter unit unit) :=
  <[ "MAERSK" := {| Controllers.getCarrierName := "Maersk";
                    Controllers.call := fun _ =>
                      Controllers.Returns Controllers.NotArray |} ]>
  {[ "HMM" := {| Controllers.getCarrierName := "HMM";
                 Controllers.call := fun _ =>
                   Controllers.Returns (Controllers.Array [tt]) |} ]}.

(* ===================================================================== *)
(** * Properties *)
(* ===================================================================== *)

Section CMACGMRouting.

Context {T : Type}.
Variables routeA proformaA voyageA scheduleA : Params -> T.

Local Abbreviation cmaRoute :=
  (CMACGMAdapter.getSchedule routeA proformaA voyageA scheduleA).

Lemma truthy_present v : JS.truthy v = true <-> CMACGMAdapter.present v.
Proof.
  unfold CMACGMAdapter.present. destruct v as [s|]; simpl.
  - destruct (String.eqb_spec s ""); simpl; split.
    + discriminate.
    + intros (s' & [= <-] & Hne). contradiction.
    + intros _. eauto.
    + reflexivity.
  - split; [discriminate | intros (s & [=] & _)].
Qed.

Lemma truthyQ_presentQ v : JS.truthyQ v = true <-> CMACGMAdapter.presentQ v.
Proof.
  unfold CMACGMAdapter.presentQ. destruct v as [[s|l]|]; simpl.
  - destruct (String.eqb_spec s ""); simpl; split.
    + discriminate.
    + intros [(s' & [= <-] & Hne) | (l & [=])]. contradiction.
    + intros _. left. eauto.
    + reflexivity.
  - split; [intros _; right; eauto | reflexivity].
  - split; [discriminate | intros [(s & [=] & _) | (l & [=])]].
Qed.

Lemma truthy_or a b : JS.truthy (JS.or a b) = JS.truthy a || JS.truthy b.
Proof.
  unfold JS.or. destruct (JS.truthy a) eqn:Ha; simpl; [exact Ha | reflexivity].
Qed.

Lemma routeTrigger_bool p :
  (JS.truthy (placeOfLoading p) || JS.truthy (unLocodePlaceOfLoading p))
  && (JS.truthy (placeOfDischarge p) || JS.truthy (unLocodePlaceOfDischarge p))
  = true <-> CMACGMAdapter.routeTrigger p.
Proof.
  unfold CMACGMAdapter.routeTrigger.
  rewrite andb_true_iff, !orb_true_iff, !truthy_present. reflexivity.
Qed.

Lemma proformaTrigger_bool p :
  JS.truthy (JS.or (serviceCode p) (q_carrierServiceCode p))
  || JS.truthy (lineCode p)
  || (JS.truthy (zoneFromCode p) && JS.truthy (zoneToCode p))
  = true <-> CMACGMAdapter.proformaTrigger p.
Proof.
  unfold CMACGMAdapter.proformaTrigger.
  rewrite truthy_or, !orb_true_iff, andb_true_iff, !truthy_present. tauto.
Qed.

Lemma voyageTrigger_bool p :
  JS.truthy (JS.or (voyageCode p) (q_carrierVoyageNumber p))
  || JS.truthy (JS.or (vesselIMO p) (q_vesselIMONumber p))
  || (JS.truthy (JS.or (from p) (q_startDate p))
      && JS.truthy (JS.or (to p) (q_endDate p)))
  || JS.truthyQ (portCode p) || JS.truthyQ (countryCode p)
  = true <-> CMACGMAdapter.voyageTrigger p.
Proof.
  unfold CMACGMAdapter.voyageTrigger.
  rewrite !truthy_or, !orb_true_iff, andb_true_iff, !orb_true_iff,
    !truthy_present, !truthyQ_presentQ. tauto.
Qed.

(** C3. The CMA CGM router follows the fixed precedence Route, Proforma,
    Voyage, Commercial Schedule. When a loading and a discharge location are
    both present the Route adapter answers, whatever the Proforma and Voyage
    triggers are; otherwise a Proforma trigger selects the Proforma adapter,
    whatever the Voyage triggers are; otherwise a Voyage trigger selects the
    Voyage adapter; otherwise the Commercial Schedule adapter answers. *)
Theorem cmacgm_fixed_precedence (p : Params) :
  (CMACGMAdapter.routeTrigger p -> cmaRoute p = routeA p)
  /\ (~ CMACGMAdapter.routeTrigger p -> CMACGMAdapter.proformaTrigger p ->
      cmaRoute p = proformaA p)
  /\ (~ CMACGMAdapter.routeTrigger p -> ~ CMACGMAdapter.proformaTrigger p ->
      CMACGMAdapter.voyageTrigger p -> cmaRoute p = voyageA p)
  /\ (~ CMACGMAdapter.routeTrigger p -> ~ CMACGMAdapter.proformaTrigger p ->
      ~ CMACGMAdapter.voyageTrigger p -> cmaRoute p = scheduleA p).
Proof.
  pose proof (routeTrigger_bool p) as HR.
  pose proof (proformaTrigger_bool p) as HP.
  pose proof (voyageTrigger_bool p) as HV.
  unfold CMACGMAdapter.getSchedule.
  destruct (_ && _) eqn:ER in HR |- *.
  - repeat split; intros; try reflexivity; exfalso; tauto.
  - destruct (_ || _ || _) eqn:EP in HP |- *.
    + repeat split; intros; try reflexivity; exfalso;
        try tauto; apply HR in H; discriminate.
    + destruct (_ || _ || _ || _ || _) eqn:EV in HV |- *.
      * repeat split; intros; try reflexivity; exfalso;
          try tauto; first [apply HR in H | apply HP in H0]; discriminate.
      * repeat split; intros; try reflexivity; exfalso;
          first [apply HR in H | apply HP in H0 | apply HV in H1]; discriminate.
Qed.

End CMACGMRouting.

Lemma cmacgm_fixed_precedence_witness :
  CMACGMAdapter.routeTrigger tieBreakParams
  /\ CMACGMAdapter.proformaTrigger tieBreakParams
  /\ CMACGMAdapter.getSchedule (fun _ => "route") (fun _ => "proforma")
       (fun _ => "voyage") (fun _ => "schedule") tieBreakParams = "route".
Proof.
  assert (HR : CMACGMAdapter.routeTrigger tieBreakParams).
  { split; left; exists "FRLEH"%string + exists "USNYC"%string;
      (split; [reflexivity | discriminate]). }
  split; [exact HR | split].
  - left. exists "FAL1"%string. split; [reflexivity | discriminate].
  - exact (proj1 (cmacgm_fixed_precedence (fun _ => "route") (fun _ => "proforma")
       (fun _ => "voyage") (fun _ => "schedule") tieBreakParams) HR).
Defined.

(* --------------------------------------------------------------------- *)
(** ** Vendor mappers *)
(* --------------------------------------------------------------------- *)

Section MapperSimulation.

Context {A B : Type}.

Lemma sim_ret (R : A -> A -> Prop) a1 a2 : R a1 a2 -> sim R (mret a1) (mret a2).
Proof. intros H clk1 n1 clk2 n2. exact H. Qed.

Lemma sim_throw (R : A -> A -> Prop) e : sim R (mthrow e) (mthrow e).
Proof. intros clk1 n1 clk2 n2. reflexivity. Qed.

Lemma sim_lift (r : string + A) : sim eq (mlift r) (mlift r).
Proof. destruct r; [apply sim_throw | apply sim_ret; reflexivity]. Qed.

Lemma sim_bind (R : A -> A -> Prop) (S : B -> B -> Prop) m1 m2 f1 f2 :
  sim R m1 m2 ->
  (forall a1 a2, R a1 a2 -> sim S (f1 a1) (f2 a2)) ->
  sim S (mbind m1 f1) (mbind m2 f2).
Proof.
  intros Hm Hf clk1 n1 clk2 n2. unfold mbind.
  specialize (Hm clk1 n1 clk2 n2). unfold related in Hm.
  destruct (m1 clk1 n1) as [e1 | [a1 k1]], (m2 clk2 n2) as [e2 | [a2 k2]];
    try contradiction.
  - exact Hm.
  - apply Hf, Hm.
Qed.

Lemma sim_weaken (R R' : A -> A -> Prop) m1 m2 :
  (forall a1 a2, R a1 a2 -> R' a1 a2) -> sim R m1 m2 -> sim R' m1 m2.
Proof.
  intros HR Hm clk1 n1 clk2 n2. specialize (Hm clk1 n1 clk2 n2).
  unfold related in *.
  destruct (m1 clk1 n1) as [e1 | [a1 k1]], (m2 clk2 n2) as [e2 | [a2 k2]]; auto.
Qed.

End MapperSimulation.

Lemma sim_now : sim (fun _ _ => True) Date_now Date_now.
Proof. intros clk1 n1 clk2 n2. exact I. Qed.

Lemma sim_for {A B} (R : B -> B -> Prop) (f : A -> Mapper B) (l : list A) :
  (forall a, sim R (f a) (f a)) -> sim (Forall2 R) (mfor f l) (mfor f l).
Proof.
  intros Hf. induction l as [|a l IH]; simpl.
  - apply sim_ret. constructor.
  - eapply sim_bind; [apply Hf |]. intros b1 b2 Hb.
    eapply sim_bind; [apply IH |]. intros bs1 bs2 Hbs.
    apply sim_ret. constructor; assumption.
Qed.

Lemma Forall2_eq {A} (l1 l2 : list A) : Forall2 eq l1 l2 -> l1 = l2.
Proof. induction 1; congruence. Qed.

Lemma Forall2_map_eq {A B} (g : A -> B) (l1 l2 : list A) :
  Forall2 (fun a b => g a = g b) l1 l2 -> map g l1 = map g l2.
Proof.
  induction 1 as [|x y l l' Hxy _ IH]; simpl; [reflexivity |].
  rewrite Hxy, IH. reflexivity.
Qed.

(** Two runs from a fresh call. *)
Lemma sim_run {A} (R : A -> A -> Prop) (m : Mapper A) clk1 clk2 :
  sim R m m ->
  match runMapper m clk1, runMapper m clk2 with
  | inl e1, inl e2 => e1 = e2
  | inr a1, inr a2 => R a1 a2
  | _, _ => False
  end.
Proof.
  intros H. specialize (H clk1 0%nat clk2 0%nat). unfold runMapper, related in *.
  destruct (m clk1 0%nat) as [e1 | [a1 k1]], (m clk2 0%nat) as [e2 | [a2 k2]];
    auto.
Qed.

(** *** The ZIM mapper never reads the clock *)

Lemma zim_joined_nonempty (rest : list string) :
  String.eqb (JS.join "-" ("ZIM" :: rest)) "" = false.
Proof. destruct rest; reflexivity. Qed.

Lemma zim_reference_sim leg :
  sim eq (ZIMScheduleMapper.generateTransportCallReference leg)
         (ZIMScheduleMapper.generateTransportCallReference leg).
Proof.
  unfold ZIMScheduleMapper.generateTransportCallReference.
  rewrite filter_cons_True by discriminate.
  rewrite zim_joined_nonempty. simpl. apply sim_ret. reflexivity.
Qed.

Lemma zim_leg_sim leg :
  sim eq (ZIMScheduleMapper.mapLeg leg) (ZIMScheduleMapper.mapLeg leg).
Proof.
  unfold ZIMScheduleMapper.mapLeg.
  destruct (_ ++ _)%list.
  - apply sim_ret. reflexivity.
  - eapply sim_bind; [apply zim_reference_sim |].
    intros r1 r2 ->. apply sim_ret. reflexivity.
Qed.

Lemma zim_vessel_sim entry :
  sim eq (ZIMScheduleMapper.mapVessel entry) (ZIMScheduleMapper.mapVessel entry).
Proof.
  destruct entry as [key legs]. unfold ZIMScheduleMapper.mapVessel.
  eapply sim_bind; [apply sim_for, zim_leg_sim |].
  intros c1 c2 Hc. apply Forall2_eq in Hc. subst c2.
  destruct (sort _ legs); [apply sim_throw | apply sim_ret; reflexivity].
Qed.

Lemma zim_route_sim r :
  sim eq (ZIMScheduleMapper.mapRoute r) (ZIMScheduleMapper.mapRoute r).
Proof.
  unfold ZIMScheduleMapper.mapRoute.
  destruct (ZIMScheduleMapper.routeLegs r) as [[|leg legs]|];
    try (apply sim_ret; reflexivity).
  eapply sim_weaken; [apply Forall2_eq |]. apply sim_for, zim_vessel_sim.
Qed.

Lemma zim_mapper_sim resp :
  sim eq (ZIMScheduleMapper.mapZIMScheduleToDCSA resp)
         (ZIMScheduleMapper.mapZIMScheduleToDCSA resp).
Proof.
  unfold ZIMScheduleMapper.mapZIMScheduleToDCSA.
  destruct (ZIMScheduleMapper.routes resp) as [[|r rs]|];
    try (apply sim_ret; reflexivity).
  eapply sim_weaken; [apply Forall2_eq |]. apply sim_for.
  intros [code routes]. unfold ZIMScheduleMapper.mapService.
  eapply sim_bind.
  - eapply sim_weaken; [apply Forall2_eq |]. apply sim_for, zim_route_sim.
  - intros p1 p2 ->. apply sim_ret. reflexivity.
Qed.

(** *** The HMM mapper depends on the clock through the references only *)

Section HMMClock.

Variable localeCompare : string -> string -> Z.

Lemma hmm_item_sim vvd item :
  sim (fun c1 c2 => option_map eraseCall c1 = option_map eraseCall c2)
      (HMMScheduleMapper.mapItem vvd item) (HMMScheduleMapper.mapItem vvd item).
Proof.
  unfold HMMScheduleMapper.mapItem.
  eapply sim_bind with (R := eq).
  { destruct (_ && _); [| apply sim_ret; reflexivity].
    eapply sim_bind; [apply sim_lift |]. intros d1 d2 ->.
    apply sim_ret. reflexivity. }
  intros a1 a2 ->.
  eapply sim_bind with (R := eq).
  { destruct (_ && _); [| apply sim_ret; reflexivity].
    eapply sim_bind; [apply sim_lift |]. intros d1 d2 ->.
    apply sim_ret. reflexivity. }
  intros d1 d2 ->.
  destruct (_ ++ _)%list.
  - apply sim_ret. reflexivity.
  - unfold HMMScheduleMapper.generateTransportCallReference.
    eapply sim_bind with (R := fun _ _ => True).
    + eapply sim_bind; [apply sim_now |]. intros. apply sim_ret. exact I.
    + intros r1 r2 _. apply sim_ret. reflexivity.
Qed.

Lemma omap_erase (c1 c2 : list (option TransportCall)) :
  Forall2 (fun a b => option_map eraseCall a = option_map eraseCall b) c1 c2 ->
  map eraseCall (omap id c1) = map eraseCall (omap id c2).
Proof.
  induction 1 as [|a b l1 l2 Hab _ IH]; [reflexivity |].
  destruct a as [a|], b as [b|]; simpl in Hab; try discriminate.
  - assert (Hab' : eraseCall a = eraseCall b) by congruence.
    cbn [omap list_omap id map]. rewrite Hab', IH. reflexivity.
  - exact IH.
Qed.

Lemma hmm_vessel_sim vvd entry :
  sim (fun v1 v2 => eraseVessel v1 = eraseVessel v2)
      (HMMScheduleMapper.mapVessel localeCompare vvd entry)
      (HMMScheduleMapper.mapVessel localeCompare vvd entry).
Proof.
  destruct entry as [vesselName items]. unfold HMMScheduleMapper.mapVessel.
  eapply sim_bind; [apply sim_for, hmm_item_sim |].
  intros c1 c2 Hc. apply omap_erase in Hc. apply sim_ret.
  unfold eraseVessel. simpl. f_equal.
  destruct (omap id c1), (omap id c2); simpl in *; try discriminate; congruence.
Qed.

Lemma hmm_mapper_sim resp svc :
  sim (fun s1 s2 => map eraseService s1 = map eraseService s2)
      (HMMScheduleMapper.mapHMMScheduleToDCSA localeCompare resp svc)
      (HMMScheduleMapper.mapHMMScheduleToDCSA localeCompare resp svc).
Proof.
  unfold HMMScheduleMapper.mapHMMScheduleToDCSA.
  destruct (HMMScheduleMapper.resultData resp) as [[|i items]|];
    try (apply sim_ret; reflexivity).
  eapply sim_weaken; [apply Forall2_map_eq |]. apply sim_for.
  intros [vvd its]. unfold HMMScheduleMapper.mapVoyage.
  eapply sim_bind; [apply sim_for, hmm_vessel_sim |].
  intros v1 v2 Hv. apply Forall2_map_eq in Hv. apply sim_ret.
  unfold eraseService. simpl. congruence.
Qed.

End HMMClock.

(** The HMM schedule mapper performs no filtering: for a payload whose only
    item carries neither an arrival nor a departure it returns one service
    schedule whose single vessel schedule has no transport call, so the
    invariant [hasTransportCall] fails on its output. *)
Lemma hmm_mapper_returns_schedule_without_calls
    (localeCompare : string -> string -> Z) (clk : Clock) :
  exists s,
    runMapper (HMMScheduleMapper.mapHMMScheduleToDCSA localeCompare
                 (hmmResponseOf [hmmItemNoDates]) None) clk = inr [s]
    /\ vesselSchedules s
       = [ {| vessel := None; isDummyVessel := true; transportCalls := None |} ]
    /\ hasTransportCall s = false.
Proof.
  eexists. split; [reflexivity |]. split; reflexivity.
Qed.

(** C4, as stated, fails: two runs of the HMM mapper on the same payload
    under different clock readings return different outputs. *)
Lemma hmm_mapper_two_runs_differ :
  runMapper (HMMScheduleMapper.mapHMMScheduleToDCSA (fun _ _ => 0)
               (hmmResponseOf [hmmItemArrival]) None) (fun _ => 1700000000000)
  <> runMapper (HMMScheduleMapper.mapHMMScheduleToDCSA (fun _ _ => 0)
                  (hmmResponseOf [hmmItemArrival]) None) (fun _ => 1700000000001).
Proof.
  intros H. vm_compute in H. discriminate H.
Qed.

(** C4, amended. The ZIM mapper is deterministic: its output does not depend
    on the clock. The HMM mapper is deterministic except for the synthesized
    references: two runs on the same payload throw the same error or return
    outputs that agree on every field other than [transportCallReference],
    and each reference ends in the clock reading of its run. *)
Theorem mappers_deterministic_up_to_reference :
  (forall resp clk1 clk2,
     runMapper (ZIMScheduleMapper.mapZIMScheduleToDCSA resp) clk1
     = runMapper (ZIMScheduleMapper.mapZIMScheduleToDCSA resp) clk2)
  /\ (forall localeCompare resp svc clk1 clk2,
        match
          runMapper (HMMScheduleMapper.mapHMMScheduleToDCSA localeCompare resp svc) clk1,
          runMapper (HMMScheduleMapper.mapHMMScheduleToDCSA localeCompare resp svc) clk2
        with
        | inl e1, inl e2 => e1 = e2
        | inr s1, inr s2 => map eraseService s1 = map eraseService s2
        | _, _ => False
        end)
  /\ (forall vvd port clk n,
        HMMScheduleMapper.generateTransportCallReference vvd port clk n
        = inr ("HMM-" ++ vvd ++ "-" ++ port ++ "-" ++ pretty (clk n), S n)).
Proof.
  split; [| split].
  - intros resp clk1 clk2.
    pose proof (sim_run eq _ clk1 clk2 (zim_mapper_sim resp)) as H.
    destruct (runMapper _ clk1), (runMapper _ clk2); try contradiction; congruence.
  - intros lc resp svc clk1 clk2.
    exact (sim_run _ _ clk1 clk2 (hmm_mapper_sim lc resp svc)).
  - reflexivity.
Qed.

(** C5 (failing inputs). The date and time helpers of the HMM mappers check
    less than their contract (an ISO 8601 datetime, an error for what cannot
    be read). A datetime that already carries an offset gets a 'Z' appended,
    on every host; a date and a time of the right lengths that are not digits
    raise no error and are turned into a string that is no datetime; and an
    arrival date that comes without a time raises no error either: the
    schedule mapper drops it silently and returns a vessel schedule without
    transport call. *)
Theorem hmm_datetime_not_validated :
  (forall parse iso,
     HMMPTPScheduleMapper.normalizeDateTime parse iso "2021-12-03T14:49:00+09:00"
     = inr "2021-12-03T14:49:00+09:00Z")
  /\ HMMScheduleMapper.convertHMMDateTime "2021AB17" "21xx"
     = inr "2021-AB-17T21:xx:00Z"
  /\ (forall localeCompare clk,
        exists s,
          runMapper (HMMScheduleMapper.mapHMMScheduleToDCSA localeCompare
                       (hmmResponseOf [hmmItemDateWithoutTime]) None) clk
          = inr [s]
          /\ map transportCalls (vesselSchedules s) = [None]).
Proof.
  split; [| split].
  - intros parse iso. reflexivity.
  - reflexivity.
  - intros localeCompare clk. eexists. split; reflexivity.
Qed.

Lemma includes_nonempty t s : JS.includes t s = true -> t <> "" -> s <> "".
Proof.
  unfold JS.includes. intros H Ht ->. destruct t; [contradiction | discriminate].
Qed.

Lemma eqb_empty_length s n :
  String.length s = S n -> String.eqb s "" = false.
Proof. destruct s; [discriminate | reflexivity]. Qed.

(** What the helpers do. An 8-character date and a 4-character time become
    YYYY-MM-DDTHH:MM:00Z by slicing, with no timezone inference; the item of
    the specification maps to an ARRI timestamp at "2021-08-17T21:00:00Z"; a
    datetime containing 'T' is passed through with 'Z' appended unless it
    already ends in 'Z'; a date whose length is not 8 or a time whose length
    is not 4 raises an error, and so does a datetime that is empty, or has no
    'T' and is not parsed by the host. *)
Lemma hmm_datetime_normalization :
  (forall d t, String.length d = 8%nat -> String.length t = 4%nat ->
     HMMScheduleMapper.convertHMMDateTime d t
     = inr (String.substring 0 4 d ++ "-" ++ String.substring 4 2 d ++ "-"
            ++ String.substring 6 2 d ++ "T" ++ String.substring 0 2 t ++ ":"
            ++ String.substring 2 2 t ++ ":00Z"))
  /\ (forall localeCompare clk,
        exists s v c,
          runMapper (HMMScheduleMapper.mapHMMScheduleToDCSA localeCompare
                       (hmmResponseOf [hmmItemArrival]) None) clk = inr [s]
          /\ vesselSchedules s = [v] /\ transportCalls v = Some [c]
          /\ timestamps c = [ {| eventTypeCode := ARRI;
                                 eventClassifierCode := EST;
                                 eventDateTime := "2021-08-17T21:00:00Z" |} ])
  /\ (forall parse iso dt, JS.includes "T" dt = true ->
        HMMPTPScheduleMapper.normalizeDateTime parse iso dt
        = inr (if JS.endsWith "Z" dt then dt else dt ++ "Z"))
  /\ (forall d t, String.length d <> 8%nat \/ String.length t <> 4%nat ->
        exists message, HMMScheduleMapper.convertHMMDateTime d t = inl message)
  /\ (forall parse iso dt,
        dt = "" \/ (JS.includes "T" dt = false /\ parse dt = None) ->
        exists message,
          HMMPTPScheduleMapper.normalizeDateTime parse iso dt = inl message).
Proof.
  repeat split.
  - intros d t Hd Ht. unfold HMMScheduleMapper.convertHMMDateTime.
    rewrite (eqb_empty_length d 7 Hd), (eqb_empty_length t 3 Ht), Hd, Ht.
    reflexivity.
  - intros lc clk. eexists _, _, _. repeat split; reflexivity.
  - intros parse iso dt HT. unfold HMMPTPScheduleMapper.normalizeDateTime.
    assert (Hne : dt <> "") by (eapply includes_nonempty; [exact HT | discriminate]).
    apply String.eqb_neq in Hne. rewrite Hne, HT. reflexivity.
  - intros d t H. unfold HMMScheduleMapper.convertHMMDateTime.
    destruct (String.eqb d "" || negb (String.length d =? 8)%nat) eqn:Ed;
      [eexists; reflexivity |].
    destruct (String.eqb t "" || negb (String.length t =? 4)%nat) eqn:Et;
      [eexists; reflexivity |].
    apply orb_false_iff in Ed as [_ Ed], Et as [_ Et].
    apply negb_false_iff, Nat.eqb_eq in Ed, Et. destruct H; contradiction.
  - intros parse iso dt [-> | [HT Hp]]; unfold HMMPTPScheduleMapper.normalizeDateTime.
    + eexists; reflexivity.
    + destruct (String.eqb dt ""); [eexists; reflexivity |].
      rewrite HT, Hp. eexists; reflexivity.
Qed.

Lemma hmm_datetime_normalization_witness :
  HMMScheduleMapper.convertHMMDateTime "20210817" "2100"
  = inr "2021-08-17T21:00:00Z".
Proof.
  exact (proj1 hmm_datetime_normalization "20210817" "2100" eq_refl eq_refl).
Defined.

(* --------------------------------------------------------------------- *)
(** ** Sub-API adapters and routers *)
(* --------------------------------------------------------------------- *)

Section MaerskDateGuard.

Variable Date_parse : string -> option Z.
Variable Date_toISOString : Z -> string.
Variables now tz : Z.

Local Abbreviation guard :=
  (MaerskScheduleAdapter.dateGuard Date_parse Date_toISOString now tz).

Lemma setHours0_east t :
  0 <= tz < MaerskScheduleAdapter.msPerDay ->
  MaerskScheduleAdapter.setHours0 tz
    (t * MaerskScheduleAdapter.msPerDay)
  = t * MaerskScheduleAdapter.msPerDay - tz.
Proof.
  unfold MaerskScheduleAdapter.setHours0, MaerskScheduleAdapter.msPerDay.
  intros H. replace ((t * 86400000 + tz) / 86400000) with t; [reflexivity |].
  apply (Z.div_unique_pos _ _ t tz); lia.
Qed.

Lemma setHours0_west t :
  - MaerskScheduleAdapter.msPerDay <= tz < 0 ->
  MaerskScheduleAdapter.setHours0 tz
    (t * MaerskScheduleAdapter.msPerDay)
  = (t - 1) * MaerskScheduleAdapter.msPerDay - tz.
Proof.
  unfold MaerskScheduleAdapter.setHours0, MaerskScheduleAdapter.msPerDay.
  intros H. replace ((t * 86400000 + tz) / 86400000) with (t - 1); [reflexivity |].
  apply (Z.div_unique_pos _ _ (t - 1) (tz + 86400000)); lia.
Qed.

Lemma setHours0_localDay :
  MaerskScheduleAdapter.setHours0 tz now
  = localDay now tz * MaerskScheduleAdapter.msPerDay - tz.
Proof. reflexivity. Qed.

(** The guard, on a date parsed to the local midnight of day [d']. *)
Lemma guard_days label s d' :
  s <> "" ->
  option_map (MaerskScheduleAdapter.setHours0 tz) (Date_parse s)
  = Some (d' * MaerskScheduleAdapter.msPerDay - tz) ->
  (guard label (Some s) = None
   <-> localDay now tz - 90 <= d' <= localDay now tz + 180).
Proof.
  intros Hs Hd. unfold MaerskScheduleAdapter.dateGuard.
  cbn [JS.truthy JS.orElse]. apply String.eqb_neq in Hs. rewrite Hs.
  cbn [negb]. rewrite Hd, setHours0_localDay.
  unfold MaerskScheduleAdapter.addDays, MaerskScheduleAdapter.msPerDay.
  set (today := localDay now tz).
  destruct (_ <? _) eqn:E1; [| destruct (_ >? _) eqn:E2]; cbn [orb].
  - apply Z.ltb_lt in E1. split; [discriminate | lia].
  - rewrite Z.gtb_ltb in E2. apply Z.ltb_lt in E2. split; [discriminate | lia].
  - rewrite Z.gtb_ltb in E2. apply Z.ltb_ge in E1, E2. split; [lia | reflexivity].
Qed.

(** On a host at or east of UTC the guard is the window of the
    specification: a date-only string of day [d] passes exactly when
    today - 90 <= d <= today + 180. *)
Lemma dateGuard_east_of_utc label s d :
  0 <= tz < MaerskScheduleAdapter.msPerDay ->
  s <> "" ->
  Date_parse s = Some (d * MaerskScheduleAdapter.msPerDay) ->
  (guard label (Some s) = None
   <-> localDay now tz - 90 <= d <= localDay now tz + 180).
Proof.
  intros Htz Hs Hp. apply guard_days; [exact Hs |].
  rewrite Hp. cbn [option_map]. rewrite setHours0_east by exact Htz. reflexivity.
Qed.

(** On a host west of UTC the window is shifted by one day: a date-only
    string of day [d] passes exactly when today - 89 <= d <= today + 181. *)
Lemma dateGuard_west_of_utc label s d :
  - MaerskScheduleAdapter.msPerDay <= tz < 0 ->
  s <> "" ->
  Date_parse s = Some (d * MaerskScheduleAdapter.msPerDay) ->
  (guard label (Some s) = None
   <-> localDay now tz - 89 <= d <= localDay now tz + 181).
Proof.
  intros Htz Hs Hp.
  rewrite (guard_days label s (d - 1) Hs).
  - lia.
  - rewrite Hp. cbn [option_map]. rewrite setHours0_west by exact Htz. reflexivity.
Qed.

End MaerskDateGuard.

(** C6 (failing input). On a host five hours west of UTC, on 2024-06-30, the
    start date "2024-04-01" is today - 90 days, the boundary of the window,
    and the Maersk Vessel Schedule adapter throws the out-of-range error for
    it; the start date "2024-12-28", today + 181 days, is let through to the
    network. *)
Theorem maersk_guard_shifted_west_of_utc (Date_toISOString : Z -> string) :
  localDay westNow westOffset - 90
    = 1711929600000 / MaerskScheduleAdapter.msPerDay
  /\ localDay westNow westOffset + 181
    = 1735344000000 / MaerskScheduleAdapter.msPerDay
  /\ MaerskScheduleAdapter.getSchedule parseDateOnly Date_toISOString
       westNow westOffset maerskConfig (startDateOnly "2024-04-01")
     = Throw ("Maersk Vessel Schedule API: Start Date must be within 90 days "
              ++ "past and 180 days future from today. Received: 2024-04-01, "
              ++ "Valid range: "
              ++ splitHead "T" (Date_toISOString 1711947600000) ++ " to "
              ++ splitHead "T" (Date_toISOString 1735275600000))
  /\ noNetworkCall
       (MaerskScheduleAdapter.getSchedule parseDateOnly Date_toISOString
          westNow westOffset maerskConfig (startDateOnly "2024-12-28"))
     = false.
Proof.
  repeat split; reflexivity.
Qed.

Section HMMFallback.

Variable localeCompare : string -> string -> Z.
Variable clock : Clock.
Variable config : CarrierConfig.
Variables portScheduleA ptpScheduleA
  : Params -> Prog HMMScheduleMapper.HMMScheduleResponse (list ServiceSchedule).

Local Abbreviation vesselSchedule :=
  (HMMScheduleAdapter.getSchedule localeCompare clock config).

Local Abbreviation hmmRoute :=
  (HMMAdapter.getSchedule vesselSchedule portScheduleA ptpScheduleA).

(** C7. When [carrierVoyageNumber] is absent and neither the point-to-point
    triple nor the port-schedule triple is complete, the HMM router hands the
    query to the Vessel Schedule adapter, which throws before any network
    call; with the vessel-schedule endpoint configured the error is the
    missing-parameter error naming carrierVoyageNumber (vvdCode). *)
Theorem hmm_fallback_then_fail (params : Params) :
  JS.truthy (q_carrierVoyageNumber params) = false ->
  JS.truthy (fromLocationCode params) && JS.truthy (toLocationCode params)
    && JS.truthy (periodDate params) = false ->
  JS.truthy (q_UNLocationCode params) && JS.truthy (q_startDate params)
    && JS.truthy (q_endDate params) = false ->
  hmmRoute params = vesselSchedule params
  /\ noNetworkCall (hmmRoute params) = true
  /\ (forall net, calls net (hmmRoute params) = [])
  /\ (forall e, endpointOf (schedule (apis config)) = Some e ->
        hmmRoute params
        = Throw "HMM Schedule API requires carrierVoyageNumber (vvdCode) parameter").
Proof.
  intros Hv Hptp Hport.
  assert (Hroute : hmmRoute params = vesselSchedule params).
  { unfold HMMAdapter.getSchedule. rewrite Hv, Hptp, Hport. reflexivity. }
  rewrite Hroute. unfold HMMScheduleAdapter.getSchedule. rewrite Hv. cbn [negb].
  destruct (endpointOf _); repeat split; intros; try reflexivity; discriminate.
Qed.

End HMMFallback.

Lemma hmm_fallback_then_fail_witness :
  HMMAdapter.getSchedule
    (HMMScheduleAdapter.getSchedule (fun _ _ => 0) (fun _ => 0) hmmConfig)
    (fun _ => Ret []) (fun _ => Ret []) noParams
  = Throw "HMM Schedule API requires carrierVoyageNumber (vvdCode) parameter".
Proof.
  exact (proj2 (proj2 (proj2
    (hmm_fallback_then_fail (fun _ _ => 0) (fun _ => 0) hmmConfig
       (fun _ => Ret []) (fun _ => Ret []) noParams eq_refl eq_refl eq_refl)))
    _ eq_refl).
Defined.

(** The guard of the ZIM schedule adapter: with the endpoint configured it
    throws before the network exactly when [UNLocationCode] is supplied. *)
Lemma zim_guard_is_on_UNLocationCode clock config params e :
  endpointOf (schedule (apis config)) = Some e ->
  noNetworkCall (ZIMScheduleAdapter.getSchedule clock config params)
  = JS.truthy (q_UNLocationCode params).
Proof.
  intros He. unfold ZIMScheduleAdapter.getSchedule. rewrite He.
  destruct (JS.truthy _); reflexivity.
Qed.

(** C8 (failing input). The ZIM router has one sub-API: it always delegates
    to its schedule adapter. For the query with no parameter at all, hence no
    origin and no destination, the adapter raises nothing: it issues a GET on
    the schedule endpoint with [sortByDepartureOrArrival=Departure] only. *)
Theorem zim_calls_network_without_origin_destination
    (clock : Clock)
    (net : HttpRequest -> HttpOutcome ZIMScheduleMapper.ZIMScheduleResponse) :
  (forall T (adapter : Params -> T) p, ZIMAdapter.getSchedule adapter p = adapter p)
  /\ noNetworkCall
       (ZIMAdapter.getSchedule (ZIMScheduleAdapter.getSchedule clock zimConfig)
          noParams) = false
  /\ calls net
       (ZIMAdapter.getSchedule (ZIMScheduleAdapter.getSchedule clock zimConfig)
          noParams)
     = [ {| rq_method := GET; rq_url := "/vessel-schedule/v1/schedules";
            rq_params := {[ "sortByDepartureOrArrival" := "Departure" ]};
            rq_headers := ∅; rq_body := ∅ |} ].
Proof.
  split; [reflexivity |]. split; [reflexivity |].
  cbn [ZIMAdapter.getSchedule ZIMScheduleAdapter.getSchedule calls].
  unfold ZIMAdapter.getSchedule, ZIMScheduleAdapter.getSchedule. cbn.
  destruct (net _) as [resp | r m].
  - destruct (runMapper _ _); reflexivity.
  - destruct r; reflexivity.
Qed.

(* --------------------------------------------------------------------- *)
(** ** Credential manager *)
(* --------------------------------------------------------------------- *)

Section ApiKey.

Variable env : gmap string string.
Variable carrierCode : string.
Variable config : CarrierConfig.
Variable endpointType : option string.



End ApiKey.



Lemma settle_pbind {R A B} (net : HttpRequest -> HttpOutcome R)
    (p : Prog R A) (f : A -> Prog R B) :
  settle net (pbind p f)
  = match settle net p with
    | inl e => inl e
    | inr a => settle net (f a)
    end.
Proof. induction p as [a | m | req k IH]; simpl; [reflexivity .. | apply IH]. Qed.

Section SupplementaryKey.

Variable env : gmap string string.
Variable clock : Clock.
Variable tokenCache : gmap string AuthManager.TokenCache.
Variable carrierCode : string.
Variable config : CarrierConfig.
Variable endpointType : option string.
Variable net : HttpRequest -> HttpOutcome AuthManager.OAuth2Token.

Local Abbreviation tokenCall :=
  (AuthManager.getOAuth2Token env clock tokenCache carrierCode config).

Local Abbreviation headersCall :=
  (AuthManager.getAuthHeaders env clock tokenCache carrierCode config endpointType).

(** C10. For an OAuth2 carrier the headers call fails exactly when the token
    call fails, with the same error: the supplementary-key lookup never fails
    it. When the token is obtained and the variable resolved for the
    supplementary key is unset (or empty), the headers are the Authorization
    header alone. *)
Theorem oauth2_supplementary_key_is_optional :
  type (auth config) = oauth2 ->
  (forall e, settle net tokenCall = inl e -> settle net headersCall = inl e)
  /\ (forall t cache', settle net tokenCall = inr (t, cache') ->
        exists headers,
          settle net headersCall = inr (headers, cache')
          /\ ((forall keys v,
                 apiKeys (auth config) = Some keys ->
                 AuthManager.supplementaryEnvVar keys endpointType = Some v ->
                 AuthManager.envValue env v = None) ->
              headers
              = {[ "Authorization" :=
                     AuthManager.tokenType t ++ " " ++ AuthManager.token t ]})).
Proof.
  intros Hty. unfold AuthManager.getAuthHeaders. rewrite Hty.
  rewrite settle_pbind. split.
  - intros e ->. reflexivity.
  - intros t cache' ->. cbn [settle]. eexists. split; [reflexivity |].
    intros Hunset. unfold AuthManager.oauth2Headers.
    destruct (JS.truthy (headerName _)); [| reflexivity].
    destruct (apiKeys (auth config)) as [keys|]; [| reflexivity].
    specialize (Hunset keys).
    destruct (AuthManager.supplementaryEnvVar keys endpointType) as [v|];
      [| reflexivity].
    destruct (JS.truthy (Some v)) eqn:Hv; [| reflexivity].
    assert (JS.orElse (Some v) "" = v) as ->.
    { cbn in *. destruct (String.eqb v ""); [discriminate | reflexivity]. }
    rewrite (Hunset v eq_refl eq_refl). reflexivity.
Qed.

End SupplementaryKey.

Lemma oauth2_supplementary_key_is_optional_witness :
  settle grantingNet
    (AuthManager.getAuthHeaders maerskEnv (fun _ => 0) ∅ "MAERSK"
       maerskAuthConfig (Some "schedule"))
  = inr ({[ "Authorization" := "Bearer tok" ]},
         <[ "MAERSK_oauth2" := grantedToken ]> ∅).
Proof.
  assert (Htoken :
    settle grantingNet
      (AuthManager.getOAuth2Token maerskEnv (fun _ => 0) ∅ "MAERSK" maerskAuthConfig)
    = inr (grantedToken, <[ "MAERSK_oauth2" := grantedToken ]> ∅))
    by (vm_compute; reflexivity).
  destruct (proj2 (oauth2_supplementary_key_is_optional maerskEnv (fun _ => 0) ∅
                     "MAERSK" maerskAuthConfig (Some "schedule") grantingNet eq_refl)
              grantedToken (<[ "MAERSK_oauth2" := grantedToken ]> ∅) Htoken)
    as (headers & Hcall & Honly).
  rewrite Hcall. f_equal. f_equal. apply Honly.
  intros keys v [= <-] Hv. vm_compute in Hv. injection Hv as <-.
  vm_compute. reflexivity.
Defined.

(* --------------------------------------------------------------------- *)
(** ** Fan-out aggregator *)
(* --------------------------------------------------------------------- *)

Section FanOutProperties.

Context {Rec Query : Type}.
Variable adapters : gmap string (@Controller.CarrierAdapter Rec Query).
Variable emptyMessage : string.
Variable queryParams : Query.

Local Abbreviation query := (Controller.queryCarrier adapters queryParams).
Local Abbreviation contributed := (@Controller.contributed Rec).
Local Abbreviation reported := (@Controller.reported Rec emptyMessage).

Lemma processResult_step ok errs data :
  Controller.processResult emptyMessage (ok, errs) data
  = ((ok ++ contributed data)%list, (errs ++ reported data)%list).
Proof.
  unfold Controller.processResult, Controller.contributed, Controller.reported.
  destruct (Controller.success data), (Controller.records data);
    rewrite ?app_nil_r; reflexivity.
Qed.

(** The loop visits every settled result: no failure stops it. *)
Lemma processResult_fold results ok errs :
  fold_left (Controller.processResult emptyMessage) results (ok, errs)
  = ((ok ++ flat_map contributed results)%list,
     (errs ++ flat_map reported results)%list).
Proof.
  revert ok errs.
  induction results as [|data results IH]; intros ok errs; cbn [fold_left flat_map].
  - rewrite !app_nil_r. reflexivity.
  - rewrite processResult_step, IH, <- !app_assoc. reflexivity.
Qed.

(** A carrier whose call throws is reported under its own code, with the
    message of the error. *)
Lemma failed_carrier_reported code :
  Controller.succeeded adapters queryParams code = false ->
  exists message,
    reported (query code)
    = [ {| Controller.ce_carrier := code; Controller.ce_error := message |} ].
Proof.
  unfold Controller.succeeded, Controller.queryCarrier.
  destruct (Controller.getAdapter adapters code) as [m | adapter].
  - intros _. eexists. reflexivity.
  - destruct (Controller.getRecords adapter queryParams) as [m | rs].
    + intros _. eexists. reflexivity.
    + discriminate.
Qed.

(** When no carrier succeeds the reply is the collective failure, with one
    error record per carrier queried, in order. *)
Lemma fanOut_all_failed (carrierCodes : list string) :
  carrierCodes <> [] ->
  (forall code, In code carrierCodes ->
     Controller.succeeded adapters queryParams code = false) ->
  exists errors,
    Controller.fanOut adapters emptyMessage carrierCodes queryParams
    = Controller.Status503 errors
    /\ map Controller.ce_carrier errors = carrierCodes.
Proof.
  intros Hne Hall. unfold Controller.fanOut.
  destruct carrierCodes as [|c0 cs]; [contradiction |].
  rewrite processResult_fold. cbn [app].
  set (codes := c0 :: cs) in *.
  assert (Hrec : flat_map contributed (map query codes) = []
                 /\ map Controller.ce_carrier (flat_map reported (map query codes))
                    = codes).
  { clearbody codes. clear Hne. induction codes as [|c codes IH]; [split; reflexivity |].
    destruct IH as [IH1 IH2]; [intros; apply Hall; right; assumption |].
    pose proof (Hall c (or_introl eq_refl)) as Hc.
    destruct (failed_carrier_reported c Hc) as [m Hm].
    cbn [map flat_map]. rewrite Hm, IH1. split.
    - unfold contributed. unfold Controller.succeeded in Hc. rewrite Hc. reflexivity.
    - cbn. rewrite IH2. reflexivity. }
  destruct Hrec as [Hok Herr]. rewrite Hok.
  destruct (flat_map reported (map query codes)) as [|e es] eqn:Ees.
  - subst codes. discriminate Herr.
  - cbn. eexists. split; [reflexivity | exact Herr].
Qed.

(** When some carrier returns at least one record the reply is a success
    carrying every record contributed and the error list. *)
Lemma fanOut_with_records (carrierCodes : list string) :
  flat_map contributed (map query carrierCodes) <> [] ->
  exists meta,
    Controller.fanOut adapters emptyMessage carrierCodes queryParams
    = Controller.Status200 (flat_map contributed (map query carrierCodes)) meta
        (match flat_map reported (map query carrierCodes) with
         | [] => None
         | _ :: _ => Some (flat_map reported (map query carrierCodes))
         end).
Proof.
  intros Hne. unfold Controller.fanOut.
  destruct carrierCodes as [|c0 cs]; [contradiction Hne; reflexivity |].
  rewrite processResult_fold. cbn [app].
  destruct (flat_map contributed _) as [|r rs]; [contradiction Hne; reflexivity |].
  cbn. eexists. reflexivity.
Qed.

End FanOutProperties.

(** C1 (failing input). Two carriers are queried: HMM succeeds and returns
    zero records, ZIM throws. The ZIM error is caught and reported, HMM does
    count as a carrier that succeeded, and yet the reply of both controllers
    is the collective failure "All carriers failed" (status 503) instead of a
    success with an empty data list. *)
Theorem fanout_empty_success_reported_as_total_failure
    {Rec Query : Type} (queryParams : Query) :
  let zimError :=
    {| Controller.ce_carrier := "ZIM";
       Controller.ce_error :=
         "ZIM Schedule API requires both origin and destination locations. Please provide originCode and destCode via extended query parameters." |} in
  Controller.succeeded (@twoCarriers Rec Query) queryParams "HMM" = true
  /\ Controller.succeeded (@twoCarriers Rec Query) queryParams "ZIM" = false
  /\ Controller.getSchedules (@twoCarriers Rec Query) ["HMM"; "ZIM"] queryParams
     = Controller.Status503 [zimError]
  /\ Controller.getTracking (@twoCarriers Rec Query) ["HMM"; "ZIM"] queryParams
     = Controller.Status503 [zimError].
Proof. repeat split; vm_compute; reflexivity. Qed.

(* --------------------------------------------------------------------- *)
(** ** The Maersk point-to-point mapper keeps the invariant *)
(* --------------------------------------------------------------------- *)

Section MaerskPointToPoint.

Import MaerskPointToPointAdapter.

Lemma pushCall_hasCalls call vs :
  (exists l, transportCalls vs = Some l) -> hasCalls (pushCall call vs) = true.
Proof.
  intros [l Hl]. unfold hasCalls, pushCall. cbn. rewrite Hl.
  destruct l; reflexivity.
Qed.

Lemma hasCalls_some vs : hasCalls vs = true -> exists l, transportCalls vs = Some l.
Proof.
  unfold hasCalls. destruct (transportCalls vs) as [l|]; [eauto | discriminate].
Qed.

Lemma findOrCreateAndPush_good vesselIMO fresh call vss :
  transportCalls fresh = Some [] ->
  forallb hasCalls vss = true ->
  findOrCreateAndPush vesselIMO fresh call vss <> []
  /\ forallb hasCalls (findOrCreateAndPush vesselIMO fresh call vss) = true.
Proof.
  intros Hfresh. induction vss as [|vs rest IH]; intros Hall; cbn.
  - split; [discriminate |]. rewrite pushCall_hasCalls by eauto. reflexivity.
  - cbn in Hall. apply andb_true_iff in Hall as [Hvs Hrest].
    destruct (hasIMO vesselIMO vs).
    + split; [discriminate |]. cbn.
      rewrite pushCall_hasCalls by (apply hasCalls_some, Hvs). exact Hrest.
    + split; [discriminate |]. cbn. rewrite Hvs. apply IH, Hrest.
Qed.

Lemma mapUpdate_good m k f :
  goodMap m ->
  (forall v, everyVesselHasCalls (serviceSchedule v) ->
             everyVesselHasCalls (serviceSchedule (f v))) ->
  goodMap (mapUpdate m k f).
Proof.
  intros Hm Hf. induction Hm as [|[k' v] m' Hv Hm' IH]; cbn; [constructor |].
  destruct (String.eqb k' k); constructor; auto. apply Hf, Hv.
Qed.

Lemma mapUpdate_new {V} (m : list (string * V)) k v f :
  mapHas m k = false ->
  mapUpdate (m ++ [(k, v)]) k f = (m ++ [(k, f v)])%list.
Proof.
  induction m as [|[k' v'] m' IH]; cbn.
  - intros _. rewrite String.eqb_refl. reflexivity.
  - destruct (String.eqb k' k); [discriminate |]. cbn. intros H.
    rewrite IH by exact H. reflexivity.
Qed.

Lemma processLeg_good route m leg :
  goodMap m -> goodMap (processLeg route m leg).
Proof.
  intros Hm. unfold processLeg.
  destruct (negb _); [exact Hm |].
  destruct (match Payload.vessel _ with Some v => Some v | None => _ end) as [v|];
    [| exact Hm].
  cbv zeta.
  set (code := JS.orElse _ "UNKNOWN_SERVICE").
  destruct (mapHas m code) eqn:Hhas.
  - apply mapUpdate_good; [exact Hm |].
    intros s [_ Hs]. unfold everyVesselHasCalls.
    cbn [serviceSchedule vesselSchedules].
    apply findOrCreateAndPush_good; [reflexivity | exact Hs].
  - rewrite mapUpdate_new by exact Hhas.
    apply Forall_app. split; [exact Hm |]. constructor; [| constructor].
    unfold everyVesselHasCalls. cbn [serviceSchedule vesselSchedules snd].
    apply findOrCreateAndPush_good; reflexivity.
Qed.

Lemma processLegs_good route legs m :
  goodMap m -> goodMap (fold_left (processLeg route) legs m).
Proof.
  revert m. induction legs as [|leg legs IH]; intros m Hm; cbn; [exact Hm |].
  apply IH, processLeg_good, Hm.
Qed.

Lemma addRouteInfo_schedule route s :
  serviceSchedule (addRouteInfo route s) = serviceSchedule s.
Proof.
  unfold addRouteInfo. destruct (pointToPointRoutes s); [| reflexivity].
  destruct (existsb _ _); reflexivity.
Qed.

Lemma processRoute_good m route : goodMap m -> goodMap (processRoute m route).
Proof.
  intros Hm. unfold processRoute.
  destruct (Payload.legs route) as [[|leg legs]|]; try exact Hm.
  apply mapUpdate_good; [apply processLegs_good, Hm |].
  intros v Hv. rewrite addRouteInfo_schedule. exact Hv.
Qed.

Lemma processRoutes_good routes m :
  goodMap m -> goodMap (fold_left processRoute routes m).
Proof.
  revert m. induction routes as [|r routes IH]; intros m Hm; cbn; [exact Hm |].
  apply IH, processRoute_good, Hm.
Qed.

Lemma everyVesselHasCalls_invariant s :
  everyVesselHasCalls s -> hasTransportCall s = true.
Proof.
  unfold everyVesselHasCalls, hasTransportCall. intros [Hne Hall].
  destruct (vesselSchedules s) as [|vs rest]; [contradiction |].
  cbn in *. apply andb_true_iff in Hall as [-> _]. reflexivity.
Qed.

(** For every payload, every service schedule the Maersk point-to-point
    mapper returns has vessel schedules, each of them carries a transport
    call, and so the invariant [hasTransportCall] holds on it. *)
Lemma maersk_mapper_keeps_invariant routes :
  Forall (fun rs => everyVesselHasCalls (serviceSchedule rs)
                    /\ hasTransportCall (serviceSchedule rs) = true)
         (mapPointToPointToDCSA routes).
Proof.
  unfold mapPointToPointToDCSA.
  destruct routes as [[|r rs]|]; try constructor.
  assert (Hgood : goodMap (fold_left processRoute (r :: rs) []))
    by (apply processRoutes_good; constructor).
  apply List.Forall_forall. intros x Hx.
  apply filter_In in Hx as [Hx _]. apply in_map_iff in Hx as ([k v] & <- & Hin).
  unfold goodMap in Hgood. rewrite List.Forall_forall in Hgood.
  specialize (Hgood _ Hin). cbn in *.
  split; [exact Hgood | apply everyVesselHasCalls_invariant, Hgood].
Qed.

End MaerskPointToPoint.

(** C2. The invariant "every service schedule of a mapper's output has a
    vessel schedule with a transport call" holds for the Maersk
    point-to-point mapper on every payload, and fails for the HMM schedule
    mapper: an HMM item with a voyage code and neither arrival nor departure
    yields a service schedule whose only vessel schedule has no transport
    call, and that schedule is returned, not dropped. *)
Theorem mapper_invariant_maersk_keeps_hmm_leaks :
  (forall routes,
     Forall (fun rs =>
               hasTransportCall (MaerskPointToPointAdapter.serviceSchedule rs)
               = true)
            (MaerskPointToPointAdapter.mapPointToPointToDCSA routes))
  /\ (forall localeCompare clk,
        exists s,
          runMapper (HMMScheduleMapper.mapHMMScheduleToDCSA localeCompare
                       (hmmResponseOf [hmmItemNoDates]) None) clk = inr [s]
          /\ vesselSchedules s
             = [ {| vessel := None; isDummyVessel := true;
                    transportCalls := None |} ]
          /\ hasTransportCall s = false).
Proof.
  split.
  - intros routes. eapply List.Forall_impl; [| apply maersk_mapper_keeps_invariant].
    intros rs [_ H]. exact H.
  - exact hmm_mapper_returns_schedule_without_calls.
Qed.

(* ===================================================================== *)
(** * Further properties of the code *)
(* ===================================================================== *)

(* --------------------------------------------------------------------- *)
(** ** Grouping and sorting in the vendor mappers *)
(* --------------------------------------------------------------------- *)

Section Grouping.

Context {V : Type}.
Variable key : V -> string.

Local Abbreviation keyIs k := (fun v : V => String.eqb (key v) k).

Lemma mapPush_keys_old (m : list (string * list V)) k v :
  In k (map fst m) -> map fst (mapPush m k v) = map fst m.
Proof.
  induction m as [|[k' vs] m IH]; cbn; [contradiction |].
  destruct (String.eqb_spec k' k) as [-> | Hne]; [reflexivity |].
  intros [H | H]; [contradiction |]. cbn. rewrite IH by exact H. reflexivity.
Qed.

Lemma mapPush_keys_new (m : list (string * list V)) k v :
  ~ In k (map fst m) -> map fst (mapPush m k v) = (map fst m ++ [k])%list.
Proof.
  induction m as [|[k' vs] m IH]; cbn; [reflexivity |].
  intros H. destruct (String.eqb_spec k' k) as [-> | Hne]; [tauto |].
  cbn. rewrite IH by tauto. reflexivity.
Qed.

Lemma mapPush_In (m : list (string * list V)) k v k' vs' :
  List.NoDup (map fst m) ->
  In (k', vs') (mapPush m k v) ->
  (k' <> k /\ In (k', vs') m)
  \/ (k' = k /\ exists vs, In (k, vs) m /\ vs' = (vs ++ [v])%list)
  \/ (k' = k /\ ~ In k (map fst m) /\ vs' = [v]).
Proof.
  induction m as [|[k0 vs0] m IH]; cbn.
  - intros _ [H | []]. injection H as <- <-. right. right. tauto.
  - intros Hnd. apply NoDup_cons_iff in Hnd as [Hk0 Hnd].
    destruct (String.eqb_spec k0 k) as [-> | Hne]; cbn.
    + intros [H | H].
      * injection H as <- <-. right. left. split; [reflexivity |].
        exists vs0. split; [left; reflexivity | reflexivity].
      * left. split; [| right; exact H].
        intros ->. apply Hk0. apply (in_map fst) in H. exact H.
    + intros [H | H].
      * injection H as <- <-. left. split; [exact Hne | left; reflexivity].
      * destruct (IH Hnd H) as [[H1 H2] | [[H1 (vs & H2 & H3)] | (H1 & H2 & H3)]].
        -- left. tauto.
        -- right. left. split; [exact H1 |]. exists vs. tauto.
        -- right. right. repeat split; try assumption.
           intros [Heq | Hin]; [congruence | contradiction].
Qed.

Lemma mapPush_concat (m : list (string * list V)) k v :
  Permutation (concat (map snd (mapPush m k v))) (v :: concat (map snd m)).
Proof.
  induction m as [|[k' vs] m IH]; cbn; [reflexivity |].
  destruct (String.eqb k' k); cbn.
  - rewrite <- app_assoc. cbn. symmetry. apply Permutation_middle.
  - rewrite IH. symmetry. apply Permutation_middle.
Qed.

(** What the fold of [groupBy] keeps at every turn, for the items [seen] so
    far. *)
Lemma groupBy_step (m : list (string * list V)) (seen : list V) (x : V) :
  List.NoDup (map fst m)
  /\ (forall k vs, In (k, vs) m -> vs <> [] /\ vs = List.filter (keyIs k) seen)
  /\ (forall v, In v seen -> In (key v) (map fst m)) ->
  List.NoDup (map fst (mapPush m (key x) x))
  /\ (forall k vs, In (k, vs) (mapPush m (key x) x) ->
        vs <> [] /\ vs = List.filter (keyIs k) (seen ++ [x]))
  /\ (forall v, In v (seen ++ [x]) -> In (key v) (map fst (mapPush m (key x) x))).
Proof.
  intros (Hnd & Hgroups & Hkeys).
  assert (Hdec : In (key x) (map fst m) \/ ~ In (key x) (map fst m)).
  { destruct (in_dec String.string_dec (key x) (map fst m)); tauto. }
  split; [| split].
  - destruct Hdec as [Hin | Hnin].
    + rewrite mapPush_keys_old by exact Hin. exact Hnd.
    + rewrite mapPush_keys_new by exact Hnin.
      apply List.NoDup_app; [exact Hnd | constructor; [intros [] | constructor] |].
      intros k Hk [<- | []]. contradiction.
  - intros k vs Hin. rewrite List.filter_app. cbn [List.filter].
    destruct (mapPush_In _ _ _ _ _ Hnd Hin)
      as [[Hne Hold] | [[-> (vs0 & Hold & ->)] | (-> & Hnew & ->)]].
    + destruct (Hgroups _ _ Hold) as [H1 H2]. split; [exact H1 |].
      destruct (String.eqb_spec (key x) k) as [E | _]; [congruence |].
      rewrite app_nil_r. exact H2.
    + destruct (Hgroups _ _ Hold) as [_ H2]. rewrite String.eqb_refl.
      split; [destruct vs0; discriminate | rewrite <- H2; reflexivity].
    + rewrite String.eqb_refl. split; [discriminate |].
      assert (Hnone : List.filter (keyIs (key x)) seen = []).
      { destruct (List.filter (keyIs (key x)) seen) as [|v rest] eqn:E;
          [reflexivity |].
        assert (Hv : In v (List.filter (keyIs (key x)) seen))
          by (rewrite E; left; reflexivity).
        apply filter_In in Hv as [Hv Hk]. apply String.eqb_eq in Hk.
        exfalso. apply Hnew. rewrite <- Hk. apply Hkeys, Hv. }
      rewrite Hnone. reflexivity.
  - intros v Hv. apply in_app_iff in Hv as [Hv | [<- | []]].
    + specialize (Hkeys _ Hv). destruct Hdec as [Hin | Hnin].
      * rewrite mapPush_keys_old by exact Hin. exact Hkeys.
      * rewrite mapPush_keys_new by exact Hnin. apply in_app_iff. tauto.
    + destruct Hdec as [Hin | Hnin].
      * rewrite mapPush_keys_old by exact Hin. exact Hin.
      * rewrite mapPush_keys_new by exact Hnin. apply in_app_iff. right. left.
        reflexivity.
Qed.

Lemma groupBy_fold (items : list V) (m : list (string * list V)) (seen : list V) :
  List.NoDup (map fst m)
  /\ (forall k vs, In (k, vs) m -> vs <> [] /\ vs = List.filter (keyIs k) seen)
  /\ (forall v, In v seen -> In (key v) (map fst m)) ->
  let m' := fold_left (fun m item => mapPush m (key item) item) items m in
  List.NoDup (map fst m')
  /\ (forall k vs, In (k, vs) m' ->
        vs <> [] /\ vs = List.filter (keyIs k) (seen ++ items))
  /\ (forall v, In v (seen ++ items) -> In (key v) (map fst m')).
Proof.
  revert m seen. induction items as [|x items IH]; intros m seen H; cbn.
  - rewrite app_nil_r. exact H.
  - specialize (IH _ _ (groupBy_step m seen x H)). cbn in IH.
    rewrite <- app_assoc in IH. exact IH.
Qed.

Lemma groupBy_fold_concat (items : list V) (m : list (string * list V)) :
  Permutation
    (concat (map snd (fold_left (fun m item => mapPush m (key item) item) items m)))
    (concat (map snd m) ++ items).
Proof.
  revert m. induction items as [|x items IH]; intros m; cbn.
  - rewrite app_nil_r. reflexivity.
  - rewrite IH, mapPush_concat. cbn. apply Permutation_middle.
Qed.

Lemma groupBy_concat (items : list V) :
  Permutation (concat (map snd (groupBy key items))) items.
Proof. apply (groupBy_fold_concat items []). Qed.

Lemma groupBy_spec (items : list V) :
  List.NoDup (map fst (groupBy key items))
  /\ (forall k vs, In (k, vs) (groupBy key items) ->
        vs <> [] /\ vs = List.filter (keyIs k) items)
  /\ (forall v, In v items -> In (key v) (map fst (groupBy key items))).
Proof.
  apply (groupBy_fold items [] []).
  split; [constructor | split; intros; contradiction].
Qed.

Lemma groupBy_groups (items : list V) k vs :
  In (k, vs) (groupBy key items) -> vs <> [] /\ vs = List.filter (keyIs k) items.
Proof. apply groupBy_spec. Qed.

(** X1. The grouping loop of the vendor mappers
    ([if (!m.has(k)) m.set(k, []); m.get(k).push(item)]) loses no item and
    duplicates none: the groups list every key once, no group is empty, each
    group holds exactly the items of its key in their input order, and the
    groups taken together are a rearrangement of the input. *)
Theorem groupBy_partitions_the_items (items : list V) :
  List.NoDup (map fst (groupBy key items))
  /\ (forall k vs, In (k, vs) (groupBy key items) ->
        vs <> [] /\ vs = List.filter (keyIs k) items)
  /\ (forall v, In v items -> In (key v) (map fst (groupBy key items)))
  /\ Permutation (concat (map snd (groupBy key items))) items.
Proof.
  destruct (groupBy_spec items) as (H1 & H2 & H3).
  repeat split; try assumption.
  - apply (H2 _ _ H).
  - apply (H2 _ _ H).
  - apply groupBy_concat.
Qed.

End Grouping.

Lemma sortInsert_perm {V} (compare : V -> V -> Z) x l :
  Permutation (sortInsert compare x l) (x :: l).
Proof.
  induction l as [|y l IH]; cbn; [reflexivity |].
  destruct (compare x y <=? 0); [reflexivity |].
  rewrite IH. apply perm_swap.
Qed.

Lemma sort_perm {V} (compare : V -> V -> Z) l : Permutation (sort compare l) l.
Proof.
  induction l as [|x l IH]; cbn; [reflexivity |].
  unfold sort in IH. rewrite sortInsert_perm, IH. reflexivity.
Qed.


Lemma count_perm {A} (p : A -> bool) l l' :
  Permutation l l' -> length (List.filter p l) = length (List.filter p l').
Proof.
  induction 1; cbn; try congruence.
  - destruct (p x); cbn; congruence.
  - destruct (p x), (p y); reflexivity.
Qed.


Lemma count_concat {A} (p : A -> bool) (ll : list (list A)) :
  length (List.filter p (concat ll))
  = list_sum (map (fun l => length (List.filter p l)) ll).
Proof.
  induction ll as [|l ll IH]; cbn; [reflexivity |].
  rewrite List.filter_app, length_app, IH. reflexivity.
Qed.


Lemma count_groupBy {V} (key : V -> string) (p : V -> bool) items :
  list_sum (map (fun e => length (List.filter p (snd e))) (groupBy key items))
  = length (List.filter p items).
Proof.
  rewrite <- (count_perm p _ _ (groupBy_concat key items)), count_concat, map_map.
  reflexivity.
Qed.

(** A loop throws exactly when the body throws on some element, and what a
    loop that returns has built is the sum of what its turns built. *)
Lemma mfor_throws {A B} (f : A -> Mapper B) (bad : A -> bool) clk :
  (forall a n, throws (f a clk n) = bad a) ->
  forall l n, throws (mfor f l clk n) = existsb bad l.
Proof.
  intros Hf. induction l as [|a l IH]; intros n; cbn [mfor existsb]; [reflexivity |].
  unfold mbind at 1. rewrite <- (Hf a n).
  destruct (f a clk n) as [e | [b n1]]; cbn [throws orb]; [reflexivity |].
  unfold mbind. rewrite <- (IH n1).
  destruct (mfor f l clk n1) as [e | [bs n2]]; reflexivity.
Qed.

Lemma mfor_sum {A B} (f : A -> Mapper B) (mb : B -> nat) (ma : A -> nat) clk :
  (forall a n b n', f a clk n = inr (b, n') -> mb b = ma a) ->
  forall l n bs n', mfor f l clk n = inr (bs, n') ->
    list_sum (map mb bs) = list_sum (map ma l).
Proof.
  intros Hf. induction l as [|a l IH]; intros n bs n'; cbn [mfor].
  - intros H. injection H as <- _. reflexivity.
  - unfold mbind at 1. destruct (f a clk n) as [e | [b n1]] eqn:Ea; [discriminate |].
    unfold mbind. destruct (mfor f l clk n1) as [e | [bs' n2]] eqn:El; [discriminate |].
    intros H. injection H as <- _.
    change (mb b + list_sum (map mb bs') = ma a + list_sum (map ma l))%nat.
    rewrite (Hf _ _ _ _ Ea), (IH _ _ _ El). reflexivity.
Qed.

Lemma mfor_length {A B} (f : A -> Mapper B) clk l n bs n' :
  mfor f l clk n = inr (bs, n') -> length bs = length l.
Proof.
  revert n bs n'. induction l as [|a l IH]; intros n bs n'; cbn [mfor].
  - intros H. injection H as <- _. reflexivity.
  - unfold mbind at 1. destruct (f a clk n) as [e | [b n1]]; [discriminate |].
    unfold mbind. destruct (mfor f l clk n1) as [e | [bs' n2]] eqn:El; [discriminate |].
    intros H. injection H as <- _. cbn. rewrite (IH _ _ _ El). reflexivity.
Qed.

Lemma count_as_sum {A} (p : A -> bool) l :
  length (List.filter p l)
  = list_sum (map (fun a => if p a then 1%nat else 0%nat) l).
Proof.
  induction l as [|a l IH]; cbn; [reflexivity |].
  destruct (p a); cbn; rewrite IH; reflexivity.
Qed.

Lemma omap_id_length {A} (l : list (option A)) :
  length (omap id l)
  = list_sum (map (fun o : option A => length (option_list o)) l).
Proof.
  induction l as [|[a|] l IH]; cbn; rewrite ?IH; reflexivity.
Qed.

Lemma default_nonempty_length {A} (l : list A) :
  length (default [] (match l with [] => None | _ => Some l end)) = length l.
Proof. destruct l; reflexivity. Qed.

(* --------------------------------------------------------------------- *)
(** ** The HMM schedule mapper *)
(* --------------------------------------------------------------------- *)

Lemma convertHMMDateTime_throws d t :
  throws (HMMScheduleMapper.convertHMMDateTime d t)
  = negb ((String.length d =? 8)%nat && (String.length t =? 4)%nat).
Proof.
  unfold HMMScheduleMapper.convertHMMDateTime.
  destruct (String.length d =? 8)%nat eqn:Ed.
  - apply Nat.eqb_eq in Ed. rewrite (eqb_empty_length d 7 Ed). cbn [orb negb].
    destruct (String.length t =? 4)%nat eqn:Et.
    + apply Nat.eqb_eq in Et. rewrite (eqb_empty_length t 3 Et). reflexivity.
    + rewrite orb_true_r. reflexivity.
  - rewrite orb_true_r. reflexivity.
Qed.

(** One timestamp of an item: the code of [mapItem] for the arrival and for
    the departure. *)
Lemma hmm_timestamp_stage (complete : bool) (d t : string)
    (mk : string -> Timestamp) clk n :
  let stage : Mapper (list Timestamp) :=
    if complete
    then mbind (mlift (HMMScheduleMapper.convertHMMDateTime d t))
               (fun dt => mret [mk dt])
    else mret [] in
  throws (stage clk n)
  = complete && negb ((String.length d =? 8)%nat && (String.length t =? 4)%nat)
  /\ forall ts n', stage clk n = inr (ts, n') ->
       n' = n /\ (ts = [] <-> complete = false).
Proof.
  cbv zeta. destruct complete; cbn [andb].
  - rewrite <- convertHMMDateTime_throws. unfold mbind.
    destruct (HMMScheduleMapper.convertHMMDateTime d t) as [e | dt]; cbn.
    + split; [reflexivity | discriminate].
    + split; [reflexivity |]. intros ts n' H. injection H as <- <-.
      split; [reflexivity |]. split; discriminate.
  - cbn. split; [reflexivity |]. intros ts n' H. injection H as <- <-. tauto.
Qed.


Lemma hmm_item_call vvd item clk n r n' :
  HMMScheduleMapper.mapItem vvd item clk n = inr (r, n') ->
  length (option_list r) = (if hmmHasTimestamp item then 1%nat else 0%nat).
Proof.
  unfold HMMScheduleMapper.mapItem, hmmHasTimestamp. cbv zeta.
  fold (hmmHasArrival item). fold (hmmHasDeparture item).
  pose proof (fun mk d t c => hmm_timestamp_stage c d t mk clk) as Hstage.
  unfold mbind at 1.
  match goal with
  | |- context [if hmmHasArrival item then mbind (mlift (HMMScheduleMapper.convertHMMDateTime ?d ?t)) (fun dt => mret [@?mk dt]) else _] =>
      destruct (Hstage mk d t (hmmHasArrival item) n) as [_ Ha2]
  end.
  cbv zeta in Ha2.
  match type of Ha2 with
  | forall ts n', ?r = _ -> _ => destruct r as [e | [arrTs n1]] eqn:Ea
  end; [discriminate |].
  destruct (Ha2 _ _ eq_refl) as [-> Harr].
  unfold mbind at 1.
  match goal with
  | |- context [if hmmHasDeparture item then mbind (mlift (HMMScheduleMapper.convertHMMDateTime ?d ?t)) (fun dt => mret [@?mk dt]) else _] =>
      destruct (Hstage mk d t (hmmHasDeparture item) n) as [_ Hd2]
  end.
  cbv zeta in Hd2.
  match type of Hd2 with
  | forall ts n', ?r = _ -> _ => destruct r as [e | [depTs n1]] eqn:Ed
  end; [discriminate |].
  destruct (Hd2 _ _ eq_refl) as [-> Hdep].
  destruct arrTs as [|a arrTs]; [destruct depTs as [|b depTs] |]; cbn [app].
  - intros H. injection H as <- _.
    rewrite (proj1 Harr eq_refl), (proj1 Hdep eq_refl). reflexivity.
  - intros H. cbn in H. injection H as <- _.
    destruct (hmmHasDeparture item); [rewrite orb_true_r; reflexivity |].
    destruct Hdep as [_ Hdep]. discriminate (Hdep eq_refl).
  - intros H. cbn in H. injection H as <- _.
    destruct (hmmHasArrival item); [reflexivity |].
    destruct Harr as [_ Harr]. discriminate (Harr eq_refl).
Qed.

Section HMMMapperProperties.

Variable localeCompare : string -> string -> Z.


Lemma hmm_vessel_calls vvd entry clk n v n' :
  HMMScheduleMapper.mapVessel localeCompare vvd entry clk n = inr (v, n') ->
  length (callsOfVessel v) = length (List.filter hmmHasTimestamp (snd entry)).
Proof.
  destruct entry as [vesselName vesselItems]. unfold HMMScheduleMapper.mapVessel.
  cbn [snd]. unfold mbind.
  destruct (mfor _ _ clk n) as [e | [calls n1]] eqn:Ecalls; [discriminate |].
  intros H. injection H as <- _. unfold callsOfVessel. cbn [transportCalls].
  rewrite default_nonempty_length, omap_id_length.
  rewrite (mfor_sum _ _ (fun item => if hmmHasTimestamp item then 1%nat else 0%nat)
             clk (fun a n b n' => hmm_item_call vvd a clk n b n') _ _ _ _ Ecalls).
  rewrite <- count_as_sum. apply count_perm, sort_perm.
Qed.


Lemma hmm_voyage_calls svc entry clk n s n' :
  HMMScheduleMapper.mapVoyage localeCompare svc entry clk n = inr (s, n') ->
  length (callsOfService s) = length (List.filter hmmHasTimestamp (snd entry)).
Proof.
  destruct entry as [vvdCode items]. unfold HMMScheduleMapper.mapVoyage.
  cbn [snd]. unfold mbind.
  destruct (mfor _ _ clk n) as [e | [vss n1]] eqn:Evss; [discriminate |].
  intros H. injection H as <- _. unfold callsOfService. cbn [vesselSchedules].
  rewrite length_flat_map.
  rewrite (mfor_sum _ _ (fun e => length (List.filter hmmHasTimestamp (snd e)))
             clk (fun a n b n' => hmm_vessel_calls vvdCode a clk n b n') _ _ _ _ Evss).
  apply count_groupBy.
Qed.


(** X3. When the HMM schedule mapper returns, its output holds exactly one
    transport call for each item of the response that carries a complete
    arrival or departure pair: grouping by voyage and by vessel and sorting
    by date lose no port call and duplicate none, and an item without a
    complete pair contributes no call. *)
Theorem hmm_mapper_one_call_per_dated_item resp svc clk :
  match runMapper (HMMScheduleMapper.mapHMMScheduleToDCSA localeCompare resp svc)
          clk with
  | inl _ => True
  | inr out =>
      length (callsOf out)
      = length (List.filter hmmHasTimestamp (hmmItems resp))
  end.
Proof.
  unfold runMapper, HMMScheduleMapper.mapHMMScheduleToDCSA, hmmItems.
  destruct (HMMScheduleMapper.resultData resp) as [[|item items]|]; try reflexivity.
  change (default [] (Some (item :: items))) with (item :: items).
  destruct (mfor _ _ clk 0%nat) as [e | [out n1]] eqn:Eout; [exact I |].
  unfold callsOf. rewrite length_flat_map.
  rewrite (mfor_sum _ _ (fun e => length (List.filter hmmHasTimestamp (snd e)))
             clk (fun a n b n' => hmm_voyage_calls svc a clk n b n') _ _ _ _ Eout).
  apply count_groupBy.
Qed.

End HMMMapperProperties.

(* --------------------------------------------------------------------- *)
(** ** The ZIM schedule mapper *)
(* --------------------------------------------------------------------- *)

Lemma mfor_map {A B C} (f : A -> Mapper B) (g : B -> C) (h : A -> C) clk :
  (forall a n b n', f a clk n = inr (b, n') -> g b = h a) ->
  forall l n bs n', mfor f l clk n = inr (bs, n') -> map g bs = map h l.
Proof.
  intros Hf. induction l as [|a l IH]; intros n bs n'; cbn [mfor].
  - intros H. injection H as <- _. reflexivity.
  - unfold mbind at 1. destruct (f a clk n) as [e | [b n1]] eqn:Ea; [discriminate |].
    unfold mbind. destruct (mfor f l clk n1) as [e | [bs' n2]] eqn:El; [discriminate |].
    intros H. injection H as <- _. cbn [map].
    rewrite (Hf _ _ _ _ Ea), (IH _ _ _ El). reflexivity.
Qed.

Lemma existsb_never {A} (l : list A) : existsb (fun _ => false) l = false.
Proof. induction l; [reflexivity | assumption]. Qed.

Lemma zim_reference_returns leg clk n :
  exists ref n', ZIMScheduleMapper.generateTransportCallReference leg clk n
                 = inr (ref, n').
Proof.
  unfold ZIMScheduleMapper.generateTransportCallReference.
  destruct (negb _); eexists _, _; reflexivity.
Qed.

Lemma zim_leg_returns leg clk n :
  exists r n',
    ZIMScheduleMapper.mapLeg leg clk n = inr (r, n')
    /\ length (option_list r) = (if zimHasDate leg then 1%nat else 0%nat).
Proof.
  unfold ZIMScheduleMapper.mapLeg, zimHasDate. cbv zeta.
  destruct (zim_reference_returns leg clk n) as (ref & n' & Href).
  destruct (JS.truthy (ZIMScheduleMapper.arrivalDate leg)),
           (JS.truthy (ZIMScheduleMapper.departureDate leg));
    cbn [app orb]; unfold mbind; rewrite ?Href;
    eexists _, _; (split; [reflexivity | reflexivity]).
Qed.

Lemma zim_leg_throws leg clk n :
  throws (ZIMScheduleMapper.mapLeg leg clk n) = false.
Proof. destruct (zim_leg_returns leg clk n) as (r & n' & -> & _). reflexivity. Qed.

Lemma zim_leg_call leg clk n r n' :
  ZIMScheduleMapper.mapLeg leg clk n = inr (r, n') ->
  length (option_list r) = (if zimHasDate leg then 1%nat else 0%nat).
Proof.
  destruct (zim_leg_returns leg clk n) as (r0 & n0 & -> & H).
  intros E. injection E as <- _. exact H.
Qed.

Lemma sort_nil {V} (compare : V -> V -> Z) l : sort compare l = [] -> l = [].
Proof.
  intros H. pose proof (Permutation_length (sort_perm compare l)) as Hl.
  rewrite H in Hl. destruct l; [reflexivity | discriminate].
Qed.

(** A vessel group makes the mapper fail only if it is empty (the read of
    [sortedLegs[0].vesselName]). *)
Lemma zim_vessel_throws entry clk n :
  throws (ZIMScheduleMapper.mapVessel entry clk n)
  = match snd entry with [] => true | _ => false end.
Proof.
  destruct entry as [k legs]. unfold ZIMScheduleMapper.mapVessel. cbn [snd].
  unfold mbind.
  pose proof (mfor_throws ZIMScheduleMapper.mapLeg (fun _ => false) clk
                (fun a n => zim_leg_throws a clk n)
                (sort (fun a b => ZIMScheduleMapper.legOrderOr0 a
                                   - ZIMScheduleMapper.legOrderOr0 b) legs) n) as H.
  rewrite existsb_never in H.
  destruct (mfor _ _ clk n) as [e | [calls n1]]; [discriminate H |].
  destruct (sort _ legs) as [|firstLeg rest] eqn:Es.
  - apply sort_nil in Es. subst legs. reflexivity.
  - destruct legs; [discriminate Es | reflexivity].
Qed.

Lemma zim_vessel_calls entry clk n v n' :
  ZIMScheduleMapper.mapVessel entry clk n = inr (v, n') ->
  length (callsOfVessel v) = length (List.filter zimHasDate (snd entry)).
Proof.
  destruct entry as [k legs]. unfold ZIMScheduleMapper.mapVessel. cbn [snd].
  unfold mbind.
  destruct (mfor _ _ clk n) as [e | [calls n1]] eqn:Ecalls; [discriminate |].
  destruct (sort _ legs) as [|firstLeg rest] eqn:Es; [discriminate |].
  intros H. injection H as <- _. unfold callsOfVessel. cbn [transportCalls].
  rewrite default_nonempty_length, omap_id_length.
  rewrite (mfor_sum _ _ (fun leg => if zimHasDate leg then 1%nat else 0%nat)
             clk (fun a n b n' => zim_leg_call a clk n b n') _ _ _ _ Ecalls).
  rewrite <- count_as_sum, <- Es. apply count_perm, sort_perm.
Qed.

Lemma groupBy_no_empty_group {V} (key : V -> string) (items : list V) :
  existsb (fun e : string * list V => match snd e with [] => true | _ => false end)
          (groupBy key items) = false.
Proof.
  destruct (existsb _ _) eqn:E; [| reflexivity].
  apply existsb_exists in E as ([k vs] & Hin & Hvs). cbn in Hvs.
  destruct (groupBy_groups key items k vs Hin) as [Hne _].
  destruct vs; [contradiction | discriminate].
Qed.

Lemma zim_route_throws route clk n :
  throws (ZIMScheduleMapper.mapRoute route clk n) = false.
Proof.
  unfold ZIMScheduleMapper.mapRoute.
  destruct (ZIMScheduleMapper.routeLegs route) as [[|leg legs]|]; try reflexivity.
  rewrite (mfor_throws ZIMScheduleMapper.mapVessel _ clk
             (fun a n => zim_vessel_throws a clk n)).
  apply groupBy_no_empty_group.
Qed.

Lemma zim_route_calls route clk n vss n' :
  ZIMScheduleMapper.mapRoute route clk n = inr (vss, n') ->
  length (flat_map callsOfVessel vss)
  = length (List.filter zimHasDate (default [] (ZIMScheduleMapper.routeLegs route))).
Proof.
  unfold ZIMScheduleMapper.mapRoute.
  destruct (ZIMScheduleMapper.routeLegs route) as [[|leg legs]|];
    try (intros H; injection H as <- _; reflexivity).
  intros H. rewrite length_flat_map.
  rewrite (mfor_sum _ _ (fun e => length (List.filter zimHasDate (snd e)))
             clk (fun a n b n' => zim_vessel_calls a clk n b n') _ _ _ _ H).
  apply count_groupBy.
Qed.

Lemma length_flat_map_concat {A B} (f : A -> list B) (ll : list (list A)) :
  length (flat_map f (concat ll))
  = list_sum (map (fun l => length (flat_map f l)) ll).
Proof.
  induction ll as [|l ll IH]; cbn; [reflexivity |].
  rewrite flat_map_app, length_app, IH. reflexivity.
Qed.

Lemma zim_service_throws entry clk n :
  throws (ZIMScheduleMapper.mapService entry clk n) = false.
Proof.
  destruct entry as [code rs]. unfold ZIMScheduleMapper.mapService, mbind.
  pose proof (mfor_throws ZIMScheduleMapper.mapRoute (fun _ => false) clk
                (fun a n => zim_route_throws a clk n) rs n) as H.
  rewrite existsb_never in H.
  destruct (mfor _ _ clk n) as [e | [perRoute n1]]; [discriminate H | reflexivity].
Qed.

Lemma zim_service_calls entry clk n s n' :
  ZIMScheduleMapper.mapService entry clk n = inr (s, n') ->
  carrierServiceCode s = fst entry
  /\ length (callsOfService s)
     = length (List.filter zimHasDate
                 (flat_map (fun r => default [] (ZIMScheduleMapper.routeLegs r))
                           (snd entry))).
Proof.
  destruct entry as [code rs]. unfold ZIMScheduleMapper.mapService, mbind.
  destruct (mfor _ _ clk n) as [e | [perRoute n1]] eqn:Eroutes; [discriminate |].
  intros H. injection H as <- _. split; [reflexivity |].
  unfold callsOfService. cbn [vesselSchedules snd].
  rewrite length_flat_map_concat.
  rewrite (mfor_sum _ _
             (fun r => length (List.filter zimHasDate
                                 (default [] (ZIMScheduleMapper.routeLegs r))))
             clk (fun a n b n' => zim_route_calls a clk n b n') _ _ _ _ Eroutes).
  rewrite flat_map_concat_map, count_concat, map_map. reflexivity.
Qed.

Lemma count_flat_map_groupBy {V W} (key : V -> string) (f : V -> list W)
    (p : W -> bool) (items : list V) :
  list_sum (map (fun e => length (List.filter p (flat_map f (snd e))))
                (groupBy key items))
  = length (List.filter p (flat_map f items)).
Proof.
  pose proof (groupBy_concat key items) as Hperm.
  assert (H : forall l l' : list V, Permutation l l' ->
                length (List.filter p (flat_map f l))
                = length (List.filter p (flat_map f l'))).
  { induction 1; cbn; rewrite ?List.filter_app, ?length_app; lia. }
  rewrite <- (H _ _ Hperm). clear.
  induction (groupBy key items) as [|e m IH]; [reflexivity |].
  cbn [map concat]. rewrite flat_map_app, List.filter_app, length_app, <- IH.
  reflexivity.
Qed.

(** X4. The ZIM schedule mapper on a payload whose fields have their
    declared types ([routes] and every [routeLegs] an array of objects, or
    absent). It returns: the read of the first leg of a vessel group,
    [sortedLegs[0]], cannot fail, since no group is empty. And its output
    holds exactly one transport call for each leg that carries an arrival or
    a departure date: no leg is lost or duplicated by the grouping by
    service and by vessel and by the sort on the leg order. (The mapper
    tests [routes] with [Array.isArray] but not [routeLegs]; a [routeLegs]
    of another type makes it throw, and is no payload of the declared
    type.) *)
Theorem zim_mapper_returns_one_call_per_dated_leg resp clk :
  exists out,
    runMapper (ZIMScheduleMapper.mapZIMScheduleToDCSA resp) clk = inr out
    /\ length (callsOf out) = length (List.filter zimHasDate (zimLegs resp)).
Proof.
  unfold runMapper, ZIMScheduleMapper.mapZIMScheduleToDCSA, zimLegs.
  destruct (ZIMScheduleMapper.routes resp) as [[|r rs]|];
    try (eexists; split; reflexivity).
  change (default [] (Some (r :: rs))) with (r :: rs).
  pose proof (mfor_throws ZIMScheduleMapper.mapService (fun _ => false) clk
                (fun a n => zim_service_throws a clk n)
                (groupBy ZIMScheduleMapper.extractServiceCode (r :: rs)) 0%nat) as H.
  rewrite existsb_never in H.
  destruct (mfor _ _ clk 0%nat) as [e | [out n1]] eqn:Eout; [discriminate H |].
  exists out. split; [reflexivity |]. unfold callsOf. rewrite length_flat_map.
  rewrite (mfor_sum _ _
             (fun e => length (List.filter zimHasDate
                         (flat_map (fun r => default []
                                               (ZIMScheduleMapper.routeLegs r))
                                   (snd e))))
             clk (fun a n b n' E => proj2 (zim_service_calls a clk n b n' E))
             _ _ _ _ Eout).
  apply count_flat_map_groupBy.
Qed.

(** X5. The ZIM schedule mapper returns one service schedule per service
    code: the codes of its output are pairwise distinct, and they are exactly
    the service codes of the routes of the payload (the line of the first
    leg, or ZIM-origin-destination), in the order of their first route. *)
Theorem zim_mapper_one_schedule_per_service resp clk :
  exists out,
    runMapper (ZIMScheduleMapper.mapZIMScheduleToDCSA resp) clk = inr out
    /\ List.NoDup (map carrierServiceCode out)
    /\ (forall code,
          In code (map carrierServiceCode out)
          <-> In code (map ZIMScheduleMapper.extractServiceCode
                           (default [] (ZIMScheduleMapper.routes resp)))).
Proof.
  unfold runMapper, ZIMScheduleMapper.mapZIMScheduleToDCSA.
  destruct (ZIMScheduleMapper.routes resp) as [[|r rs]|];
    try (eexists; split; [reflexivity | split; [constructor | tauto]]).
  change (default [] (Some (r :: rs))) with (r :: rs).
  pose proof (mfor_throws ZIMScheduleMapper.mapService (fun _ => false) clk
                (fun a n => zim_service_throws a clk n)
                (groupBy ZIMScheduleMapper.extractServiceCode (r :: rs)) 0%nat) as H.
  rewrite existsb_never in H.
  destruct (mfor _ _ clk 0%nat) as [e | [out n1]] eqn:Eout; [discriminate H |].
  exists out. split; [reflexivity |].
  rewrite (mfor_map _ carrierServiceCode fst clk
             (fun a n b n' E => proj1 (zim_service_calls a clk n b n' E))
             _ _ _ _ Eout).
  destruct (groupBy_spec ZIMScheduleMapper.extractServiceCode (r :: rs))
    as (Hnd & Hgroups & Hkeys).
  split; [exact Hnd |]. intros code. split.
  - intros Hin. apply in_map_iff in Hin as ([k vs] & <- & Hin). cbn [fst].
    destruct (Hgroups _ _ Hin) as [Hne Hvs].
    destruct vs as [|v vs]; [contradiction |].
    assert (Hv : In v (List.filter
                         (fun v => String.eqb
                                     (ZIMScheduleMapper.extractServiceCode v) k)
                         (r :: rs))) by (rewrite <- Hvs; left; reflexivity).
    apply filter_In in Hv as [Hv Hk]. apply String.eqb_eq in Hk.
    apply in_map_iff. exists v. tauto.
  - intros Hin. apply in_map_iff in Hin as (v & <- & Hv). apply Hkeys, Hv.
Qed.

(* --------------------------------------------------------------------- *)
(** ** Accounting of the fan-out *)
(* --------------------------------------------------------------------- *)

Section FanOutAccounting.

Context {Rec Query : Type}.
Variable adapters : gmap string (@Controllers.CarrierAdapter Rec Query).
Variables nullMessage notAFunction : string.
Variable guarded : bool.
Variable emptyMessage : string.
Variable queryParams : Query.

Local Abbreviation query := (Controllers.queryCarrier adapters nullMessage queryParams).
Local Abbreviation turn :=
  (@Controllers.processResult Rec notAFunction guarded emptyMessage).
Local Abbreviation records := (recordsOf adapters queryParams).
Local Abbreviation errors := (errorsOf adapters nullMessage emptyMessage queryParams).
Local Abbreviation notArray := (returnsNotArray adapters queryParams).

(** One turn of the loop, on the result of a carrier. *)
Lemma turn_on_carrier ok errs code :
  turn (inr (ok, errs)) (query code)
  = if negb guarded && notArray code then inl notAFunction
    else inr ((ok ++ records code)%list, (errs ++ errors code)%list).
Proof.
  unfold Controllers.processResult, Controllers.queryCarrier, recordsOf,
    errorsOf, returnsNotArray, outcomeOf.
  destruct (Controllers.getAdapter adapters code) as [message | adapter].
  - cbn. rewrite andb_false_r, app_nil_r.
    destruct (String.eqb message "") eqn:E; cbn; rewrite ?E; reflexivity.
  - destruct (Controllers.call adapter queryParams) as [message | | [| | rs]];
      cbn; rewrite ?andb_false_r, ?andb_true_r, ?app_nil_r; try reflexivity.
    + destruct (String.eqb message "") eqn:E; cbn; rewrite ?E; reflexivity.
    + destruct guarded; reflexivity.
Qed.

Lemma turn_after_throw results thrown :
  fold_left turn results (inl thrown) = inl thrown.
Proof. induction results as [|r results IH]; [reflexivity | exact IH]. Qed.

(** The loop: it throws at the first carrier that returned a value that is
    not an array, when the controller has no test for that; otherwise it
    visits every carrier and appends what each adds. *)
Lemma loop_on_carriers carrierCodes ok errs :
  fold_left turn (map query carrierCodes) (inr (ok, errs))
  = if negb guarded && existsb notArray carrierCodes then inl notAFunction
    else inr ((ok ++ flat_map records carrierCodes)%list,
              (errs ++ flat_map errors carrierCodes)%list).
Proof.
  revert ok errs. induction carrierCodes as [|c cs IH]; intros ok errs.
  - cbn. rewrite andb_false_r, !app_nil_r. reflexivity.
  - cbn [map fold_left existsb flat_map]. rewrite turn_on_carrier.
    destruct (negb guarded && notArray c) eqn:E.
    + rewrite turn_after_throw. apply andb_true_iff in E as [Hg Hn].
      rewrite Hg, Hn. reflexivity.
    + rewrite IH, <- !app_assoc.
      destruct (negb guarded), (notArray c); try discriminate E; reflexivity.
Qed.

(** A carrier is listed in the errors at most once, and not when it
    contributes records. *)
Lemma carrier_errors code :
  (length (errors code) <= 1)%nat /\ (records code = [] \/ errors code = []).
Proof.
  unfold recordsOf, errorsOf, outcomeOf.
  destruct (Controllers.getAdapter adapters code) as [message | adapter].
  - split; [cbn; lia | left; reflexivity].
  - destruct (Controllers.call adapter queryParams) as [message | | [| | rs]];
      cbn; split; auto; lia.
Qed.

Lemma errors_count carrierCodes :
  length (flat_map errors carrierCodes)
  = length (List.filter (fun c => negb (length (errors c) =? 0)%nat) carrierCodes).
Proof.
  induction carrierCodes as [|c cs IH]; [reflexivity |].
  cbn [flat_map List.filter]. rewrite length_app, IH.
  destruct (carrier_errors c) as [Hle _].
  destruct (errors c) as [|e [|e' l]]; cbn in *; try reflexivity; lia.
Qed.

(** X6. The fan-out of the two controllers, on every value an adapter can
    give. The schedule controller ([guarded] false) answers 500, whatever the
    other carriers returned, exactly when some carrier returns a value that
    is neither falsy nor an array; the tracking controller ([guarded] true)
    takes such a value for an empty array, so that carrier adds nothing and
    is not listed in the errors. Otherwise the data of the reply are, in
    request order, the records of the arrays returned, each with the code and
    the name of its carrier, and the errors are one record for each carrier
    that threw (its message), threw [null] (carrier 'unknown') or returned a
    falsy value (the message for an empty result); no carrier is in both.
    The reply is 400 only for an empty carrier list and 503 only without
    data and with an error; in a 200 reply the counts of [meta] are those of
    these lists, [carriersSucceeded] being the number of carriers not listed
    in the errors. *)
Theorem fanout_accounts_for_every_carrier (carrierCodes : list string) :
  let data := flat_map records carrierCodes in
  let failures := flat_map errors carrierCodes in
  let throws := negb guarded && existsb notArray carrierCodes in
  Forall (fun c => (length (errors c) <= 1)%nat
                   /\ (records c = [] \/ errors c = [])) carrierCodes
  /\ match Controllers.respond adapters nullMessage notAFunction guarded
             emptyMessage carrierCodes queryParams with
     | Controllers.Status400 => carrierCodes = []
     | Controllers.Status500 message =>
         throws = true
         /\ message = (if String.eqb notAFunction ""
                       then "An unexpected error occurred" else notAFunction)
     | Controllers.Status503 errs =>
         throws = false /\ errs = failures /\ failures <> [] /\ data = []
     | Controllers.Status200 d meta errs =>
         throws = false /\ carrierCodes <> []
         /\ d = data
         /\ default [] errs = failures
         /\ (errs = None <-> failures = [])
         /\ (data <> [] \/ failures = [])
         /\ Controller.total meta = length data
         /\ Controller.carriersQueried meta = length carrierCodes
         /\ Controller.carriersFailed meta = length failures
         /\ Controller.carriersSucceeded meta
            = Z.of_nat (length (List.filter
                                  (fun c => (length (errors c) =? 0)%nat)
                                  carrierCodes))
     end.
Proof.
  cbv zeta. split.
  { apply List.Forall_forall. intros c _. apply carrier_errors. }
  pose proof (errors_count carrierCodes) as Hcount.
  pose proof (List.filter_length (fun c => (length (errors c) =? 0)%nat)
                carrierCodes) as Hsplit.
  unfold Controllers.respond.
  destruct carrierCodes as [|c0 cs]; [reflexivity |].
  cbv iota beta. remember (c0 :: cs) as codes eqn:Hcodes.
  assert (Hne : codes <> []) by (rewrite Hcodes; discriminate).
  clear Hcodes. rewrite loop_on_carriers. cbn [app].
  remember (flat_map records codes) as data eqn:Edata.
  remember (flat_map errors codes) as failures eqn:Efailures.
  clear Edata Efailures.
  destruct (negb guarded && existsb notArray codes); [split; reflexivity |].
  destruct (length data =? 0)%nat eqn:Hdata;
    destruct (0 <? length failures)%nat eqn:Hfail; cbn [andb].
  - apply Nat.eqb_eq in Hdata. apply Nat.ltb_lt in Hfail.
    repeat split.
    + intros H. rewrite H in Hfail. cbn in Hfail. lia.
    + destruct data; [reflexivity | discriminate Hdata].
  - apply Nat.ltb_ge in Hfail.
    assert (Hnone : failures = [])
      by (destruct failures; [reflexivity | cbn in Hfail; lia]).
    subst failures. cbn [length] in *.
    repeat split; try reflexivity; try assumption.
    + right. reflexivity.
    + cbn [Controller.carriersSucceeded]. lia.
  - apply Nat.eqb_neq in Hdata. apply Nat.ltb_lt in Hfail.
    assert (Hsome : failures <> [])
      by (intros H; rewrite H in Hfail; cbn in Hfail; lia).
    assert (Hd : data <> [])
      by (intros H; rewrite H in Hdata; apply Hdata; reflexivity).
    repeat split; try assumption.
    + destruct failures; [contradiction | reflexivity].
    + destruct failures; [contradiction | discriminate].
    + intros H. contradiction.
    + left. exact Hd.
    + cbn [Controller.carriersSucceeded]. lia.
  - apply Nat.eqb_neq in Hdata. apply Nat.ltb_ge in Hfail.
    assert (Hnone : failures = [])
      by (destruct failures; [reflexivity | cbn in Hfail; lia]).
    assert (Hd : data <> [])
      by (intros H; rewrite H in Hdata; apply Hdata; reflexivity).
    subst failures. cbn [length] in *.
    repeat split; try reflexivity; try assumption.
    + left. exact Hd.
    + cbn [Controller.carriersSucceeded]. lia.
Qed.

End FanOutAccounting.

(** The model of the controllers used for adapters that return an array or
    [undefined], or throw an error, is the model above on such adapters. *)
Lemma controllers_agree_on_arrays {Rec Query : Type}
    (adapters : gmap string (@Controller.CarrierAdapter Rec Query))
    (nullMessage notAFunction : string) (guarded : bool)
    (emptyMessage : string) (carrierCodes : list string) (queryParams : Query) :
  Controllers.respond (liftAdapter <$> adapters) nullMessage notAFunction guarded
    emptyMessage carrierCodes queryParams
  = liftReply (Controller.fanOut adapters emptyMessage carrierCodes queryParams).
Proof.
  assert (Hcarrier : forall c,
            returnsNotArray (liftAdapter <$> adapters) queryParams c = false
            /\ recordsOf (liftAdapter <$> adapters) queryParams c
               = Controller.contributed
                   (Controller.queryCarrier adapters queryParams c)
            /\ errorsOf (liftAdapter <$> adapters) nullMessage emptyMessage
                 queryParams c
               = Controller.reported emptyMessage
                   (Controller.queryCarrier adapters queryParams c)).
  { intros c.
    unfold returnsNotArray, recordsOf, errorsOf, outcomeOf,
      Controllers.getAdapter, Controller.contributed, Controller.reported,
      Controller.queryCarrier, Controller.getAdapter.
    rewrite lookup_fmap.
    destruct (adapters !! JS.toUpperCase c) as [adapter|]; cbn.
    - destruct (Controller.getRecords adapter queryParams) as [m | [rs|]]; cbn;
        repeat split; try reflexivity;
        destruct (String.eqb m "") eqn:E; cbn; rewrite ?E; reflexivity.
    - repeat split; reflexivity. }
  unfold Controllers.respond, Controller.fanOut.
  destruct carrierCodes as [|c0 cs]; [reflexivity |].
  cbv iota beta. remember (c0 :: cs) as codes eqn:Hcodes. clear Hcodes.
  rewrite loop_on_carriers, processResult_fold. cbn [app].
  assert (Hno : existsb (returnsNotArray (liftAdapter <$> adapters) queryParams)
                  codes = false).
  { induction codes as [|c codes IH]; [reflexivity |].
    cbn [existsb]. rewrite (proj1 (Hcarrier c)), IH. reflexivity. }
  assert (Hdata : flat_map (recordsOf (liftAdapter <$> adapters) queryParams) codes
                  = flat_map Controller.contributed
                      (map (Controller.queryCarrier adapters queryParams) codes)).
  { induction codes as [|c codes IH]; [reflexivity |].
    cbn [map flat_map existsb] in *. apply orb_false_iff in Hno as [_ Hno].
    rewrite (proj1 (proj2 (Hcarrier c))), (IH Hno). reflexivity. }
  assert (Herrs : flat_map (errorsOf (liftAdapter <$> adapters) nullMessage
                              emptyMessage queryParams) codes
                  = flat_map (Controller.reported emptyMessage)
                      (map (Controller.queryCarrier adapters queryParams) codes)).
  { clear Hdata. induction codes as [|c codes IH]; [reflexivity |].
    cbn [map flat_map existsb] in *. apply orb_false_iff in Hno as [_ Hno].
    rewrite (proj2 (proj2 (Hcarrier c))), (IH Hno). reflexivity. }
  rewrite Hno, andb_false_r, Hdata, Herrs.
  destruct (_ && _); reflexivity.
Qed.

(** A carrier that hands on an object: the schedule controller answers 500
    and drops the records of the other carrier, the tracking controller
    answers with them and counts both carriers as succeeded. *)
Lemma fanout_accounts_for_every_carrier_witness :
  Controllers.getSchedules arrayAndObject "" "data.schedules.map is not a function"
    ["HMM"; "MAERSK"] tt
  = Controllers.Status500 "data.schedules.map is not a function"
  /\ match Controllers.getTracking arrayAndObject ""
             "data.schedules.map is not a function" ["HMM"; "MAERSK"] tt with
     | Controllers.Status200 data meta errors =>
         map Controller.an_carrier data = ["HMM"]
         /\ errors = None /\ Controller.carriersSucceeded meta = 2
     | _ => False
     end.
Proof.
  split.
  - pose proof (fanout_accounts_for_every_carrier arrayAndObject ""
                  "data.schedules.map is not a function" false
                  "No schedules returned" tt ["HMM"; "MAERSK"]) as [_ H].
    unfold Controllers.getSchedules.
    destruct (Controllers.respond _ _ _ _ _ _ _) as [| message | errs | d meta errs].
    + discriminate H.
    + destruct H as [_ ->]. reflexivity.
    + destruct H as [H _]. vm_compute in H. discriminate H.
    + destruct H as [H _]. vm_compute in H. discriminate H.
  - pose proof (fanout_accounts_for_every_carrier arrayAndObject ""
                  "data.schedules.map is not a function" true
                  "No events returned" tt ["HMM"; "MAERSK"]) as [_ H].
    unfold Controllers.getTracking.
    destruct (Controllers.respond _ _ _ _ _ _ _) as [| message | errs | d meta errs].
    + discriminate H.
    + destruct H as [H _]. vm_compute in H. discriminate H.
    + destruct H as (_ & _ & H & _). vm_compute in H. contradiction.
    + destruct H as (_ & _ & -> & _ & [_ He] & _ & _ & _ & _ & ->).
      split; [vm_compute; reflexivity |].
      split; [apply He; vm_compute; reflexivity | vm_compute; reflexivity].
Defined.

(* --------------------------------------------------------------------- *)
(** ** The token cache of the credential manager *)
(* --------------------------------------------------------------------- *)

Lemma string_length_append (a b : string) :
  String.length (a ++ b) = (String.length a + String.length b)%nat.
Proof.
  induction a as [|c a IH]; [reflexivity |].
  change (String c a ++ b) with (String c (a ++ b)).
  cbn [String.length Nat.add]. rewrite IH. reflexivity.
Qed.

Lemma string_append_inj_r (a b s : string) : a ++ s = b ++ s -> a = b.
Proof.
  revert b. induction a as [|c a IH]; intros [|d b] H.
  - reflexivity.
  - apply (f_equal String.length) in H.
    rewrite !string_length_append in H. cbn [String.length] in H. lia.
  - apply (f_equal String.length) in H.
    rewrite !string_length_append in H. cbn [String.length] in H. lia.
  - change (String c (a ++ s) = String d (b ++ s)) in H.
    injection H as -> H. rewrite (IH _ H). reflexivity.
Qed.

Section TokenCache.

Variable env : gmap string string.
Variable clock : Clock.
Variable carrierCode : string.
Variable config : CarrierConfig.

(** What the validity test of [getOAuth2Token] decides. *)
Lemma getOAuth2Token_cached (tokenCache : gmap string AuthManager.TokenCache) c :
  tokenCache !! (carrierCode ++ "_oauth2") = Some c ->
  AuthManager.expiresAt c > clock 0%nat + 300000 ->
  AuthManager.getOAuth2Token env clock tokenCache carrierCode config
  = Ret (c, tokenCache).
Proof.
  intros Hc Hvalid. unfold AuthManager.getOAuth2Token. cbv zeta. rewrite Hc.
  change (5 * 60 * 1000) with 300000.
  destruct (Z.gtb_spec (AuthManager.expiresAt c) (clock 0%nat + 300000)); [| lia].
  reflexivity.
Qed.

Lemma getOAuth2Token_not_cached (tokenCache : gmap string AuthManager.TokenCache) r :
  match tokenCache !! (carrierCode ++ "_oauth2") with
  | Some c => AuthManager.expiresAt c <= clock 0%nat + 300000
  | None => True
  end ->
  AuthManager.getOAuth2Token env clock tokenCache carrierCode config <> Ret r.
Proof.
  intros Hc. unfold AuthManager.getOAuth2Token. cbv zeta.
  change (5 * 60 * 1000) with 300000.
  assert (Hvalid : match tokenCache !! (carrierCode ++ "_oauth2") with
                   | Some c =>
                       if AuthManager.expiresAt c >? clock 0%nat + 300000
                       then Some c else None
                   | None => None
                   end = None).
  { destruct (tokenCache !! (carrierCode ++ "_oauth2")) as [c|]; [| reflexivity].
    destruct (Z.gtb_spec (AuthManager.expiresAt c) (clock 0%nat + 300000)); [lia |].
    reflexivity. }
  rewrite Hvalid.
  destruct (negb _ || negb _); [discriminate |].
  destruct (negb _); discriminate.
Qed.

End TokenCache.

(** Whatever a call of [getOAuth2Token] settles to, the token it returns is
    the one the cache it leaves holds for the carrier. *)
Lemma getOAuth2Token_leaves_token_cached env clock tokenCache carrierCode config
    net tc tokenCache' :
  settle net (AuthManager.getOAuth2Token env clock tokenCache carrierCode config)
  = inr (tc, tokenCache') ->
  tokenCache' !! (carrierCode ++ "_oauth2") = Some tc.
Proof.
  unfold AuthManager.getOAuth2Token. cbv zeta.
  destruct (tokenCache !! (carrierCode ++ "_oauth2")) as [c|] eqn:Ec.
  - destruct (AuthManager.expiresAt c >? _).
    + cbn. intros H. injection H as <- <-. exact Ec.
    + destruct (negb _ || negb _); [discriminate |].
      destruct (negb _); [discriminate |]. cbn [settle].
      destruct (net _) as [tokenData | response message]; [| discriminate].
      cbn. intros H. injection H as <- <-. apply lookup_insert_eq.
  - destruct (negb _ || negb _); [discriminate |].
    destruct (negb _); [discriminate |]. cbn [settle].
    destruct (net _) as [tokenData | response message]; [| discriminate].
    cbn. intros H. injection H as <- <-. apply lookup_insert_eq.
Qed.

(** X7. A token obtained from [getOAuth2Token] is reused from the cache, with
    no network call and whatever the environment and the configuration then
    are, by every later call made more than five minutes before the token
    expires; a call made later than that never answers from the cache (it
    requests a new token or throws). *)
Theorem oauth2_token_reused_until_five_minutes_before_expiry
    env clock tokenCache carrierCode config net tc tokenCache' :
  settle net (AuthManager.getOAuth2Token env clock tokenCache carrierCode config)
  = inr (tc, tokenCache') ->
  (forall env' clock' config',
     AuthManager.expiresAt tc > clock' 0%nat + 300000 ->
     AuthManager.getOAuth2Token env' clock' tokenCache' carrierCode config'
     = Ret (tc, tokenCache'))
  /\ (forall env' clock' config' r,
        AuthManager.expiresAt tc <= clock' 0%nat + 300000 ->
        AuthManager.getOAuth2Token env' clock' tokenCache' carrierCode config'
        <> Ret r).
Proof.
  intros H. apply getOAuth2Token_leaves_token_cached in H. split.
  - intros env' clock' config' Hvalid.
    exact (getOAuth2Token_cached env' clock' carrierCode config' _ _ H Hvalid).
  - intros env' clock' config' r Hstale.
    apply getOAuth2Token_not_cached. rewrite H. exact Hstale.
Qed.

Lemma oauth2_token_reused_until_five_minutes_before_expiry_witness :
  AuthManager.getOAuth2Token ∅ (fun _ => 3000000)
    (<["MAERSK_oauth2" := grantedToken]> ∅) "MAERSK" maerskAuthConfig
  = Ret (grantedToken, <["MAERSK_oauth2" := grantedToken]> ∅).
Proof.
  assert (Htoken :
    settle grantingNet
      (AuthManager.getOAuth2Token maerskEnv (fun _ => 0) ∅ "MAERSK"
         maerskAuthConfig)
    = inr (grantedToken, <["MAERSK_oauth2" := grantedToken]> ∅))
    by (vm_compute; reflexivity).
  apply (proj1 (oauth2_token_reused_until_five_minutes_before_expiry
                  _ _ _ _ _ _ _ _ Htoken)).
  vm_compute. reflexivity.
Defined.

(** X8. After [clearTokenCache] for a carrier, [getOAuth2Token] for that
    carrier never answers from the cache: it requests a new token or throws.
    The tokens cached for the other carriers are untouched: a call that was
    served from the cache is served the same token after the clearing. *)
Theorem clear_token_cache_forces_new_token_for_that_carrier_only
    env clock tokenCache carrierCode config :
  (forall r,
     AuthManager.getOAuth2Token env clock
       (AuthManager.clearTokenCache tokenCache carrierCode) carrierCode config
     <> Ret r)
  /\ (forall other c,
        other <> carrierCode ->
        AuthManager.getOAuth2Token env clock tokenCache other config
        = Ret (c, tokenCache) ->
        AuthManager.getOAuth2Token env clock
          (AuthManager.clearTokenCache tokenCache carrierCode) other config
        = Ret (c, AuthManager.clearTokenCache tokenCache carrierCode)).
Proof.
  split.
  - intros r. apply getOAuth2Token_not_cached.
    unfold AuthManager.clearTokenCache. rewrite lookup_delete_eq. exact I.
  - intros other c Hne. unfold AuthManager.getOAuth2Token. cbv zeta.
    unfold AuthManager.clearTokenCache.
    rewrite lookup_delete_ne
      by (intros E; apply string_append_inj_r in E; congruence).
    destruct (tokenCache !! (other ++ "_oauth2")) as [c'|].
    + destruct (AuthManager.expiresAt c' >? _).
      * intros H. injection H as <-. reflexivity.
      * destruct (negb _ || negb _); [discriminate |].
        destruct (negb _); discriminate.
    + destruct (negb _ || negb _); [discriminate |].
      destruct (negb _); discriminate.
Qed.

Lemma clear_token_cache_forces_new_token_for_that_carrier_only_witness :
  AuthManager.getOAuth2Token ∅ (fun _ => 0)
    (AuthManager.clearTokenCache (<["MAERSK_oauth2" := grantedToken]> ∅) "HMM")
    "MAERSK" maerskAuthConfig
  = Ret (grantedToken,
         AuthManager.clearTokenCache (<["MAERSK_oauth2" := grantedToken]> ∅) "HMM").
Proof.
  apply (proj2 (clear_token_cache_forces_new_token_for_that_carrier_only
                  ∅ (fun _ => 0)
                  (<["MAERSK_oauth2" := grantedToken]> ∅) "HMM" maerskAuthConfig)).
  - discriminate.
  - vm_compute. reflexivity.
Defined.

(* --------------------------------------------------------------------- *)
(** ** The Maersk point-to-point mapper: conservation and distinctness *)
(* --------------------------------------------------------------------- *)

Section MaerskPointToPointCounting.

Import MaerskPointToPointAdapter.

Local Abbreviation callsIn m :=
  (flat_map (fun e : string * RoutedSchedule =>
               callsOfService (serviceSchedule (snd e))) m).

Lemma pushCall_calls call vs :
  hasCalls vs = true \/ transportCalls vs = Some [] ->
  callsOfVessel (pushCall call vs) = (callsOfVessel vs ++ [call])%list.
Proof.
  unfold callsOfVessel, pushCall, hasCalls. cbn [transportCalls].
  destruct (transportCalls vs) as [l|]; [reflexivity |].
  intros [H | H]; discriminate.
Qed.

Lemma findOrCreateAndPush_calls vesselIMO fresh call vss :
  transportCalls fresh = Some [] ->
  forallb hasCalls vss = true ->
  Permutation
    (flat_map callsOfVessel (findOrCreateAndPush vesselIMO fresh call vss))
    (call :: flat_map callsOfVessel vss).
Proof.
  intros Hfresh. induction vss as [|vs rest IH]; intros Hall;
    cbn [findOrCreateAndPush flat_map].
  - rewrite pushCall_calls by (right; exact Hfresh).
    unfold callsOfVessel. rewrite Hfresh. reflexivity.
  - cbn in Hall. apply andb_true_iff in Hall as [Hvs Hrest].
    destruct (hasIMO vesselIMO vs); cbn [flat_map].
    + rewrite pushCall_calls by (left; exact Hvs).
      rewrite <- app_assoc. cbn [app]. symmetry. apply Permutation_middle.
    + rewrite (IH Hrest). symmetry. apply Permutation_middle.
Qed.

Lemma mapUpdate_keys {V} (m : list (string * V)) k f :
  map fst (mapUpdate m k f) = map fst m.
Proof.
  induction m as [|[k' v] m IH]; [reflexivity |]. cbn [mapUpdate].
  destruct (String.eqb k' k); cbn [map fst]; [reflexivity | rewrite IH; reflexivity].
Qed.

Lemma mapHas_In {V} (m : list (string * V)) k :
  mapHas m k = true <-> In k (map fst m).
Proof.
  unfold mapHas. rewrite existsb_exists, in_map_iff. split.
  - intros (e & He & Hk). apply String.eqb_eq in Hk. eauto.
  - intros (e & Hk & He). exists e. split; [exact He |]. apply String.eqb_eq, Hk.
Qed.

(** An update of the entry of [k] by a function that adds the call [call]
    to a good entry adds that call to the map. *)
Lemma mapUpdate_calls (m : list (string * RoutedSchedule)) k f call :
  goodMap m -> mapHas m k = true ->
  (forall v, everyVesselHasCalls (serviceSchedule v) ->
     Permutation (callsOfService (serviceSchedule (f v)))
                 (call :: callsOfService (serviceSchedule v))) ->
  Permutation (callsIn (mapUpdate m k f)) (call :: callsIn m).
Proof.
  intros Hm Hk Hf. induction Hm as [|[k' v] m' Hv Hm' IH]; [discriminate Hk |].
  cbn [mapUpdate]. unfold mapHas in Hk. cbn [existsb fst] in Hk.
  destruct (String.eqb k' k); cbn [flat_map snd].
  - rewrite (Hf v Hv). reflexivity.
  - rewrite (IH Hk). symmetry. apply Permutation_middle.
Qed.

Lemma mapUpdate_same_calls (m : list (string * RoutedSchedule)) k f :
  (forall v, serviceSchedule (f v) = serviceSchedule v) ->
  callsIn (mapUpdate m k f) = callsIn m.
Proof.
  intros Hf. induction m as [|[k' v] m IH]; [reflexivity |]. cbn [mapUpdate].
  destruct (String.eqb k' k); cbn [flat_map snd].
  - rewrite Hf. reflexivity.
  - rewrite IH. reflexivity.
Qed.

Lemma processLeg_calls route m leg :
  goodMap m ->
  Permutation (callsIn (processLeg route m leg))
              ((if carriesVessel leg then [callOfLeg route leg] else [])
               ++ callsIn m).
Proof.
  intros Hm. unfold processLeg, carriesVessel. cbv zeta.
  destruct (isVesselOrBarge (Payload.transport leg)); cbn [negb andb];
    [| reflexivity].
  destruct (Payload.vessel (Payload.transport leg)) as [v|];
    [| destruct (Payload.barge (Payload.transport leg)) as [v|];
       [| reflexivity]].
  all: cbn [app].
  all: set (code := JS.orElse _ "UNKNOWN_SERVICE").
  all: destruct (mapHas m code) eqn:Hhas.
  all: try (apply mapUpdate_calls; [exact Hm | exact Hhas |];
            intros s [_ Hs]; unfold callsOfService;
            cbn [serviceSchedule vesselSchedules];
            apply findOrCreateAndPush_calls; [reflexivity | exact Hs]).
  all: rewrite mapUpdate_new by exact Hhas.
  all: rewrite !flat_map_app; cbn [flat_map snd serviceSchedule app].
  all: unfold callsOfService at 2;
       cbn [vesselSchedules findOrCreateAndPush flat_map].
  all: rewrite pushCall_calls by (right; reflexivity).
  all: unfold callsOfVessel at 1; cbn [transportCalls default from_option id app].
  all: symmetry; apply Permutation_cons_append.
Qed.

Lemma processLegs_calls route legs m :
  goodMap m ->
  Permutation (callsIn (fold_left (processLeg route) legs m))
              (map (callOfLeg route) (List.filter carriesVessel legs) ++ callsIn m).
Proof.
  revert m. induction legs as [|leg legs IH]; intros m Hm; [reflexivity |].
  cbn [fold_left List.filter].
  rewrite (IH _ (processLeg_good route m leg Hm)), (processLeg_calls route m leg Hm).
  destruct (carriesVessel leg); cbn [map app]; [| reflexivity].
  symmetry. apply Permutation_middle.
Qed.

Lemma processRoute_calls m route :
  goodMap m ->
  Permutation (callsIn (processRoute m route))
              (map (callOfLeg route)
                   (List.filter carriesVessel (default [] (Payload.legs route)))
               ++ callsIn m).
Proof.
  intros Hm. unfold processRoute.
  destruct (Payload.legs route) as [[|leg legs]|]; try reflexivity.
  rewrite mapUpdate_same_calls by (intros v; apply addRouteInfo_schedule).
  apply processLegs_calls, Hm.
Qed.

Lemma processRoutes_calls routes m :
  goodMap m ->
  length (callsIn (fold_left processRoute routes m))
  = (length (List.filter carriesVessel
               (flat_map (fun r => default [] (Payload.legs r)) routes))
     + length (callsIn m))%nat.
Proof.
  revert m. induction routes as [|r routes IH]; intros m Hm; [reflexivity |].
  cbn [fold_left flat_map].
  rewrite (IH _ (processRoute_good m r Hm)).
  rewrite (Permutation_length (processRoute_calls m r Hm)).
  rewrite List.filter_app, !length_app, length_map. lia.
Qed.

Lemma flat_map_of_map {A B C} (f : B -> list C) (g : A -> B) (l : list A) :
  flat_map f (map g l) = flat_map (fun x => f (g x)) l.
Proof.
  induction l as [|a l IH]; [reflexivity |]. cbn [map flat_map].
  rewrite IH. reflexivity.
Qed.

Lemma filter_nonempty_calls (l : list RoutedSchedule) :
  flat_map (fun s => callsOfService (serviceSchedule s))
    (List.filter (fun schedule =>
                    (0 <? length (vesselSchedules (serviceSchedule schedule)))%nat) l)
  = flat_map (fun s => callsOfService (serviceSchedule s)) l.
Proof.
  induction l as [|s l IH]; [reflexivity |]. cbn [List.filter flat_map].
  destruct (0 <? length (vesselSchedules (serviceSchedule s)))%nat eqn:Hlen.
  - cbn [flat_map]. rewrite IH. reflexivity.
  - rewrite IH. unfold callsOfService at 2.
    destruct (vesselSchedules (serviceSchedule s)); [reflexivity | discriminate Hlen].
Qed.

(** X9. The Maersk point-to-point mapper returns exactly one transport call
    for each leg of the payload that is sailed by a vessel or a barge the
    payload describes (mode VESSEL or BARGE with a [vessel] or a [barge]
    object): legs of other modes and legs without a vessel contribute none,
    and neither the filing under services and vessels nor the final filter
    loses or duplicates a call. *)
Theorem maersk_p2p_one_call_per_vessel_leg routes :
  length (callsOf (map serviceSchedule (mapPointToPointToDCSA routes)))
  = length (List.filter carriesVessel (p2pLegs routes)).
Proof.
  unfold mapPointToPointToDCSA, p2pLegs, callsOf.
  destruct routes as [[|r rs]|]; try reflexivity.
  change (default [] (Some (r :: rs))) with (r :: rs).
  rewrite flat_map_of_map, filter_nonempty_calls, flat_map_of_map.
  rewrite processRoutes_calls by constructor.
  cbn [flat_map length]. lia.
Qed.

End MaerskPointToPointCounting.

Section MaerskPointToPointDistinct.

Import MaerskPointToPointAdapter.

Lemma pushCall_imoOf call vs : imoOf (pushCall call vs) = imoOf vs.
Proof. reflexivity. Qed.

Lemma hasIMO_imoOf vesselIMO vs :
  hasIMO vesselIMO vs = false -> imoOf vs <> Some vesselIMO.
Proof.
  unfold hasIMO, imoOf. destruct (vessel vs) as [v|]; cbn; [| discriminate].
  intros H E. injection E as E. apply String.eqb_neq in H. contradiction.
Qed.

Lemma findOrCreateAndPush_imos vesselIMO fresh call vss :
  imoOf fresh = Some vesselIMO ->
  map imoOf (findOrCreateAndPush vesselIMO fresh call vss) = map imoOf vss
  \/ (map imoOf (findOrCreateAndPush vesselIMO fresh call vss)
      = (map imoOf vss ++ [Some vesselIMO])%list
      /\ ~ In (Some vesselIMO) (map imoOf vss)).
Proof.
  intros Hfresh. induction vss as [|vs rest IH]; cbn [findOrCreateAndPush map].
  - right. rewrite pushCall_imoOf, Hfresh. split; [reflexivity | intros []].
  - destruct (hasIMO vesselIMO vs) eqn:Hvs; cbn [map].
    + left. rewrite pushCall_imoOf. reflexivity.
    + destruct IH as [IH | [IH Hnin]].
      * left. rewrite IH. reflexivity.
      * right. rewrite IH. split; [reflexivity |].
        intros [H | H]; [| contradiction].
        exact (hasIMO_imoOf _ _ Hvs H).
Qed.

Lemma findOrCreateAndPush_distinct vesselIMO fresh call vss (v : Vessel) :
  vessel fresh = Some v -> vesselIMONumber v = vesselIMO -> vesselIMO <> "" ->
  isDummyVessel fresh = String.eqb vesselIMO "0000000" ->
  distinctVessels vss ->
  distinctVessels (findOrCreateAndPush vesselIMO fresh call vss).
Proof.
  intros Hv Himo Hne Hdummy [Hnd Hall]. split.
  - destruct (findOrCreateAndPush_imos vesselIMO fresh call vss) as [E | [E Hnin]].
    + unfold imoOf. rewrite Hv. cbn. congruence.
    + rewrite E. exact Hnd.
    + rewrite E. apply List.NoDup_app; [exact Hnd | |].
      * constructor; [intros [] | constructor].
      * intros a Ha [<- | []]. contradiction.
  - clear Hnd. induction Hall as [|vs rest Hvs Hrest IH]; cbn [findOrCreateAndPush].
    + constructor; [| constructor]. exists v. cbn. subst vesselIMO. tauto.
    + destruct (hasIMO vesselIMO vs).
      * constructor; [exact Hvs | exact Hrest].
      * constructor; [exact Hvs | exact IH].
Qed.

(** The service map files each schedule under its own service code, once,
    and every schedule has distinct vessels. *)
Lemma mapUpdate_entries (P : string -> RoutedSchedule -> Prop) m k f :
  Forall (fun e => P (fst e) (snd e)) m ->
  (forall v, P k v -> P k (f v)) ->
  Forall (fun e => P (fst e) (snd e)) (mapUpdate m k f).
Proof.
  intros Hm Hf. induction Hm as [|[k' v] m' Hv Hm' IH]; cbn [mapUpdate];
    [constructor |].
  destruct (String.eqb_spec k' k) as [-> | Hne]; constructor;
    cbn [fst snd] in *; auto.
Qed.

Local Abbreviation filed :=
  (fun (k : string) (v : RoutedSchedule) =>
     carrierServiceCode (serviceSchedule v) = k
     /\ distinctVessels (vesselSchedules (serviceSchedule v))).

Lemma processLeg_distinct route m leg :
  List.NoDup (map fst m) /\ Forall (fun e => filed (fst e) (snd e)) m ->
  List.NoDup (map fst (processLeg route m leg))
  /\ Forall (fun e => filed (fst e) (snd e)) (processLeg route m leg).
Proof.
  intros [Hnd Hm]. unfold processLeg. cbv zeta.
  destruct (negb _); [tauto |].
  destruct (match Payload.vessel _ with Some v => Some v | None => _ end) as [v|];
    [| tauto].
  set (code := JS.orElse _ "UNKNOWN_SERVICE").
  set (vesselIMO := if String.eqb (vesselIMONumber v) "" then "0000000"
                    else vesselIMONumber v).
  assert (Hne : vesselIMO <> "").
  { subst vesselIMO. destruct (String.eqb_spec (vesselIMONumber v) "");
      [discriminate | assumption]. }
  rewrite mapUpdate_keys. split.
  - destruct (mapHas m code) eqn:Hhas; [exact Hnd |].
    rewrite map_app. apply List.NoDup_app; [exact Hnd | |].
    + constructor; [intros [] | constructor].
    + intros a Ha [<- | []]. apply mapHas_In in Ha. cbn [fst] in Ha. congruence.
  - apply (mapUpdate_entries filed).
    + destruct (mapHas m code); [exact Hm |].
      apply Forall_app. split; [exact Hm |]. constructor; [| constructor].
      cbn. split; [reflexivity |]. split; constructor.
    + intros s [Hcode Hvs]. cbn [serviceSchedule carrierServiceCode vesselSchedules].
      split; [exact Hcode |].
      eapply findOrCreateAndPush_distinct; try eassumption; reflexivity.
Qed.

Lemma processRoute_distinct m route :
  List.NoDup (map fst m) /\ Forall (fun e => filed (fst e) (snd e)) m ->
  List.NoDup (map fst (processRoute m route))
  /\ Forall (fun e => filed (fst e) (snd e)) (processRoute m route).
Proof.
  intros Hm. unfold processRoute.
  destruct (Payload.legs route) as [[|leg legs]|]; try exact Hm.
  assert (H : List.NoDup (map fst (fold_left (processLeg route) (leg :: legs) m))
              /\ Forall (fun e => filed (fst e) (snd e))
                        (fold_left (processLeg route) (leg :: legs) m)).
  { revert m Hm. generalize (leg :: legs) as l.
    induction l as [|x l IH]; intros m Hm; [exact Hm |].
    cbn [fold_left]. apply IH, processLeg_distinct, Hm. }
  destruct H as [H1 H2]. rewrite mapUpdate_keys. split; [exact H1 |].
  apply (mapUpdate_entries filed); [exact H2 |].
  intros v Hv. rewrite addRouteInfo_schedule. exact Hv.
Qed.

Lemma map_filter_NoDup {A B} (g : A -> B) (p : A -> bool) (l : list A) :
  List.NoDup (map g l) -> List.NoDup (map g (List.filter p l)).
Proof.
  induction l as [|a l IH]; cbn [map List.filter]; [tauto |].
  intros H. apply NoDup_cons_iff in H as [Ha Hl].
  destruct (p a); [| exact (IH Hl)]. cbn [map]. constructor; [| exact (IH Hl)].
  intros Hin. apply Ha. apply in_map_iff in Hin as (x & Hx & Hin).
  apply filter_In in Hin as [Hin _]. apply in_map_iff. eauto.
Qed.

(** X10. In the output of the Maersk point-to-point mapper no service code
    occurs twice, and within a service schedule no IMO number occurs twice:
    all legs of one service are merged into one schedule, and all legs of one
    vessel into one vessel schedule. Every vessel schedule has a vessel with
    a non-empty IMO number, and is flagged as a dummy exactly when that
    number is the placeholder '0000000'. *)
Theorem maersk_p2p_services_and_vessels_are_distinct routes :
  List.NoDup (map (fun rs => carrierServiceCode (serviceSchedule rs))
                  (mapPointToPointToDCSA routes))
  /\ Forall (fun rs => distinctVessels (vesselSchedules (serviceSchedule rs)))
            (mapPointToPointToDCSA routes).
Proof.
  unfold mapPointToPointToDCSA.
  destruct routes as [[|r rs]|]; try (split; constructor).
  assert (H : List.NoDup (map fst (fold_left processRoute (r :: rs) []))
              /\ Forall (fun e => filed (fst e) (snd e))
                        (fold_left processRoute (r :: rs) [])).
  { assert (H0 : List.NoDup (map fst (@nil (string * RoutedSchedule)))
                 /\ Forall (fun e : string * RoutedSchedule => filed (fst e) (snd e))
                           []) by (split; constructor).
    revert H0. generalize (@nil (string * RoutedSchedule)) as m.
    generalize (r :: rs) as l.
    induction l as [|x l IH]; intros m Hm; [exact Hm |].
    cbn [fold_left]. apply IH, processRoute_distinct, Hm. }
  destruct H as [Hnd Hfiled].
  set (m := fold_left processRoute (r :: rs) []) in *.
  split.
  - apply map_filter_NoDup.
    assert (E : map (fun rs => carrierServiceCode (serviceSchedule rs)) (map snd m)
                = map fst m).
    { rewrite map_map. apply map_ext_in. intros e He.
      rewrite List.Forall_forall in Hfiled. apply (Hfiled e He). }
    rewrite E. exact Hnd.
  - apply List.Forall_forall. intros x Hx. apply filter_In in Hx as [Hx _].
    apply in_map_iff in Hx as (e & <- & He).
    rewrite List.Forall_forall in Hfiled. apply (Hfiled e He).
Qed.

End MaerskPointToPointDistinct.

(* --------------------------------------------------------------------- *)
(** ** HMM: date format of the requests, point-to-point mapper, router *)
(* --------------------------------------------------------------------- *)












Lemma mfor_Forall {A B} (f : A -> Mapper B) (P : B -> Prop) clk :
  (forall a n b n', f a clk n = inr (b, n') -> P b) ->
  forall l n bs n', mfor f l clk n = inr (bs, n') -> Forall P bs.
Proof.
  intros Hf. induction l as [|a l IH]; intros n bs n'; cbn [mfor].
  - intros H. injection H as <- _. constructor.
  - unfold mbind at 1. destruct (f a clk n) as [e | [b n1]] eqn:Ea; [discriminate |].
    unfold mbind. destruct (mfor f l clk n1) as [e | [bs' n2]] eqn:El; [discriminate |].
    intros H. injection H as <- _. constructor; eauto.
Qed.

Section HMMPTPMapperProperties.

Variable Date_parse : string -> option Z.
Variable Date_toISOString : Z -> string.

Local Abbreviation ptpItem :=
  (HMMPTPScheduleMapper.mapItem Date_parse Date_toISOString).

Lemma ptp_portCall_returns item portCode portName terminalCode type index ts clk n :
  exists call,
    HMMPTPScheduleMapper.portCall item portCode portName terminalCode type index ts
      clk n = inr (call, S n).
Proof. eexists. reflexivity. Qed.

Lemma ptp_loading_le item clk n l n' :
  HMMPTPScheduleMapper.loadingCalls Date_parse Date_toISOString item clk n
  = inr (l, n') -> (length l <= 1)%nat.
Proof.
  unfold HMMPTPScheduleMapper.loadingCalls.
  destruct (_ && _).
  - unfold mbind at 1. destruct (mlift _ clk n) as [e | [dt n1]]; [discriminate |].
    unfold mbind at 1.
    destruct (ptp_portCall_returns item (HMMPTPScheduleMapper.loadingPortCode item)
                (HMMPTPScheduleMapper.loadingPortName item)
                (HMMPTPScheduleMapper.loadingTerminalCode item) "LOADING" 1
                [ {| eventTypeCode := DEPA; eventClassifierCode := EST;
                     eventDateTime := dt |} ] clk n1) as [call ->].
    intros H. injection H as <- _. cbn. lia.
  - intros H. injection H as <- _. cbn. lia.
Qed.

Lemma ptp_discharge_le item clk n l n' :
  HMMPTPScheduleMapper.dischargeCalls Date_parse Date_toISOString item clk n
  = inr (l, n') -> (length l <= 1)%nat.
Proof.
  unfold HMMPTPScheduleMapper.dischargeCalls.
  destruct (_ && _).
  - unfold mbind at 1. destruct (mlift _ clk n) as [e | [dt n1]]; [discriminate |].
    unfold mbind at 1.
    match goal with
    | |- context [HMMPTPScheduleMapper.portCall ?i ?a ?b ?c ?t ?x ?ts clk n1] =>
        destruct (ptp_portCall_returns i a b c t x ts clk n1) as [call ->]
    end.
    intros H. injection H as <- _. cbn. lia.
  - intros H. injection H as <- _. cbn. lia.
Qed.

Lemma ptp_transship_le item clk n l n' :
  HMMPTPScheduleMapper.transshipCalls Date_parse Date_toISOString item clk n
  = inr (l, n') -> (length l <= 1)%nat.
Proof.
  unfold HMMPTPScheduleMapper.transshipCalls.
  destruct (_ && _ && _); [| intros H; injection H as <- _; cbn; lia].
  cbv zeta. unfold mbind at 1.
  destruct (HMMPTPScheduleMapper.transshipTimestamp _ _ ARRI _ clk n)
    as [e | [arr n1]]; [discriminate |].
  unfold mbind at 1.
  destruct (HMMPTPScheduleMapper.transshipTimestamp _ _ DEPA _ clk n1)
    as [e | [dep n2]]; [discriminate |].
  destruct (arr ++ dep)%list as [|ts0 ts].
  - intros H. injection H as <- _. cbn. lia.
  - unfold mbind at 1.
    match goal with
    | |- context [HMMPTPScheduleMapper.portCall ?i ?a ?b ?c ?t ?x ?ts clk n2] =>
        destruct (ptp_portCall_returns i a b c t x ts clk n2) as [call ->]
    end.
    intros H. injection H as <- _. cbn. lia.
Qed.

Lemma ptp_item_shape item clk n s n' :
  ptpItem item clk n = inr (s, n') ->
  exists vs, vesselSchedules s = [vs] /\ (length (callsOfVessel vs) <= 3)%nat.
Proof.
  unfold HMMPTPScheduleMapper.mapItem.
  unfold mbind at 1.
  destruct (HMMPTPScheduleMapper.loadingCalls _ _ item clk n)
    as [e | [loading n1]] eqn:E1; [discriminate |].
  unfold mbind at 1.
  destruct (HMMPTPScheduleMapper.transshipCalls _ _ item clk n1)
    as [e | [transship n2]] eqn:E2; [discriminate |].
  unfold mbind at 1.
  destruct (HMMPTPScheduleMapper.dischargeCalls _ _ item clk n2)
    as [e | [discharge n3]] eqn:E3; [discriminate |].
  cbv zeta. intros H. injection H as <- _. cbn [vesselSchedules].
  eexists. split; [reflexivity |]. unfold callsOfVessel. cbn [transportCalls].
  rewrite default_nonempty_length, !length_app.
  pose proof (ptp_loading_le _ _ _ _ _ E1).
  pose proof (ptp_transship_le _ _ _ _ _ E2).
  pose proof (ptp_discharge_le _ _ _ _ _ E3). lia.
Qed.

(** X12. When the HMM point-to-point mapper returns, it returns exactly one
    service schedule per item of the response, in order, and nothing is
    filtered: each service schedule has exactly one vessel schedule, which
    carries at most three transport calls (loading, transshipment and
    discharge port), possibly none. *)
Theorem hmm_ptp_mapper_one_schedule_per_item resp fromCode toCode clk :
  match runMapper (HMMPTPScheduleMapper.mapHMMPTPScheduleToDCSA
                     Date_parse Date_toISOString resp fromCode toCode) clk with
  | inl _ => True
  | inr out =>
      length out = length (default [] (HMMPTPScheduleMapper.resultData resp))
      /\ Forall (fun s => exists vs,
                     vesselSchedules s = [vs]
                     /\ (length (callsOfVessel vs) <= 3)%nat) out
  end.
Proof.
  unfold runMapper, HMMPTPScheduleMapper.mapHMMPTPScheduleToDCSA.
  destruct (HMMPTPScheduleMapper.resultData resp) as [[|item items]|];
    try (split; [reflexivity | constructor]).
  change (default [] (Some (item :: items))) with (item :: items).
  destruct (mfor _ _ clk 0%nat) as [e | [out n1]] eqn:Eout; [exact I |].
  split.
  - exact (mfor_length _ _ _ _ _ _ Eout).
  - exact (mfor_Forall _ _ clk (fun a n b n' => ptp_item_shape a clk n b n')
             _ _ _ _ Eout).
Qed.

End HMMPTPMapperProperties.

(* The router of HMM and the adapters it selects. *)

Lemma setIf_lookup_ne k v (m : gmap string string) k' :
  k <> k' -> setIf k v m !! k' = m !! k'.
Proof.
  intros Hne. unfold setIf. destruct v as [s|]; [| reflexivity].
  destruct (String.eqb s ""); [reflexivity |]. apply lookup_insert_ne, Hne.
Qed.

Lemma truthy_orElse v : JS.truthy v = true -> Some (JS.orElse v "") = v.
Proof.
  destruct v as [s|]; cbn; [| discriminate].
  destruct (String.eqb s ""); [discriminate | reflexivity].
Qed.

Section HMMRouterSelection.

Variable localeCompare : string -> string -> Z.
Variable Date_parse : string -> option Z.
Variable Date_toISOString : Z -> string.
Variable clock : Clock.
Variable config : CarrierConfig.

(** X13. The HMM router never selects the point-to-point adapter or the
    port-schedule adapter for a query that adapter rejects. When the router
    selects one of them (no voyage number; the full point-to-point triple,
    or else the full port triple) and the endpoint of that sub-API is
    configured, the adapter raises no missing-parameter error: it sends one
    POST to that endpoint whose body carries the locations as given and the
    dates converted to YYYYMMDD. *)
Theorem hmm_router_selects_only_adapters_whose_parameters_are_present
    (params : Params) :
  JS.truthy (q_carrierVoyageNumber params) = false ->
  (forall ext scheduleA portA endpoint,
     JS.truthy (fromLocationCode params) = true ->
     JS.truthy (toLocationCode params) = true ->
     JS.truthy (periodDate params) = true ->
     endpointOf (ptpSchedule (apis config)) = Some endpoint ->
     exists req k,
       HMMAdapter.getSchedule scheduleA portA
         (HMMPTPScheduleAdapter.getSchedule Date_parse Date_toISOString clock
            config ext) params
       = Http req k
       /\ rq_method req = POST /\ rq_url req = endpoint
       /\ rq_body req !! "fromLocationCode" = fromLocationCode params
       /\ rq_body req !! "toLocationCode" = toLocationCode params
       /\ rq_body req !! "periodDate"
          = Some (convertToHMMDateFormat (JS.orElse (periodDate params) "")))
  /\ (forall scheduleA ptpA endpoint,
        JS.truthy (fromLocationCode params) && JS.truthy (toLocationCode params)
        && JS.truthy (periodDate params) = false ->
        JS.truthy (q_UNLocationCode params) = true ->
        JS.truthy (q_startDate params) = true ->
        JS.truthy (q_endDate params) = true ->
        endpointOf (portSchedule (apis config)) = Some endpoint ->
        exists req k,
          HMMAdapter.getSchedule scheduleA
            (HMMPortScheduleAdapter.getSchedule localeCompare clock config)
            ptpA params
          = Http req k
          /\ rq_method req = POST /\ rq_url req = endpoint
          /\ rq_body req !! "portCode" = q_UNLocationCode params
          /\ rq_body req !! "durationFrom"
             = Some (convertToHMMDateFormat (JS.orElse (q_startDate params) ""))
          /\ rq_body req !! "durationTo"
             = Some (convertToHMMDateFormat (JS.orElse (q_endDate params) ""))).
Proof.
  intros Hvoyage. split.
  - intros ext scheduleA portA endpoint Hfrom Hto Hperiod Hep.
    unfold HMMAdapter.getSchedule. cbv zeta.
    rewrite Hvoyage, Hfrom, Hto, Hperiod. cbn [andb].
    unfold HMMPTPScheduleAdapter.getSchedule. rewrite Hep. cbv zeta.
    assert (Hf : JS.or (fromLocationCode params) (q_UNLocationCode params)
                 = fromLocationCode params)
      by (unfold JS.or; rewrite Hfrom; reflexivity).
    assert (Hp : JS.or (periodDate params) (q_startDate params) = periodDate params)
      by (unfold JS.or; rewrite Hperiod; reflexivity).
    rewrite Hf, Hp, Hfrom, Hto, Hperiod. cbn [negb].
    eexists _, _. split; [reflexivity |]. cbn [rq_method rq_url rq_body].
    repeat split.
    + rewrite !setIf_lookup_ne by discriminate.
      rewrite !lookup_insert_ne by discriminate.
      rewrite lookup_singleton_eq. apply truthy_orElse, Hfrom.
    + rewrite !setIf_lookup_ne by discriminate.
      rewrite !lookup_insert_ne by discriminate.
      rewrite lookup_insert_eq. apply truthy_orElse, Hto.
    + rewrite !setIf_lookup_ne by discriminate.
      rewrite !lookup_insert_ne by discriminate.
      rewrite lookup_insert_eq. reflexivity.
  - intros scheduleA ptpA endpoint Hptp Hport Hstart Hend Hep.
    unfold HMMAdapter.getSchedule. cbv zeta.
    rewrite Hvoyage, Hptp, Hport, Hstart, Hend. cbn [andb].
    unfold HMMPortScheduleAdapter.getSchedule. rewrite Hep. cbv zeta.
    rewrite Hport, Hstart, Hend. cbn [negb].
    eexists _, _. split; [reflexivity |]. cbn [rq_method rq_url rq_body].
    repeat split.
    + rewrite !setIf_lookup_ne by discriminate.
      rewrite !lookup_insert_ne by discriminate.
      rewrite lookup_singleton_eq. apply truthy_orElse, Hport.
    + rewrite !setIf_lookup_ne by discriminate.
      rewrite !lookup_insert_ne by discriminate.
      rewrite lookup_insert_eq. reflexivity.
    + rewrite !setIf_lookup_ne by discriminate.
      rewrite lookup_insert_eq. reflexivity.
Qed.

End HMMRouterSelection.

Lemma hmm_router_selects_only_adapters_whose_parameters_are_present_witness :
  exists req k,
    HMMAdapter.getSchedule (fun _ => Throw "unused") (fun _ => Throw "unused")
      (HMMPTPScheduleAdapter.getSchedule (fun _ => None) (fun _ => "")
         (fun _ => 0) hmmFullConfig hmmNoExtensions) hmmPtpQuery
    = Http req k
    /\ rq_method req = POST
    /\ rq_url req = "/gateway/ptpSchedule/v1/port-to-port-schedule"
    /\ rq_body req !! "fromLocationCode" = Some "KRPUS"
    /\ rq_body req !! "toLocationCode" = Some "USLAX"
    /\ rq_body req !! "periodDate" = Some "20211203".
Proof.
  apply (proj1 (hmm_router_selects_only_adapters_whose_parameters_are_present
                  (fun _ _ => 0) (fun _ => None) (fun _ => "") (fun _ => 0)
                  hmmFullConfig hmmPtpQuery eq_refl)
               hmmNoExtensions (fun _ => Throw "unused") (fun _ => Throw "unused")
               "/gateway/ptpSchedule/v1/port-to-port-schedule");
    reflexivity.
Defined.

(* --------------------------------------------------------------------- *)
(** ** Maersk: port-schedule mapper and router *)
(* --------------------------------------------------------------------- *)

Section MaerskPortSchedule.

Import MaerskPointToPointAdapter.

Local Abbreviation goodS :=
  (Forall (fun e : string * ServiceSchedule => everyVesselHasCalls (snd e))).
Local Abbreviation callsInS m :=
  (flat_map (fun e : string * ServiceSchedule => callsOfService (snd e)) m).

Lemma mapUpdate_goodS (m : list (string * ServiceSchedule)) k f :
  goodS m ->
  (forall v, everyVesselHasCalls v -> everyVesselHasCalls (f v)) ->
  goodS (mapUpdate m k f).
Proof.
  intros Hm Hf. induction Hm as [|[k' v] m' Hv Hm' IH]; cbn [mapUpdate];
    [constructor |].
  destruct (String.eqb k' k); constructor; auto. apply Hf, Hv.
Qed.

Lemma mapUpdate_callsS (m : list (string * ServiceSchedule)) k f call :
  goodS m -> mapHas m k = true ->
  (forall v, everyVesselHasCalls v ->
     Permutation (callsOfService (f v)) (call :: callsOfService v)) ->
  Permutation (callsInS (mapUpdate m k f)) (call :: callsInS m).
Proof.
  intros Hm Hk Hf. induction Hm as [|[k' v] m' Hv Hm' IH]; [discriminate Hk |].
  cbn [mapUpdate]. unfold mapHas in Hk. cbn [existsb fst] in Hk.
  destruct (String.eqb k' k); cbn [flat_map snd].
  - rewrite (Hf v Hv). reflexivity.
  - rewrite (IH Hk). symmetry. apply Permutation_middle.
Qed.

Lemma port_vessel_good portSchedule m vs :
  goodS m -> goodS (MaerskPortScheduleAdapter.processVesselSchedule portSchedule m vs).
Proof.
  intros Hm. unfold MaerskPortScheduleAdapter.processVesselSchedule.
  destruct (MaerskPortScheduleAdapter.Payload.servicePartners vs) as [|sp sps];
    [exact Hm |].
  cbv zeta.
  destruct (mapHas m (MaerskPortScheduleAdapter.Payload.carrierServiceCode sp))
    eqn:Hhas.
  - apply mapUpdate_goodS; [exact Hm |].
    intros s [_ Hs]. unfold everyVesselHasCalls. cbn [vesselSchedules].
    apply findOrCreateAndPush_good; [reflexivity | exact Hs].
  - rewrite mapUpdate_new by exact Hhas.
    apply Forall_app. split; [exact Hm |]. constructor; [| constructor].
    unfold everyVesselHasCalls. cbn [snd vesselSchedules].
    apply findOrCreateAndPush_good; reflexivity.
Qed.

Lemma port_vessel_calls portSchedule m vs :
  goodS m ->
  (length (callsInS (MaerskPortScheduleAdapter.processVesselSchedule
                       portSchedule m vs))
   = (if hasServicePartner vs then 1 else 0) + length (callsInS m))%nat.
Proof.
  intros Hm.
  unfold MaerskPortScheduleAdapter.processVesselSchedule, hasServicePartner.
  destruct (MaerskPortScheduleAdapter.Payload.servicePartners vs) as [|sp sps];
    [reflexivity |].
  cbv zeta.
  destruct (mapHas m (MaerskPortScheduleAdapter.Payload.carrierServiceCode sp))
    eqn:Hhas.
  - match goal with
    | |- context [mapUpdate m ?k ?f] =>
        assert (Hp : Permutation (callsInS (mapUpdate m k f))
                       (MaerskPortScheduleAdapter.callOf portSchedule vs sp
                        :: callsInS m))
    end.
    { apply mapUpdate_callsS; [exact Hm | exact Hhas |].
      intros s [_ Hs]. unfold callsOfService. cbn [vesselSchedules].
      apply findOrCreateAndPush_calls; [reflexivity | exact Hs]. }
    rewrite (Permutation_length Hp). reflexivity.
  - rewrite mapUpdate_new by exact Hhas.
    rewrite !flat_map_app, !length_app. cbn [flat_map snd app].
    unfold callsOfService at 2. cbn [vesselSchedules findOrCreateAndPush flat_map].
    rewrite pushCall_calls by (right; reflexivity).
    cbn. lia.
Qed.

Lemma port_schedules_fold portSchedules m :
  goodS m ->
  let m' :=
    fold_left
      (fun m portSchedule =>
         fold_left (MaerskPortScheduleAdapter.processVesselSchedule portSchedule)
           (MaerskPortScheduleAdapter.Payload.vesselSchedules portSchedule) m)
      portSchedules m in
  goodS m'
  /\ (length (callsInS m')
      = length (List.filter hasServicePartner
                  (flat_map MaerskPortScheduleAdapter.Payload.vesselSchedules
                            portSchedules))
        + length (callsInS m))%nat.
Proof.
  cbv zeta. revert m.
  induction portSchedules as [|ps portSchedules IH]; intros m Hm;
    [split; [exact Hm | reflexivity] |].
  cbn [fold_left flat_map].
  assert (Hinner : forall vss m0, goodS m0 ->
            goodS (fold_left (MaerskPortScheduleAdapter.processVesselSchedule ps)
                             vss m0)
            /\ (length (callsInS
                          (fold_left
                             (MaerskPortScheduleAdapter.processVesselSchedule ps)
                             vss m0))
                = length (List.filter hasServicePartner vss)
                  + length (callsInS m0))%nat).
  { induction vss as [|vs vss IHv]; intros m0 Hm0;
      [split; [exact Hm0 | reflexivity] |].
    cbn [fold_left List.filter].
    destruct (IHv _ (port_vessel_good ps m0 vs Hm0)) as [H1 H2].
    split; [exact H1 |]. rewrite H2, port_vessel_calls by exact Hm0.
    destruct (hasServicePartner vs); cbn [length]; lia. }
  destruct (Hinner (MaerskPortScheduleAdapter.Payload.vesselSchedules ps) m Hm)
    as [H1 H2].
  destruct (IH _ H1) as [H3 H4]. split; [exact H3 |].
  rewrite H4, H2, List.filter_app, length_app. lia.
Qed.

(** X14. The Maersk port-schedule mapper returns exactly one transport call
    for each vessel schedule of the payload that names a service partner
    (the others are skipped), and every service schedule it returns has
    vessel schedules that all carry at least one transport call; so the
    invariant of the specification on a mapper's output holds for it. *)
Theorem maersk_port_mapper_one_call_per_vessel_schedule portSchedules :
  let out := MaerskPortScheduleAdapter.mapPortScheduleToDCSA portSchedules in
  length (callsOf out)
  = length (List.filter hasServicePartner
              (flat_map MaerskPortScheduleAdapter.Payload.vesselSchedules
                        portSchedules))
  /\ Forall (fun s => everyVesselHasCalls s /\ hasTransportCall s = true) out.
Proof.
  cbv zeta. unfold MaerskPortScheduleAdapter.mapPortScheduleToDCSA.
  destruct (port_schedules_fold portSchedules [] (List.Forall_nil _))
    as [Hgood Hlen].
  cbv zeta in Hgood, Hlen.
  set (m := fold_left _ portSchedules []) in *.
  split.
  - unfold callsOf.
    assert (Hf : forall l : list ServiceSchedule,
              flat_map callsOfService
                (List.filter (fun schedule =>
                                (0 <? length (vesselSchedules schedule))%nat) l)
              = flat_map callsOfService l).
    { induction l as [|s l IH]; [reflexivity |]. cbn [List.filter flat_map].
      destruct (0 <? length (vesselSchedules s))%nat eqn:Hl.
      - cbn [flat_map]. rewrite IH. reflexivity.
      - rewrite IH. unfold callsOfService at 2.
        destruct (vesselSchedules s); [reflexivity | discriminate Hl]. }
    rewrite Hf, flat_map_of_map, Hlen. cbn [flat_map length]. lia.
  - apply List.Forall_forall. intros s Hs. apply filter_In in Hs as [Hs _].
    apply in_map_iff in Hs as (e & <- & He).
    rewrite List.Forall_forall in Hgood. specialize (Hgood e He).
    split; [exact Hgood | apply everyVesselHasCalls_invariant, Hgood].
Qed.

End MaerskPortSchedule.

Lemma truthy_or_orElse a b d :
  JS.truthy a || JS.truthy b = true -> Some (JS.orElse (JS.or a b) d) = JS.or a b.
Proof.
  intros H. assert (Ht : JS.truthy (JS.or a b) = true).
  { unfold JS.or. destruct (JS.truthy a) eqn:Ea; [exact Ea | exact H]. }
  destruct (JS.or a b) as [s|]; cbn in *; [| discriminate].
  destruct (String.eqb s ""); [discriminate | reflexivity].
Qed.

Section MaerskRouterSelection.

Variable Date_toISOString : Z -> string.
Variable now : Z.
Variable config : CarrierConfig.

(** X15. The Maersk router never selects the point-to-point adapter or the
    port-schedule adapter for a query that adapter rejects. When both places
    are given the point-to-point adapter is selected, whatever else the
    query holds, and with its endpoint configured it sends one GET carrying
    both places and the receipt and delivery types, 'CY' unless given. When
    the port-schedule adapter is selected, it sends one GET whose [date] is
    the [date] of the query, else its [startDate]: through the router the
    adapter never falls back to the current day. *)
Theorem maersk_router_selects_only_adapters_whose_parameters_are_present
    (params : Params) :
  (forall ext scheduleA portA endpoint,
     JS.truthy (placeOfReceipt params) = true ->
     JS.truthy (placeOfDelivery params) = true ->
     endpointOf (pointToPoint (apis config)) = Some endpoint ->
     exists req k,
       MaerskAdapter.getSchedule scheduleA
         (MaerskPointToPointAdapter.getSchedule config ext) portA params
       = Http req k
       /\ rq_method req = GET /\ rq_url req = endpoint
       /\ rq_params req !! "placeOfReceipt" = placeOfReceipt params
       /\ rq_params req !! "placeOfDelivery" = placeOfDelivery params
       /\ rq_params req !! "receiptTypeAtOrigin"
          = Some (JS.orElse (MaerskPointToPointAdapter.receiptTypeAtOrigin ext)
                    "CY")
       /\ rq_params req !! "deliveryTypeAtDestination"
          = Some (JS.orElse
                    (MaerskPointToPointAdapter.deliveryTypeAtDestination ext)
                    "CY"))
  /\ (forall scheduleA pointToPointA endpoint,
        JS.truthy (placeOfReceipt params) && JS.truthy (placeOfDelivery params)
        = false ->
        JS.truthy (q_UNLocationCode params) = true ->
        JS.truthy (date params) || JS.truthy (q_startDate params) = true ->
        JS.truthy (q_vesselIMONumber params) = false ->
        JS.truthy (q_carrierVoyageNumber params) = false ->
        JS.truthy (q_carrierServiceCode params) = false ->
        endpointOf (portSchedule (apis config)) = Some endpoint ->
        exists req k,
          MaerskAdapter.getSchedule scheduleA pointToPointA
            (MaerskPortScheduleAdapter.getSchedule Date_toISOString now config)
            params
          = Http req k
          /\ rq_method req = GET /\ rq_url req = endpoint
          /\ rq_params req !! "UNLocationCode" = q_UNLocationCode params
          /\ rq_params req !! "date" = JS.or (date params) (q_startDate params)).
Proof.
  split.
  - intros ext scheduleA portA endpoint Hreceipt Hdelivery Hep.
    unfold MaerskAdapter.getSchedule. cbv zeta.
    rewrite Hreceipt, Hdelivery. cbn [andb].
    unfold MaerskPointToPointAdapter.getSchedule. rewrite Hep. cbv zeta.
    rewrite Hreceipt, Hdelivery. cbn [negb].
    eexists _, _. split; [reflexivity |]. cbn [rq_method rq_url rq_params].
    assert (Hmax : forall (m : gmap string string) k,
              k <> "maxTranshipment" ->
              match MaerskPointToPointAdapter.maxTranshipment ext with
              | Some n => <[ "maxTranshipment" := JS.numToString n ]>
              | None => id
              end m !! k = m !! k).
    { intros m k Hk. destruct (MaerskPointToPointAdapter.maxTranshipment ext);
        [apply lookup_insert_ne; congruence | reflexivity]. }
    assert (Hcy : forall v, String.eqb (JS.orElse v "CY") "" = false).
    { intros [s|]; cbn; [| reflexivity].
      destruct (String.eqb s "") eqn:E; [reflexivity | exact E]. }
    repeat split.
    + rewrite !setIf_lookup_ne by discriminate. rewrite Hmax by discriminate.
      rewrite !setIf_lookup_ne by discriminate.
      rewrite lookup_insert_ne by discriminate.
      rewrite lookup_singleton_eq. apply truthy_orElse, Hreceipt.
    + rewrite !setIf_lookup_ne by discriminate. rewrite Hmax by discriminate.
      rewrite !setIf_lookup_ne by discriminate.
      rewrite lookup_insert_eq. apply truthy_orElse, Hdelivery.
    + rewrite !setIf_lookup_ne by discriminate.
      unfold setIf at 1. rewrite Hcy. apply lookup_insert_eq.
    + rewrite !setIf_lookup_ne by discriminate.
      unfold setIf at 1. rewrite Hcy. apply lookup_insert_eq.
  - intros scheduleA pointToPointA endpoint Hp2p Hport Hdate Himo Hvoyage Hservice Hep.
    unfold MaerskAdapter.getSchedule. cbv zeta.
    rewrite Hp2p, Hport, Hdate, Himo, Hvoyage, Hservice. cbn [andb negb].
    unfold MaerskPortScheduleAdapter.getSchedule. rewrite Hep. cbv zeta.
    rewrite Hport. cbn [negb].
    eexists _, _. split; [reflexivity |]. cbn [rq_method rq_url rq_params].
    repeat split.
    + rewrite !setIf_lookup_ne by discriminate.
      rewrite lookup_insert_ne by discriminate.
      rewrite lookup_singleton_eq. apply truthy_orElse, Hport.
    + rewrite !setIf_lookup_ne by discriminate.
      rewrite lookup_insert_eq. apply truthy_or_orElse, Hdate.
Qed.

End MaerskRouterSelection.

Lemma maersk_router_selects_only_adapters_whose_parameters_are_present_witness :
  exists req k,
    MaerskAdapter.getSchedule (fun _ => Throw "unused")
      (MaerskPointToPointAdapter.getSchedule maerskFullConfig maerskNoExtensions)
      (fun _ => Throw "unused") maerskP2PQuery
    = Http req k
    /\ rq_method req = GET /\ rq_url req = "/schedules/point-to-point-routes"
    /\ rq_params req !! "placeOfReceipt" = Some "KRPUS"
    /\ rq_params req !! "placeOfDelivery" = Some "NLRTM"
    /\ rq_params req !! "receiptTypeAtOrigin" = Some "CY"
    /\ rq_params req !! "deliveryTypeAtDestination" = Some "CY".
Proof.
  apply (proj1 (maersk_router_selects_only_adapters_whose_parameters_are_present
                  (fun _ => "") 0 maerskFullConfig maerskP2PQuery)
               maerskNoExtensions (fun _ => Throw "unused")
               (fun _ => Throw "unused") "/schedules/point-to-point-routes");
    reflexivity.
Defined.

(* --------------------------------------------------------------------- *)
(** ** Tracking: the HMM mapper, and validation against the adapters *)
(* --------------------------------------------------------------------- *)


(** A loop whose body neither throws nor reads the clock does neither. *)
Lemma mfor_pure {A B} (f : A -> Mapper B) clk l :
  (forall a n, exists b, f a clk n = inr (b, n)) ->
  forall n, exists bs, mfor f l clk n = inr (bs, n) /\ length bs = length l.
Proof.
  intros H. induction l as [|a l IH]; intros n; [eexists; split; reflexivity |].
  cbn [mfor]. unfold mbind at 1. destruct (H a n) as [b ->].
  unfold mbind. destruct (IH n) as (bs & -> & Hlen).
  eexists. split; [reflexivity |]. cbn. rewrite Hlen. reflexivity.
Qed.

(** A loop whose body never throws returns one value per element, in
    order. *)
Lemma mfor_returns {A B} (f : A -> Mapper B) (R : A -> B -> Prop) clk l :
  (forall a n, exists b n', f a clk n = inr (b, n') /\ R a b) ->
  forall n, exists bs n', mfor f l clk n = inr (bs, n') /\ Forall2 R l bs.
Proof.
  intros H. induction l as [|a l IH]; intros n;
    [eexists _, _; split; [reflexivity | constructor] |].
  cbn [mfor]. unfold mbind at 1. destruct (H a n) as (b & n1 & -> & Hb).
  unfold mbind. destruct (IH n1) as (bs & n2 & -> & Hall).
  eexists _, _. split; [reflexivity | constructor; assumption].
Qed.

Section HMMTrackingMapperProperties.

Import HMMTrackingMapper.

Variable Date_toISOString : Z -> string.

Local Abbreviation mapTC := (mapHMMTransportCallToDCSA).

Lemma orTempID_returns id clk n :
  exists s n', orTempID id clk n = inr (s, n')
               /\ (JS.truthy id = true -> n' = n).
Proof.
  unfold orTempID. destruct (JS.truthy id).
  - eexists _, _. split; [reflexivity | reflexivity].
  - eexists _, _. split; [reflexivity | discriminate].
Qed.

Lemma orNowISO_returns v clk n :
  exists s n', orNowISO Date_toISOString v clk n = inr (s, n').
Proof. unfold orNowISO. destruct (JS.truthy v); eexists _, _; reflexivity. Qed.

Lemma mapTC_returns tc clk n :
  exists c n', mapTC tc clk n = inr (c, n')
               /\ (JS.truthy (transportCallID tc) = true -> n' = n).
Proof.
  unfold mapHMMTransportCallToDCSA, mbind.
  destruct (orTempID_returns (transportCallID tc) clk n) as (s & n' & -> & Hn).
  eexists _, _. split; [reflexivity | exact Hn].
Qed.

(** Building the map from the [transportCall] array never throws and never
    reads the clock. *)
Lemma buildTransportCallMap_pure calls clk n :
  exists m, buildTransportCallMap calls clk n = inr (m, n).
Proof.
  unfold buildTransportCallMap. unfold mbind at 1.
  match goal with
  | |- context [mfor ?f ?l clk n] =>
      destruct (mfor_pure f clk l) with (n := n) as (sets & -> & _)
  end.
  - intros tc k. destruct (mapTC_returns tc clk k) as (c & n' & Hc & Hn).
    destruct (JS.truthy (transportCallID tc)) eqn:Hid.
    + unfold mbind. rewrite Hc.
      rewrite (Hn eq_refl). eexists. reflexivity.
    + eexists. reflexivity.
  - eexists. reflexivity.
Qed.


Lemma eventTransportCall_returns m eventCall clk n :
  exists c n', eventTransportCall m eventCall clk n = inr (c, n').
Proof.
  unfold eventTransportCall. destruct eventCall as [tc|].
  - destruct (mapTC_returns tc clk n) as (c & n' & Hc & _).
    unfold mbind, mret. rewrite Hc. eexists _, _. reflexivity.
  - destruct (orTempID_returns None clk n) as (s & n' & H & _).
    unfold mbind, mret. change (None ≫= transportCallID) with (@None string).
    cbn [JS.truthy]. rewrite H. eexists _, _. reflexivity.
Qed.

Lemma mapShipmentEvent_returns e clk n :
  exists ev n', mapShipmentEvent Date_toISOString e clk n = inr (ev, n')
                /\ eventTypeOf ev = "SHIPMENT"
                /\ eventIDOf ev = HMMShipmentEvent.eventID e.
Proof.
  unfold mapShipmentEvent. unfold mbind at 1.
  destruct (orNowISO_returns (HMMShipmentEvent.eventCreatedDateTime e) clk n)
    as (s1 & n1 & ->).
  unfold mbind at 1.
  destruct (orNowISO_returns
              (JS.or (HMMShipmentEvent.eventDateTime e)
                     (HMMShipmentEvent.eventCreatedDateTime e)) clk n1)
    as (s2 & n2 & ->).
  eexists _, _. repeat split; reflexivity.
Qed.

Lemma mapTransportEvent_returns m e clk n :
  exists ev n', mapTransportEvent Date_toISOString m e clk n = inr (ev, n')
                /\ eventTypeOf ev = "TRANSPORT"
                /\ eventIDOf ev = HMMTransportEvent.eventID e.
Proof.
  unfold mapTransportEvent. unfold mbind at 1.
  destruct (eventTransportCall_returns m (HMMTransportEvent.transportCall e) clk n)
    as (c & n0 & ->).
  unfold mbind at 1.
  destruct (orNowISO_returns (HMMTransportEvent.eventCreatedDateTime e) clk n0)
    as (s1 & n1 & ->).
  unfold mbind at 1.
  destruct (orNowISO_returns
              (JS.or (HMMTransportEvent.eventDateTime e)
                     (HMMTransportEvent.eventCreatedDateTime e)) clk n1)
    as (s2 & n2 & ->).
  eexists _, _. repeat split; reflexivity.
Qed.

Lemma mapEquipmentEvent_returns resp m e clk n :
  exists ev n', mapEquipmentEvent Date_toISOString resp m e clk n = inr (ev, n')
                /\ eventTypeOf ev = "EQUIPMENT"
                /\ eventIDOf ev = HMMEquipmentEvent.eventID e.
Proof.
  unfold mapEquipmentEvent. unfold mbind at 1.
  destruct (eventTransportCall_returns m (HMMEquipmentEvent.transportCall e) clk n)
    as (c & n0 & ->).
  unfold mbind at 1.
  destruct (orNowISO_returns (HMMEquipmentEvent.eventCreatedDateTime e) clk n0)
    as (s1 & n1 & ->).
  unfold mbind at 1.
  destruct (orNowISO_returns
              (JS.or (HMMEquipmentEvent.eventDateTime e)
                     (HMMEquipmentEvent.eventCreatedDateTime e)) clk n1)
    as (s2 & n2 & ->).
  eexists _, _. repeat split; reflexivity.
Qed.



Lemma events_of_array {A} (id : A -> option string) t (l : list A)
    (events : list Tracking.TrackingEvent) :
  Forall2 (fun a ev => eventTypeOf ev = t /\ eventIDOf ev = id a) l events ->
  map eventTypeOf events = repeat t (length l)
  /\ map eventIDOf events = map id l.
Proof.
  induction 1 as [|a ev l events [Ht Hid] _ [IHt IHid]]; [split; reflexivity |].
  cbn [map length repeat]. rewrite Ht, Hid, IHt, IHid. split; reflexivity.
Qed.

(** X16. What the HMM tracking mapper returns for a response whose fields
    have their declared types: one event for each element of
    [shipmentEvent], then one for each element of [transportEvent], then one
    for each element of [equipmentEvent], each with the [eventID] of its
    element, in the order of the payload; the [eventType] of an event is that
    of the array it comes from, the [eventType] the payload states is not
    read. (The mapper uses [transportCall], [references],
    [documentReferences] and [seals] without testing that they are arrays; a
    value of another type there makes it throw, and is no response of the
    declared type.) *)
Theorem hmm_tracking_mapper_returns_one_event_per_payload_event resp clk :
  exists events,
    runMapper (mapHMMTrackingToDCSA Date_toISOString resp) clk = inr events
    /\ map eventTypeOf events
       = (repeat "SHIPMENT" (length (default [] (shipmentEvent resp)))
          ++ repeat "TRANSPORT" (length (default [] (transportEvent resp)))
          ++ repeat "EQUIPMENT" (length (default [] (equipmentEvent resp))))%list
    /\ map eventIDOf events
       = (map HMMShipmentEvent.eventID (default [] (shipmentEvent resp))
          ++ map HMMTransportEvent.eventID (default [] (transportEvent resp))
          ++ map HMMEquipmentEvent.eventID (default [] (equipmentEvent resp)))%list.
Proof.
  unfold runMapper, mapHMMTrackingToDCSA. unfold mbind at 1.
  destruct (buildTransportCallMap_pure (transportCall resp) clk 0%nat) as [m ->].
  unfold mbind at 1.
  destruct (mfor_returns (mapShipmentEvent Date_toISOString)
              (fun e ev => eventTypeOf ev = "SHIPMENT"
                           /\ eventIDOf ev = HMMShipmentEvent.eventID e) clk
              (default [] (shipmentEvent resp))
              (fun a n => mapShipmentEvent_returns a clk n) 0%nat)
    as (l1 & n1 & -> & H1).
  unfold mbind at 1.
  destruct (mfor_returns (mapTransportEvent Date_toISOString m)
              (fun e ev => eventTypeOf ev = "TRANSPORT"
                           /\ eventIDOf ev = HMMTransportEvent.eventID e) clk
              (default [] (transportEvent resp))
              (fun a n => mapTransportEvent_returns m a clk n) n1)
    as (l2 & n2 & -> & H2).
  unfold mbind at 1.
  destruct (mfor_returns (mapEquipmentEvent Date_toISOString resp m)
              (fun e ev => eventTypeOf ev = "EQUIPMENT"
                           /\ eventIDOf ev = HMMEquipmentEvent.eventID e) clk
              (default [] (equipmentEvent resp))
              (fun a n => mapEquipmentEvent_returns resp m a clk n) n2)
    as (l3 & n3 & -> & H3).
  apply events_of_array in H1 as [T1 I1], H2 as [T2 I2], H3 as [T3 I3].
  eexists. split; [reflexivity |].
  rewrite !map_app, T1, T2, T3, I1, I2, I3. split; reflexivity.
Qed.


End HMMTrackingMapperProperties.

(** X18. A tracking query identified by a transport call only is accepted by
    the validation of the route and then rejected by three of the four
    carriers: when [validateTrackingQuery] raises no error for a query that
    has none of the three document references, the query names a
    [transportCallID], and the HMM, ZIM and Maersk tracking adapters all
    throw their missing-reference error on the parameters the controller
    builds from it, before any network call. *)
Theorem tracking_by_transport_call_is_validated_then_rejected
    (Date_parse : string -> option Z) (Date_toISOString : Z -> string)
    (clock : Clock) (hmm zim maersk : CarrierConfig)
    (hmmEndpoint zimEndpoint maerskEndpoint : string)
    (query : gmap string string) :
  Validation.validateTrackingQuery Date_parse query = [] ->
  JS.truthy (query !! "carrierBookingReference") = false ->
  JS.truthy (query !! "transportDocumentReference") = false ->
  JS.truthy (query !! "equipmentReference") = false ->
  endpointOf (tracking (apis hmm)) = Some hmmEndpoint ->
  endpointOf (tracking (apis zim)) = Some zimEndpoint ->
  endpointOf (tracking (apis maersk)) = Some maerskEndpoint ->
  JS.truthy (query !! "transportCallID") = true
  /\ HMMTrackingAdapter.getTracking Date_toISOString clock hmm
       (trackingQueryParams query)
     = Throw "HMM Tracking API requires both carrierBookingReference and equipmentReference parameters"
  /\ ZIMTrackingAdapter.getTracking zim (trackingQueryParams query)
     = Throw "ZIM Tracking API requires at least one of: carrierBookingReference, transportDocumentReference, or equipmentReference"
  /\ MaerskTrackingAdapter.getTracking maersk (trackingQueryParams query)
     = Throw "Maersk Tracking API requires at least one of: carrierBookingReference, transportDocumentReference, or equipmentReference".
Proof.
  intros Hvalid Hbooking Hdocument Hequipment Hh Hz Hm. repeat split.
  - unfold Validation.validateTrackingQuery in Hvalid. cbv zeta in Hvalid.
    rewrite Hbooking, Hdocument, Hequipment in Hvalid. cbn [orb] in Hvalid.
    destruct (JS.truthy (query !! "transportCallID")); [reflexivity |].
    discriminate Hvalid.
  - unfold HMMTrackingAdapter.getTracking. rewrite Hh.
    cbn [trackingQueryParams Tracking.carrierBookingReference
         Tracking.equipmentReference].
    rewrite Hbooking. reflexivity.
  - unfold ZIMTrackingAdapter.getTracking. rewrite Hz.
    cbn [trackingQueryParams Tracking.carrierBookingReference
         Tracking.equipmentReference Tracking.transportDocumentReference].
    rewrite Hbooking, Hdocument, Hequipment. reflexivity.
  - unfold MaerskTrackingAdapter.getTracking. rewrite Hm.
    cbn [trackingQueryParams Tracking.carrierBookingReference
         Tracking.equipmentReference Tracking.transportDocumentReference].
    rewrite Hbooking, Hdocument, Hequipment. reflexivity.
Qed.

Lemma tracking_by_transport_call_is_validated_then_rejected_witness :
  Validation.validateTrackingQuery (fun _ => None) trackingByTransportCall = []
  /\ ZIMTrackingAdapter.getTracking trackingConfig
       (trackingQueryParams trackingByTransportCall)
     = Throw "ZIM Tracking API requires at least one of: carrierBookingReference, transportDocumentReference, or equipmentReference".
Proof.
  assert (Hvalid : Validation.validateTrackingQuery (fun _ => None)
                     trackingByTransportCall = [])
    by (vm_compute; reflexivity).
  split; [exact Hvalid |].
  apply (tracking_by_transport_call_is_validated_then_rejected
           (fun _ => None) (fun _ => "") (fun _ => 0)
           trackingConfig trackingConfig trackingConfig
           "/track/v1/events" "/track/v1/events" "/track/v1/events"
           trackingByTransportCall Hvalid);
    vm_compute; reflexivity.
Defined.

(* --------------------------------------------------------------------- *)
(** ** Validation of the query string, and what reaches the adapters *)
(* --------------------------------------------------------------------- *)

Lemma check_passed v valid error :
  Validation.check v valid error = [] ->
  JS.truthy v = true -> valid (JS.orElse v "") = true.
Proof.
  unfold Validation.check. intros H Hv. rewrite Hv in H.
  destruct (valid (JS.orElse v "")); [reflexivity | discriminate H].
Qed.

Lemma limit_accepted text :
  Validation.limitError text = false ->
  exists z, JS.parseInt text = JS.Int z /\ 0 <= z <= 1000.
Proof.
  unfold Validation.limitError, Validation.isValidLimit. cbv zeta.
  destruct (JS.parseInt text) as [|z]; [discriminate |].
  intros H. exists z. split; [reflexivity |].
  unfold JS.truthyNum in H.
  destruct (Z.eqb_spec z 0), (Z.ltb_spec 0 z), (Z.leb_spec z 1000);
    cbn in H; try discriminate H; lia.
Qed.

Section ValidatedQueries.

Variable Date_parse : string -> option Z.

Lemma validated_schedule_query query :
  Validation.validateScheduleQuery Date_parse query = [] ->
  (JS.truthy (query !! "startDate") = true ->
   Validation.isValidDate Date_parse (JS.orElse (query !! "startDate") "") = true)
  /\ (JS.truthy (query !! "endDate") = true ->
      Validation.isValidDate Date_parse (JS.orElse (query !! "endDate") "") = true)
  /\ (JS.truthy (query !! "startDate") = true ->
      JS.truthy (query !! "endDate") = true ->
      Validation.isValidDateRange Date_parse (query !! "startDate")
        (query !! "endDate") = true)
  /\ (JS.truthy (query !! "limit") = true ->
      Validation.limitError (JS.orElse (query !! "limit") "") = false).
Proof.
  unfold Validation.validateScheduleQuery. intros H.
  apply List.app_eq_nil in H as [_ H].
  apply List.app_eq_nil in H as [_ H].
  apply List.app_eq_nil in H as [Hs H].
  apply List.app_eq_nil in H as [He H].
  apply List.app_eq_nil in H as [Hr Hl].
  repeat split.
  - apply (check_passed _ _ _ Hs).
  - apply (check_passed _ _ _ He).
  - intros Ha Hb. rewrite Ha, Hb in Hr. cbn [andb] in Hr.
    destruct (Validation.isValidDateRange _ _ _); [reflexivity | discriminate Hr].
  - intros Hv. apply (check_passed _ _ _ Hl) in Hv.
    destruct (Validation.limitError _); [discriminate Hv | reflexivity].
Qed.

(** X19. The limit of a schedule query that passed validation: the
    parameters the controller hands to the adapters hold a limit between 0
    and 1000 (zero is accepted, although the error message says 1 to 1000,
    and so is a number followed by other characters, which [parseInt]
    ignores), or no limit, and then the query string had none. A limit that
    cannot be read as a number never reaches an adapter. *)
Theorem validated_schedule_limit_is_between_0_and_1000 query :
  Validation.validateScheduleQuery Date_parse query = [] ->
  match q_limit (scheduleQueryParams query) with
  | Some z => 0 <= z <= 1000
  | None => JS.truthy (query !! "limit") = false
  end.
Proof.
  intros H. apply validated_schedule_query in H as (_ & _ & _ & Hl).
  cbn [scheduleQueryParams q_limit].
  destruct (JS.truthy (query !! "limit")); [| reflexivity].
  destruct (limit_accepted _ (Hl eq_refl)) as (z & -> & Hz). exact Hz.
Qed.

End ValidatedQueries.

Lemma validated_schedule_limit_is_between_0_and_1000_witness :
  Validation.validateScheduleQuery (fun _ => None) scheduleWithLimitZero = []
  /\ match q_limit (scheduleQueryParams scheduleWithLimitZero) with
     | Some z => 0 <= z <= 1000
     | None => JS.truthy (scheduleWithLimitZero !! "limit") = false
     end.
Proof.
  assert (Hvalid : Validation.validateScheduleQuery (fun _ => None)
                     scheduleWithLimitZero = [])
    by (vm_compute; reflexivity).
  split; [exact Hvalid |].
  exact (validated_schedule_limit_is_between_0_and_1000 (fun _ => None)
           scheduleWithLimitZero Hvalid).
Defined.

Section ValidatedDates.

Variable Date_parse : string -> option Z.
Variable Date_toISOString : Z -> string.
Variables now tz : Z.



End ValidatedDates.


(* --------------------------------------------------------------------- *)
(** ** The carrier filter, the factory and the controllers *)
(* --------------------------------------------------------------------- *)

Lemma mapSet_keys {V} (m : list (string * V)) k v :
  map fst (HMMTrackingMapper.mapSet m k v)
  = if MaerskPointToPointAdapter.mapHas m k then map fst m
    else (map fst m ++ [k])%list.
Proof.
  induction m as [|[k' v'] m IH]; [reflexivity |].
  cbn [HMMTrackingMapper.mapSet]. unfold MaerskPointToPointAdapter.mapHas in *.
  cbn [existsb fst]. destruct (String.eqb k' k); cbn [orb map fst].
  - reflexivity.
  - rewrite IH. destruct (existsb _ m); reflexivity.
Qed.

Lemma mapGet_of_mapHas {V} (m : list (string * V)) k :
  MaerskPointToPointAdapter.mapHas m k = true ->
  exists v, MaerskPointToPointAdapter.mapGet m k = Some v.
Proof.
  unfold MaerskPointToPointAdapter.mapHas.
  induction m as [|[k' v'] m IH]; [discriminate |].
  cbn [existsb fst MaerskPointToPointAdapter.mapGet].
  destruct (String.eqb k' k); [eauto | exact IH].
Qed.

Lemma list_to_map_mapGet {V} (m : list (string * V)) k :
  (list_to_map m : gmap string V) !! k = MaerskPointToPointAdapter.mapGet m k.
Proof.
  induction m as [|[k' v'] m IH]; [apply lookup_empty |].
  cbn [list_to_map foldr MaerskPointToPointAdapter.mapGet fst snd].
  destruct (String.eqb_spec k' k) as [-> | Hne].
  - apply lookup_insert_eq.
  - rewrite lookup_insert_ne by exact Hne. exact IH.
Qed.

Lemma registered_upper code :
  In code registeredCodes -> JS.toUpperCase code = code.
Proof.
  intros H. repeat (destruct H as [<- | H]; [reflexivity |]). destruct H.
Qed.

Section FactoryInvariant.

Context {Adapter : Type}.
Variables CMACGMAdapter HMMAdapter ZIMAdapter MaerskAdapter : option Adapter.
Variable isAvailable : Adapter -> bool.

Local Abbreviation classes :=
  (CarrierAdapterFactory.adapterClasses CMACGMAdapter HMMAdapter ZIMAdapter
     MaerskAdapter).
Local Abbreviation step :=
  (CarrierAdapterFactory.initializeAdapter CMACGMAdapter HMMAdapter ZIMAdapter
     MaerskAdapter isAvailable).

Local Abbreviation kept := (factoryInvariant isAvailable).

Lemma mapSet_Forall (P : string * Adapter -> Prop) m k v :
  List.Forall P m -> P (k, v) -> (forall k' v', P (k', v') -> P (k', v)) ->
  List.Forall P (HMMTrackingMapper.mapSet m k v).
Proof.
  intros Hm Hk Hrepl. induction Hm as [|[k' v'] m Hx Hm IH].
  - constructor; [exact Hk | constructor].
  - cbn [HMMTrackingMapper.mapSet]. destruct (String.eqb k' k).
    + constructor; [exact (Hrepl _ _ Hx) | exact Hm].
    + constructor; [exact Hx | exact IH].
Qed.

Lemma classes_registered code c :
  MaerskPointToPointAdapter.mapGet classes code = Some c ->
  In code registeredCodes.
Proof.
  unfold CarrierAdapterFactory.adapterClasses, registeredCodes.
  cbn [MaerskPointToPointAdapter.mapGet].
  repeat match goal with
         | |- context [String.eqb ?a code] =>
             destruct (String.eqb_spec a code) as [<- | _];
             [intros _; cbn; auto 10 |]
         end.
  discriminate.
Qed.

Lemma step_invariant adapters entry :
  kept adapters -> kept (step adapters entry).
Proof.
  intros [Hall Hnd]. destruct entry as [code disabled].
  unfold CarrierAdapterFactory.initializeAdapter.
  destruct disabled; [split; assumption |].
  destruct (MaerskPointToPointAdapter.mapGet classes code) as [[adapter|]|] eqn:Hc;
    try (split; assumption).
  destruct (isAvailable adapter) eqn:Hav; [| split; assumption].
  split.
  - apply mapSet_Forall; [exact Hall | | ].
    + split; [exact (classes_registered _ _ Hc) | exact Hav].
    + intros k' v' [Hk' _]. split; [exact Hk' | exact Hav].
  - rewrite mapSet_keys.
    destruct (MaerskPointToPointAdapter.mapHas adapters code) eqn:Hhas;
      [exact Hnd |].
    apply List.NoDup_app; [exact Hnd | repeat constructor; intros [] |].
    intros k Hk [<- | []]. apply mapHas_In in Hk. congruence.
Qed.

Lemma initializeAdapters_invariant configs :
  kept
    (CarrierAdapterFactory.initializeAdapters CMACGMAdapter HMMAdapter ZIMAdapter
       MaerskAdapter isAvailable configs).
Proof.
  unfold CarrierAdapterFactory.initializeAdapters.
  assert (H0 : kept []) by (split; constructor).
  revert H0. generalize (@nil (string * Adapter)) as acc.
  induction configs as [|entry configs IH]; intros acc Hacc; [exact Hacc |].
  cbn [fold_left]. apply IH, step_invariant, Hacc.
Qed.

End FactoryInvariant.

Lemma supported_carrier name :
  existsb (String.eqb name) CarrierFilter.SUPPORTED_CARRIERS = true ->
  name = "all"
  \/ exists code, MaerskPointToPointAdapter.mapGet CarrierFilter.CARRIER_CODE_MAP name
                  = Some code
                  /\ In code registeredCodes /\ String.eqb name "all" = false.
Proof.
  unfold CarrierFilter.SUPPORTED_CARRIERS. cbn [existsb].
  repeat match goal with
         | |- context [String.eqb name ?a] =>
             destruct (String.eqb_spec name a) as [-> | _];
             [intros _;
              first [ left; reflexivity
                    | right; eexists; split; [reflexivity |];
                      split; [cbn; auto 10 | reflexivity] ] |]
         end.
  discriminate.
Qed.

(** X21. Behind the carrier filter a controller queries only carriers whose
    adapter the factory holds. Whatever configurations were loaded and
    whatever the adapter constructors did, when the middleware lets a request
    through, each carrier code the controller derives from the normalised
    [carrier] parameter has an adapter in the factory, and that adapter said
    it was available (the error for a missing adapter cannot arise); no code
    is queried twice; and the list is empty, which the controller answers
    with status 400, exactly when the factory holds no adapter at all. *)
Theorem filtered_request_queries_only_available_adapters {Rec Query : Type}
    (CMACGMAdapter HMMAdapter ZIMAdapter MaerskAdapter
       : option (@Controller.CarrierAdapter Rec Query))
    (isAvailable : @Controller.CarrierAdapter Rec Query -> bool)
    (configs : list (string * bool)) (carrier : option string)
    (normalized : string) :
  let adapters :=
    CarrierAdapterFactory.initializeAdapters CMACGMAdapter HMMAdapter ZIMAdapter
      MaerskAdapter isAvailable configs in
  CarrierFilter.carrierFilter adapters carrier = CarrierFilter.Next normalized ->
  let codes := CarrierFilter.carrierCodesOf adapters normalized in
  (forall code, In code codes ->
     exists adapter,
       Controller.getAdapter (list_to_map adapters) code = inr adapter
       /\ CarrierAdapterFactory.getAdapter adapters code = inr adapter
       /\ isAvailable adapter = true)
  /\ List.NoDup codes
  /\ (codes = [] <-> adapters = []).
Proof.
  intros adapters Hnext codes.
  destruct (initializeAdapters_invariant CMACGMAdapter HMMAdapter ZIMAdapter
              MaerskAdapter isAvailable configs) as [Hall Hnd].
  fold adapters in Hall, Hnd.
  assert (Hget : forall code, In code (map fst adapters) ->
            exists adapter,
              Controller.getAdapter (list_to_map adapters) code = inr adapter
              /\ CarrierAdapterFactory.getAdapter adapters code = inr adapter
              /\ isAvailable adapter = true).
  { intros code Hin.
    assert (Hreg : In code registeredCodes).
    { apply in_map_iff in Hin as ([k v] & <- & He).
      rewrite List.Forall_forall in Hall. exact (proj1 (Hall _ He)). }
    destruct (mapGet_of_mapHas adapters code (proj2 (mapHas_In _ _) Hin))
      as [adapter Hadapter].
    exists adapter. unfold Controller.getAdapter, CarrierAdapterFactory.getAdapter.
    rewrite list_to_map_mapGet, (registered_upper _ Hreg), Hadapter.
    repeat split.
    clear - Hall Hadapter. induction Hall as [|[k v] m [_ Hx] _ IH];
      [discriminate |].
    cbn [MaerskPointToPointAdapter.mapGet] in Hadapter.
    destruct (String.eqb k code); [| exact (IH Hadapter)].
    injection Hadapter as <-. exact Hx. }
  unfold CarrierFilter.carrierFilter in Hnext.
  assert (Hcases :
    normalized = "all"
    \/ exists code,
         MaerskPointToPointAdapter.mapGet CarrierFilter.CARRIER_CODE_MAP normalized
         = Some code
         /\ String.eqb normalized "all" = false
         /\ In code (map fst adapters)
         /\ JS.toLowerCase normalized = normalized).
  { destruct (JS.truthy carrier); cbn [negb] in Hnext;
      [| injection Hnext as <-; left; reflexivity].
    cbv zeta in Hnext.
    destruct (existsb _ CarrierFilter.SUPPORTED_CARRIERS) eqn:Hsup;
      cbn [negb] in Hnext; [| discriminate Hnext].
    destruct (supported_carrier _ Hsup) as [Hall' | (code & Hcode & Hreg & Hne)].
    - rewrite Hall' in Hnext. cbn in Hnext. injection Hnext as <-.
      left. reflexivity.
    - rewrite Hne, Hcode in Hnext. cbn [negb] in Hnext.
      destruct (CarrierAdapterFactory.isCarrierAvailable adapters code) eqn:Hav;
        cbn [negb] in Hnext; [| discriminate Hnext].
      injection Hnext as <-. right. exists code.
      unfold CarrierAdapterFactory.isCarrierAvailable in Hav.
      rewrite (registered_upper _ Hreg) in Hav. apply mapHas_In in Hav.
      repeat split; try assumption.
      clear - Hsup. revert Hsup.
      unfold CarrierFilter.SUPPORTED_CARRIERS. cbn [existsb].
      repeat match goal with
             | |- context [String.eqb ?n ?a] =>
                 destruct (String.eqb_spec n a) as [-> | _];
                 [intros _; reflexivity |]
             end.
      discriminate. }
  unfold codes, CarrierFilter.carrierCodesOf, CarrierFilter.getCarrierCodes.
  destruct Hcases as [-> | (code & Hcode & Hne & Hin & Hlow)].
  - change (JS.orElse (Some "all") "all") with "all".
    change (String.eqb (JS.toLowerCase "all") "all") with true. cbv iota.
    unfold CarrierAdapterFactory.getAvailableCarrierCodes.
    repeat split; [exact Hget | exact Hnd | |].
    + destruct adapters; [reflexivity | discriminate].
    + intros ->. reflexivity.
  - assert (Hself : JS.orElse (Some normalized) "all" = normalized).
    { unfold JS.orElse. destruct (String.eqb_spec normalized "") as [-> | _];
        [discriminate Hcode | reflexivity]. }
    rewrite Hself, Hlow, Hne, Hcode.
    repeat split.
    + intros c [<- | []]. exact (Hget _ Hin).
    + repeat constructor. intros [].
    + discriminate.
    + intros Hempty. rewrite Hempty in Hin. destruct Hin.
Qed.

Lemma filtered_request_queries_only_available_adapters_witness :
  CarrierFilter.carrierFilter twoAdapters (Some "Zim") = CarrierFilter.Next "zim"
  /\ CarrierFilter.carrierCodesOf twoAdapters "zim" = ["ZIM"]
  /\ List.NoDup (CarrierFilter.carrierCodesOf twoAdapters "zim").
Proof.
  assert (Hnext : CarrierFilter.carrierFilter twoAdapters (Some "Zim")
                  = CarrierFilter.Next "zim")
    by (vm_compute; reflexivity).
  split; [exact Hnext |]. split; [vm_compute; reflexivity |].
  exact (proj1 (proj2
           (filtered_request_queries_only_available_adapters
              None (Some (namedAdapter "HMM")) (Some (namedAdapter "ZIM")) None
              (fun _ => true)
              [("HMM", false); ("ONE", false); ("ZIM", false)]
              (Some "Zim") "zim" Hnext))).
Defined.

(* --------------------------------------------------------------------- *)
(** ** CMA CGM: the mapper of commercial calls *)
(* --------------------------------------------------------------------- *)

Lemma mapSet_new {V} (m : list (string * V)) k v :
  MaerskPointToPointAdapter.mapHas m k = false ->
  HMMTrackingMapper.mapSet m k v = (m ++ [(k, v)])%list.
Proof.
  unfold MaerskPointToPointAdapter.mapHas.
  induction m as [|[k' v'] m IH]; [reflexivity |].
  cbn [existsb fst HMMTrackingMapper.mapSet app].
  destruct (String.eqb k' k); [discriminate |].
  cbn [orb]. intros H. rewrite (IH H). reflexivity.
Qed.

Lemma mapUpdate_Forall {V} (P Q : string * V -> Prop) m k f :
  List.NoDup (map fst m) -> Forall P m ->
  (forall v, P (k, v) -> Q (k, f v)) ->
  (forall k' v, k' <> k -> P (k', v) -> Q (k', v)) ->
  Forall Q (MaerskPointToPointAdapter.mapUpdate m k f).
Proof.
  intros Hnd Hm Hk Hother. induction Hm as [|[k' v] m Hx Hm IH];
    [constructor |].
  cbn [map fst] in Hnd. apply NoDup_cons_iff in Hnd as [Hnotin Hnd].
  cbn [MaerskPointToPointAdapter.mapUpdate].
  destruct (String.eqb_spec k' k) as [-> | Hne]; constructor.
  - exact (Hk _ Hx).
  - apply List.Forall_forall. intros [k' v'] Hin. apply Hother.
    + intros ->. apply Hnotin, in_map_iff. exists (k, v'). split;
        [reflexivity | exact Hin].
    + rewrite List.Forall_forall in Hm. exact (Hm _ Hin).
  - exact (Hother _ _ Hne Hx).
  - exact (IH Hnd).
Qed.

Lemma mapGet_In {V} (m : list (string * V)) k :
  In k (map fst m) ->
  exists v, MaerskPointToPointAdapter.mapGet m k = Some v /\ In (k, v) m.
Proof.
  induction m as [|[k' v'] m IH]; [contradiction |].
  cbn [map fst MaerskPointToPointAdapter.mapGet].
  destruct (String.eqb_spec k' k) as [-> | Hne].
  - intros _. exists v'. split; [reflexivity | left; reflexivity].
  - intros [H | H]; [contradiction |].
    destruct (IH H) as (v & Hv & Hin). exists v. split; [exact Hv | right; exact Hin].
Qed.

(** Lists of keys: the items of each key, over keys that occur once each,
    make up the whole list. *)
Lemma flat_map_one_more {A} (g : string -> list A) k0 x ks :
  List.NoDup ks -> In k0 ks ->
  Permutation
    (flat_map (fun k => (if String.eqb k0 k then [x] else []) ++ g k)%list ks)
    (x :: flat_map g ks).
Proof.
  induction ks as [|k ks IH]; [contradiction |].
  intros Hnd Hin. apply NoDup_cons_iff in Hnd as [Hnotin Hnd].
  cbn [flat_map]. destruct (String.eqb_spec k0 k) as [-> | Hne].
  - cbn [app]. constructor. apply Permutation_app_head.
    clear IH Hin Hnd. induction ks as [|k' ks IH]; [reflexivity |].
    cbn [flat_map]. destruct (String.eqb_spec k k') as [-> | _].
    + exfalso. apply Hnotin. left. reflexivity.
    + cbn [app]. rewrite IH; [reflexivity |]. intros H. apply Hnotin. right. exact H.
  - cbn [app]. destruct Hin as [-> | Hin]; [contradiction |].
    rewrite (IH Hnd Hin). symmetry. apply Permutation_middle.
Qed.

Section CMACGMCalls.

Import CMACGMVoyageAdapter.

Local Abbreviation Call := Payload.CMACGMCommercialCall.
Local Abbreviation serviceCodeOf :=
  (fun c : Call => Payload.code (Payload.service c)).

Lemma callsOfKey_cons c seen k :
  callsOfKey (c :: seen) k
  = ((if String.eqb (vesselKeyOf c) k then [transportCallOf c] else [])
     ++ callsOfKey seen k)%list.
Proof.
  unfold callsOfKey. cbn [List.filter].
  destruct (String.eqb (vesselKeyOf c) k); reflexivity.
Qed.

Lemma callsOfKey_snoc seen c k :
  callsOfKey (seen ++ [c]) k
  = (callsOfKey seen k
     ++ if String.eqb (vesselKeyOf c) k then [transportCallOf c] else [])%list.
Proof.
  unfold callsOfKey. rewrite List.filter_app, map_app. cbn [List.filter].
  destruct (String.eqb (vesselKeyOf c) k); reflexivity.
Qed.

Lemma firstCallOfKey_snoc seen c k :
  firstCallOfKey (seen ++ [c]) k
  = match firstCallOfKey seen k with
    | Some first => Some first
    | None => if String.eqb (vesselKeyOf c) k then Some c else None
    end.
Proof.
  unfold firstCallOfKey. induction seen as [|c' seen IH]; cbn [app find];
    [reflexivity |].
  destruct (String.eqb (vesselKeyOf c') k); [reflexivity | exact IH].
Qed.

Lemma key_not_seen seen k :
  (forall c, In c seen -> vesselKeyOf c <> k) ->
  firstCallOfKey seen k = None /\ callsOfKey seen k = [].
Proof.
  unfold firstCallOfKey, callsOfKey.
  induction seen as [|c seen IH]; intros H; [split; reflexivity |].
  cbn [find List.filter].
  destruct (String.eqb_spec (vesselKeyOf c) k) as [Heq | _].
  - exfalso. exact (H c (or_introl eq_refl) Heq).
  - apply IH. intros c' Hc'. apply H. right. exact Hc'.
Qed.

Lemma callsOfKey_partition seen ks :
  List.NoDup ks -> (forall c, In c seen -> In (vesselKeyOf c) ks) ->
  Permutation (flat_map (callsOfKey seen) ks) (map transportCallOf seen).
Proof.
  intros Hnd. induction seen as [|c seen IH]; intros Hin.
  - clear. induction ks as [|k ks IH]; [reflexivity | exact IH].
  - cbn [map]. rewrite <- IH by (intros c' Hc'; apply Hin; right; exact Hc').
    rewrite <- (flat_map_one_more (callsOfKey seen) (vesselKeyOf c)
                  (transportCallOf c) ks Hnd (Hin c (or_introl eq_refl))).
    erewrite flat_map_ext; [reflexivity |]. intros k. apply callsOfKey_cons.
Qed.

Lemma vesselReferences_snoc sm sc e :
  vesselReferences (sm ++ [(sc, e)]) = (vesselReferences sm ++ se_vesselSchedules e)%list.
Proof.
  unfold vesselReferences. rewrite map_app, concat_app. cbn [map concat snd].
  rewrite app_nil_r. reflexivity.
Qed.

Lemma vesselReferences_push sm sc key :
  MaerskPointToPointAdapter.mapHas sm sc = true ->
  Permutation
    (vesselReferences
       (MaerskPointToPointAdapter.mapUpdate sm sc
          (fun e => {| se_name := se_name e;
                       se_vesselSchedules := (se_vesselSchedules e ++ [key])%list |})))
    (key :: vesselReferences sm).
Proof.
  unfold MaerskPointToPointAdapter.mapHas, vesselReferences.
  induction sm as [|[sc' e] sm IH]; [discriminate |].
  cbn [existsb fst MaerskPointToPointAdapter.mapUpdate].
  destruct (String.eqb sc' sc); cbn [orb map concat snd se_vesselSchedules].
  - intros _. rewrite <- app_assoc. cbn [app].
    symmetry. apply Permutation_middle.
  - intros H. rewrite (IH H). symmetry. apply Permutation_middle.
Qed.

(** The service of the current call is in the map after the first step of
    a turn, which keeps what was true of the services. *)
Lemma ensure_service seen (sm : list (string * ServiceEntry)) c :
  List.NoDup (map fst sm) ->
  Forall (referencesOf seen) sm ->
  let sm1 :=
    if negb (MaerskPointToPointAdapter.mapHas sm (serviceCodeOf c))
    then HMMTrackingMapper.mapSet sm (serviceCodeOf c)
           {| se_name := Payload.service_name (Payload.service c);
              se_vesselSchedules := [] |}
    else sm in
  List.NoDup (map fst sm1)
  /\ Forall (referencesOf seen) sm1
  /\ MaerskPointToPointAdapter.mapHas sm1 (serviceCodeOf c) = true
  /\ vesselReferences sm1 = vesselReferences sm
  /\ (forall k, In k (map fst sm) -> In k (map fst sm1)).
Proof.
  intros Hnd Hrefs sm1. subst sm1.
  destruct (MaerskPointToPointAdapter.mapHas sm (serviceCodeOf c)) eqn:Hhas;
    cbn [negb].
  - repeat split; auto.
  - rewrite (mapSet_new _ _ _ Hhas). rewrite map_app. cbn [map fst].
    repeat split.
    + apply List.NoDup_app; [exact Hnd | repeat constructor; intros [] |].
      intros k Hk [<- | []]. apply mapHas_In in Hk. congruence.
    + apply Forall_app. split; [exact Hrefs |].
      constructor; [constructor | constructor].
    + apply mapHas_In. rewrite map_app. apply in_or_app. right. left. reflexivity.
    + rewrite vesselReferences_snoc. apply app_nil_r.
    + intros k Hk. apply in_or_app. left. exact Hk.
Qed.

Lemma referencesOf_later seen c e :
  referencesOf seen e -> referencesOf (seen ++ [c]) e.
Proof.
  unfold referencesOf. apply List.Forall_impl.
  intros key (first & Hfirst & Hsc). exists first.
  rewrite firstCallOfKey_snoc, Hfirst. split; [reflexivity | exact Hsc].
Qed.

Lemma fileCall_invariant seen store c :
  storeInvariant seen store -> storeInvariant (seen ++ [c]) (fileCall store c).
Proof.
  destruct store as [sm vm]. unfold storeInvariant. cbn [fst snd].
  intros (Hvnd & Hv & Hvin & Hsnd & Hsin & Hperm & Hrefs).
  unfold fileCall. cbv zeta.
  destruct (ensure_service seen sm c Hsnd Hrefs)
    as (Hsnd1 & Hrefs1 & Hhas1 & Href1 & Hsin1).
  set (sm1 := if negb (MaerskPointToPointAdapter.mapHas sm (serviceCodeOf c))
              then _ else sm) in *.
  destruct (MaerskPointToPointAdapter.mapHas vm (vesselKeyOf c)) eqn:Hhas;
    cbn [negb fst snd].
  - (* the vessel object exists *)
    rewrite mapUpdate_keys.
    split; [exact Hvnd |]. split.
    { apply (mapUpdate_Forall (vesselObjectOf seen)); [exact Hvnd | exact Hv | |].
      - intros vs (Hcalls & Hne & Hvessel). unfold vesselObjectOf. cbn [fst snd] in *.
        cbn [transportCalls vessel].
        rewrite callsOfKey_snoc, firstCallOfKey_snoc, String.eqb_refl, Hcalls.
        repeat split.
        + intros H. apply app_eq_nil in H as [H _]. exact (Hne H).
        + rewrite Hvessel. destruct (firstCallOfKey seen (vesselKeyOf c)) eqn:Hf;
            [reflexivity |].
          exfalso. apply Hne. unfold firstCallOfKey in Hf. unfold callsOfKey.
          clear - Hf. induction seen as [|c' seen IH]; [reflexivity |].
          cbn [find] in Hf. cbn [List.filter].
          destruct (String.eqb (vesselKeyOf c') (vesselKeyOf c));
            [discriminate Hf | exact (IH Hf)].
      - intros k' vs Hne (Hcalls & Hnonempty & Hvessel). unfold vesselObjectOf.
        cbn [fst snd] in *.
        rewrite callsOfKey_snoc, firstCallOfKey_snoc.
        destruct (String.eqb_spec (vesselKeyOf c) k') as [Heq | _];
          [exfalso; exact (Hne (eq_sym Heq)) |].
        rewrite app_nil_r. repeat split; [exact Hcalls | exact Hnonempty |].
        rewrite Hvessel. destruct (firstCallOfKey seen k'); reflexivity. }
    split.
    { intros c' Hc'. apply in_app_or in Hc' as [Hc' | [<- | []]];
        [exact (Hvin _ Hc') | apply mapHas_In, Hhas]. }
    split; [exact Hsnd1 |]. split.
    { intros c' Hc'. apply in_app_or in Hc' as [Hc' | [<- | []]];
        [exact (Hsin1 _ (Hsin _ Hc')) | apply mapHas_In, Hhas1]. }
    split; [rewrite Href1; exact Hperm |].
    revert Hrefs1. apply List.Forall_impl. intros e. apply referencesOf_later.
  - (* the vessel object is created *)
    assert (Hnew : forall c', In c' seen -> vesselKeyOf c' <> vesselKeyOf c).
    { intros c' Hc' Heq. apply Hvin in Hc'. rewrite Heq in Hc'.
      apply mapHas_In in Hc'. congruence. }
    destruct (key_not_seen seen _ Hnew) as [Hfirst Hnone].
    rewrite (mapSet_new _ _ _ Hhas), !mapUpdate_keys, map_app. cbn [map fst].
    assert (Hvnd' : List.NoDup (map fst vm ++ [vesselKeyOf c])).
    { apply List.NoDup_app; [exact Hvnd | repeat constructor; intros [] |].
      intros k Hk [<- | []]. apply mapHas_In in Hk. congruence. }
    split; [exact Hvnd' |]. split.
    { apply (mapUpdate_Forall
               (fun e => (fst e <> vesselKeyOf c -> vesselObjectOf seen e)
                         /\ (fst e = vesselKeyOf c ->
                             transportCalls (snd e) = Some []
                             /\ option_map vesselIMONumber (vessel (snd e))
                                = Some (Payload.imo (Payload.vessel c))))).
      - rewrite map_app. exact Hvnd'.
      - apply Forall_app. split.
        + rewrite List.Forall_forall in Hv. apply List.Forall_forall.
          intros [k vs] Hin. cbn [fst snd]. split; [intros _; exact (Hv _ Hin) |].
          intros ->. exfalso.
          assert (Hk : In (vesselKeyOf c) (map fst vm))
            by (apply in_map_iff; exists (vesselKeyOf c, vs); split;
                [reflexivity | exact Hin]).
          apply mapHas_In in Hk. congruence.
        + constructor; [| constructor]. cbn [fst snd]. split;
            [intros H; contradiction | intros _; split; reflexivity].
      - intros vs [_ Hcreated]. destruct (Hcreated eq_refl) as [Hcalls Hvessel].
        unfold vesselObjectOf. cbn [fst snd transportCalls vessel] in *.
        rewrite callsOfKey_snoc, firstCallOfKey_snoc, String.eqb_refl, Hcalls,
          Hfirst, Hnone.
        repeat split; [discriminate | exact Hvessel].
      - intros k' vs Hne [Hold _]. destruct (Hold Hne) as (Hcalls & Hnonempty & Hvessel).
        unfold vesselObjectOf. cbn [fst snd] in *.
        rewrite callsOfKey_snoc, firstCallOfKey_snoc.
        destruct (String.eqb_spec (vesselKeyOf c) k') as [Heq | _];
          [exfalso; exact (Hne (eq_sym Heq)) |].
        rewrite app_nil_r. repeat split; [exact Hcalls | exact Hnonempty |].
        rewrite Hvessel. destruct (firstCallOfKey seen k'); reflexivity. }
    split.
    { intros c' Hc'. apply in_or_app.
      apply in_app_or in Hc' as [Hc' | [<- | []]];
        [left; exact (Hvin _ Hc') | right; left; reflexivity]. }
    split; [exact Hsnd1 |]. split.
    { intros c' Hc'. apply in_app_or in Hc' as [Hc' | [<- | []]];
        [exact (Hsin1 _ (Hsin _ Hc')) | apply mapHas_In, Hhas1]. }
    split.
    { rewrite (vesselReferences_push _ _ _ Hhas1), Href1, Hperm.
      apply Permutation_cons_append. }
    apply (mapUpdate_Forall (referencesOf seen)); [exact Hsnd1 | exact Hrefs1 | |].
    + intros e He. unfold referencesOf in *. cbn [fst snd se_vesselSchedules] in *.
      apply Forall_app. split.
      * revert He. apply List.Forall_impl. intros key (first & Hf & Hsc).
        exists first. rewrite firstCallOfKey_snoc, Hf. split; [reflexivity | exact Hsc].
      * constructor; [| constructor]. exists c.
        rewrite firstCallOfKey_snoc, Hfirst, String.eqb_refl.
        split; reflexivity.
    + intros k' e _. apply referencesOf_later.
Qed.

Lemma mapCallsToDCSA_invariant calls :
  storeInvariant calls (fold_left fileCall calls ([], [])).
Proof.
  induction calls as [|c calls IH] using rev_ind.
  - cbn. unfold storeInvariant. cbn.
    repeat split; try constructor; intros c [].
  - rewrite fold_left_app. cbn [fold_left]. apply fileCall_invariant, IH.
Qed.

(** The vessel schedules of a service of the result, read through the
    references. *)
Lemma resolved_references seen vm keys :
  Forall (vesselObjectOf seen) vm ->
  (forall key, In key keys -> In key (map fst vm)) ->
  Forall2 (fun key vs => callsOfVessel vs = callsOfKey seen key
                         /\ callsOfKey seen key <> []
                         /\ option_map vesselIMONumber (vessel vs)
                            = option_map (fun c => Payload.imo (Payload.vessel c))
                                         (firstCallOfKey seen key))
          keys (omap (MaerskPointToPointAdapter.mapGet vm) keys).
Proof.
  intros Hv. induction keys as [|key keys IH]; intros Hin; [constructor |].
  destruct (mapGet_In vm key (Hin key (or_introl eq_refl))) as (vs & Hget & Hvs).
  cbn [omap list_omap]. rewrite Hget. constructor.
  - rewrite List.Forall_forall in Hv.
    destruct (Hv _ Hvs) as (Hcalls & Hne & Hvessel). cbn [fst snd] in *.
    unfold callsOfVessel. rewrite Hcalls. repeat split; assumption.
  - apply IH. intros k Hk. apply Hin. right. exact Hk.
Qed.

Lemma resolved_calls seen vm keys :
  Forall (vesselObjectOf seen) vm ->
  (forall key, In key keys -> In key (map fst vm)) ->
  flat_map callsOfVessel (omap (MaerskPointToPointAdapter.mapGet vm) keys)
  = flat_map (callsOfKey seen) keys.
Proof.
  intros Hv. induction keys as [|key keys IH]; intros Hin; [reflexivity |].
  destruct (mapGet_In vm key (Hin key (or_introl eq_refl))) as (vs & Hget & Hvs).
  cbn [omap list_omap flat_map]. rewrite Hget. cbn [flat_map].
  rewrite List.Forall_forall in Hv.
  destruct (Hv _ Hvs) as (Hcalls & _). cbn [fst snd] in Hcalls.
  unfold callsOfVessel at 1. rewrite Hcalls. cbn [default].
  f_equal. apply IH. intros k Hk. apply Hin. right. exact Hk.
Qed.

(** X22. The CMA CGM mapper of commercial calls keeps one vessel object for
    each pair of vessel IMO number and voyage code, across services, and
    attaches it to the service of the call that created it. So every call of
    the payload becomes exactly one transport call of the result; each vessel
    schedule of the result holds, in payload order, all the calls of one
    vessel and voyage (at least one) with the IMO number of the first of
    them; and a vessel schedule is listed under the service of the first
    call of its vessel and voyage, whatever service the later calls name.
    Every service named by a call is in the result once, with or without
    vessel schedules. *)
Theorem cmacgm_calls_are_filed_under_the_service_of_the_first_call
    (calls : list Call) :
  let out := mapCallsToDCSA calls in
  Permutation (callsOf out) (map transportCallOf calls)
  /\ (forall svc vs, In svc out -> In vs (vesselSchedules svc) ->
        exists key first,
          firstCallOfKey calls key = Some first
          /\ serviceCodeOf first = carrierServiceCode svc
          /\ option_map vesselIMONumber (vessel vs)
             = Some (Payload.imo (Payload.vessel first))
          /\ callsOfVessel vs = callsOfKey calls key
          /\ callsOfVessel vs <> [])
  /\ List.NoDup (map carrierServiceCode out)
  /\ (forall c, In c calls -> In (serviceCodeOf c) (map carrierServiceCode out)).
Proof.
  intros out. subst out. unfold mapCallsToDCSA.
  pose proof (mapCallsToDCSA_invariant calls) as Hinv.
  destruct (fold_left fileCall calls ([], [])) as [sm vm].
  destruct Hinv as (Hvnd & Hv & Hvin & Hsnd & Hsin & Hperm & Hrefs).
  cbn [fst snd] in *. unfold servicesOf.
  assert (Hkeys : forall sc e key, In (sc, e) sm -> In key (se_vesselSchedules e) ->
                    In key (map fst vm)).
  { intros sc e key He Hkey. apply (Permutation_in _ Hperm).
    unfold vesselReferences. apply in_concat. exists (se_vesselSchedules e).
    split; [| exact Hkey]. apply in_map_iff. exists (sc, e). split;
      [reflexivity | exact He]. }
  assert (Hcodes : map carrierServiceCode
                     (map (fun '(serviceCode, e) =>
                             {| carrierServiceCode := serviceCode;
                                carrierServiceName := se_name e;
                                universalServiceReference := None;
                                vesselSchedules :=
                                  omap (MaerskPointToPointAdapter.mapGet vm)
                                       (se_vesselSchedules e) |}) sm)
                   = map fst sm).
  { rewrite map_map. apply map_ext. intros [sc e]. reflexivity. }
  repeat split.
  - rewrite <- (callsOfKey_partition calls (map fst vm) Hvnd Hvin), <- Hperm.
    unfold callsOf, vesselReferences.
    clear - Hv Hkeys. induction sm as [|[sc e] sm IH]; [reflexivity |].
    cbn [map flat_map concat snd]. rewrite flat_map_app.
    apply Permutation_app.
    + unfold callsOfService. cbn [vesselSchedules].
      rewrite (resolved_calls calls vm _ Hv); [reflexivity |].
      intros key Hkey. exact (Hkeys sc e key (or_introl eq_refl) Hkey).
    + apply IH. intros sc' e' key He'. exact (Hkeys sc' e' key (or_intror He')).
  - intros svc vs Hsvc Hvs. apply in_map_iff in Hsvc as ([sc e] & <- & He).
    cbn [vesselSchedules carrierServiceCode] in *.
    pose proof (resolved_references calls vm (se_vesselSchedules e) Hv
                  (fun key Hkey => Hkeys sc e key He Hkey)) as Hres.
    rewrite List.Forall_forall in Hrefs. pose proof (Hrefs _ He) as Hfirst.
    unfold referencesOf in Hfirst. cbn [fst snd] in Hfirst.
    clear - Hres Hfirst Hvs.
    induction Hres as [|key vs' keys vss (Hcalls & Hne & Hvessel) _ IH];
      [destruct Hvs |].
    apply Forall_cons_iff in Hfirst as [(first & Hf & Hsc) Hrest].
    destruct Hvs as [<- | Hvs]; [| exact (IH Hvs Hrest)].
    exists key, first. rewrite Hf in Hvessel. rewrite Hcalls.
    repeat split; assumption.
  - rewrite Hcodes. exact Hsnd.
  - intros c Hc. rewrite Hcodes. exact (Hsin c Hc).
Qed.

End CMACGMCalls.

Lemma cmacgm_calls_are_filed_under_the_service_of_the_first_call_witness :
  map (fun s => (carrierServiceCode s, length (vesselSchedules s)))
      (CMACGMVoyageAdapter.mapCallsToDCSA oneVoyageTwoServices)
  = [("FAL1", 1%nat); ("FAL3", 0%nat)]
  /\ Permutation
       (callsOf (CMACGMVoyageAdapter.mapCallsToDCSA oneVoyageTwoServices))
       (map CMACGMVoyageAdapter.transportCallOf oneVoyageTwoServices).
Proof.
  split; [vm_compute; reflexivity |].
  exact (proj1 (cmacgm_calls_are_filed_under_the_service_of_the_first_call
                  oneVoyageTwoServices)).
Defined.
